(** * Modbus sniffer: frame reconstructor, correlator and register store

    Shallow embedding of
      - [custom_components/modbus_sniffer/parser.py]  (module [parser]),
      - [custom_components/modbus_sniffer/hub.py]     (module [hub]),
      - the reconstructor and PDU decoder of [udp_web_server.py]
        (module [udp_web_server]).

    Python [bytes] are lists of [Byte.byte]; Python integers are [Z];
    [Optional] results are [option]; the monotonic clock of the event loop
    gives exact rational seconds ([Q]). *)

From Stdlib Require Import ZArith QArith List Lia Lqa.
From Stdlib.Strings Require Import Byte Ascii.
From stdpp Require Import base option list list_numbers gmap sorting pretty strings.

Local Open Scope Z_scope.

(** ** Python primitives on [bytes] and [int] *)

Module py.

Definition bytes := list byte.

(** [b] read as an [int] in [0..255] (indexing a [bytes] object). *)
Definition b2z (b : byte) : Z := Z.of_N (Byte.to_N b).

(** The byte with value [z mod 256]. *)
Definition z2b (z : Z) : byte :=
  match Byte.of_N (Z.to_N (z mod 256)) with
  | Some b => b
  | None => x00
  end.

(** [len(data)] *)
Definition len {A} (l : list A) : Z := Z.of_nat (length l).

(** [data[lo:hi]] for [0 <= lo] and [0 <= hi] (Python clamps both ends to
    [len(data)]; negative bounds never reach this function). *)
Definition slice {A} (l : list A) (lo hi : Z) : list A :=
  take (Z.to_nat (hi - lo)) (drop (Z.to_nat lo) l).

(** [data[lo:]] for [0 <= lo]. *)
Definition slice_from {A} (l : list A) (lo : Z) : list A :=
  drop (Z.to_nat lo) l.

(** [frame[:-2]] *)
Definition but_last2 {A} (l : list A) : list A := take (length l - 2)%nat l.

(** [frame[-2:]] *)
Definition last2 {A} (l : list A) : list A := drop (length l - 2)%nat l.

(** [frame[2:-2]] *)
Definition inner {A} (l : list A) : list A :=
  take (length l - 2 - 2)%nat (drop 2%nat l).

(** [data[i]] for [0 <= i]; [None] stands for [IndexError]. *)
Definition index (l : bytes) (i : Z) : option Z :=
  if i <? 0 then None else b2z <$> l !! Z.to_nat i.

(** [int.from_bytes(bs, "little")] *)
Fixpoint from_bytes_little (bs : bytes) : Z :=
  match bs with
  | [] => 0
  | b :: rest => b2z b + 256 * from_bytes_little rest
  end.

(** [int.from_bytes(bs, "big")] *)
Definition from_bytes_big (bs : bytes) : Z :=
  fold_left (fun acc b => 256 * acc + b2z b) bs 0.

(** [range(lo, hi)] *)
Definition range (lo hi : Z) : list Z := seqZ lo (hi - lo).

(** [range(lo, hi, step)] for [0 < step]. *)
Definition range_step (lo hi step : Z) : list Z :=
  (fun i => lo + step * i) <$> seqZ 0 ((hi - lo + step - 1) `div` step).

(** [sorted(x for x in s if p(x))] on a set of integers. *)
Definition sorted_filter (p : Z -> bool) (s : gset Z) : list Z :=
  merge_sort Z.le (List.filter p (elements s)).

(** [ord(c)] *)
Definition ord (c : Ascii.ascii) : Z := Z.of_nat (Ascii.nat_of_ascii c).

(** One digit of [bytes.hex]. *)
Definition hex_digit (n : Z) : Ascii.ascii :=
  default "0"%char (String.get (Z.to_nat n) "0123456789abcdef").

(** [data.hex(sep)] *)
Fixpoint bytes_hex (sep : string) (data : bytes) : string :=
  match data with
  | [] => ""
  | b :: rest =>
      String (hex_digit (b2z b / 16)) (String (hex_digit (b2z b mod 16))
        match rest with
        | [] => ""
        | _ => sep +:+ bytes_hex sep rest
        end)
  end.

(** [s.upper()] on ASCII text. *)
Fixpoint upper (s : string) : string :=
  match s with
  | EmptyString => ""
  | String c rest =>
      String (if (97 <=? ord c) && (ord c <=? 122)
              then Ascii.ascii_of_nat (Z.to_nat (ord c - 32)) else c)
             (upper rest)
  end.

(** What [fh.write] puts in a file opened with [encoding="ascii",
    errors="ignore"]: the characters below 128. *)
Fixpoint encode_ascii_ignore (s : string) : string :=
  match s with
  | EmptyString => ""
  | String c rest =>
      if ord c <? 128 then String c (encode_ascii_ignore rest)
      else encode_ascii_ignore rest
  end.

(** What [fh.read] gets from the bytes of a file opened with
    [encoding="ascii", errors="ignore"]: the bytes below 128. *)
Definition decode_ascii_ignore (s : string) : string := encode_ascii_ignore s.

(** The translation of a text file read with the default [newline=None]:
    ["\r\n"] and ["\r"] become ["\n"]. *)
Fixpoint universal_newlines (s : string) : string :=
  match s with
  | EmptyString => ""
  | String c rest =>
      if Ascii.eqb c "013"%char then
        match rest with
        | String c' rest' =>
            if Ascii.eqb c' "010"%char
            then String "010"%char (universal_newlines rest')
            else String "010"%char (universal_newlines rest)
        | EmptyString => String "010"%char ""
        end
      else String c (universal_newlines rest)
  end.

(** The characters below 128 at which [str.splitlines] ends a line: line
    feed, vertical tab, form feed, carriage return and the file, group and
    record separators. *)
Definition is_linebreak (c : Ascii.ascii) : bool :=
  ((10 <=? ord c) && (ord c <=? 13)) || ((28 <=? ord c) && (ord c <=? 30)).

(** [s.splitlines()] on ASCII text, after the characters of [line] were
    read since the last line break; ["\r\n"] is one line break. *)
Fixpoint splitlines_from (line s : string) : list string :=
  match s with
  | EmptyString =>
      match line with
      | EmptyString => []
      | _ => [line]
      end
  | String c rest =>
      if Ascii.eqb c "013"%char then
        match rest with
        | String c' rest' =>
            if Ascii.eqb c' "010"%char then line :: splitlines_from "" rest'
            else line :: splitlines_from "" rest
        | EmptyString => [line]
        end
      else if is_linebreak c then line :: splitlines_from "" rest
      else splitlines_from (line +:+ String c "") rest
  end.

Definition splitlines (s : string) : list string := splitlines_from "" s.

(** [line.split(",", 1)] when ["," in line]. *)
Fixpoint split_comma (line : string) : option (string * string) :=
  match line with
  | EmptyString => None
  | String c rest =>
      if Ascii.eqb c ","%char then Some ("", rest)
      else '(head, tail) ← split_comma rest; Some (String c head, tail)
  end.

(** [c.isspace()] for an ASCII character. *)
Definition isspace (c : Ascii.ascii) : bool :=
  ((9 <=? ord c) && (ord c <=? 13)) || ((28 <=? ord c) && (ord c <=? 32)).

(** ["".join(s.split())] *)
Fixpoint remove_spaces (s : string) : string :=
  match s with
  | EmptyString => ""
  | String c rest =>
      if isspace c then remove_spaces rest else String c (remove_spaces rest)
  end.

(** The value of a hexadecimal digit of either case. *)
Definition hex_value (c : Ascii.ascii) : option Z :=
  let n := ord c in
  if (48 <=? n) && (n <=? 57) then Some (n - 48)
  else if (65 <=? n) && (n <=? 70) then Some (n - 55)
  else if (97 <=? n) && (n <=? 102) then Some (n - 87)
  else None.

(** [bytes.fromhex(s)] on a string without white space; [None] stands for
    [ValueError]. *)
Fixpoint fromhex (s : string) : option bytes :=
  match s with
  | EmptyString => Some []
  | String hi (String lo rest) =>
      high ← hex_value hi;
      low ← hex_value lo;
      data ← fromhex rest;
      Some (z2b (16 * high + low) :: data)
  | String _ EmptyString => None
  end.

End py.

Import py.

(** ** CRC engine (shared verbatim by parser.py and udp_web_server.py) *)

(** One pass of the inner [for _ in range(8)] loop body. *)
Definition crc_shift (crc : Z) : Z :=
  if Z.land crc 1 =? 0 then Z.shiftr crc 1
  else Z.lxor (Z.shiftr crc 1) 0xA001.

(** One pass of the outer [for byte in data] loop body. *)
Definition crc_byte (crc : Z) (b : byte) : Z :=
  Nat.iter 8 crc_shift (Z.lxor crc (b2z b)).

Definition compute_crc (data : bytes) : Z :=
  Z.land (fold_left crc_byte data 0xFFFF) 0xFFFF.

(** ** The scan loop of [split_modbus_frames]

    The two copies of [split_modbus_frames] are the same text; they differ
    only in the [_candidate_frame_lengths] they call. *)

Section SplitLoop.

Variable candidate_frame_lengths : option Z -> Z -> list Z.

(** The inner [for length in candidates] loop: the first candidate whose
    slice carries its own CRC, with the slice. *)
Fixpoint first_valid (data : bytes) (idx n : Z) (candidates : list Z)
  : option (bytes * Z) :=
  match candidates with
  | [] => None
  | length :: rest =>
      if n <? idx + length then first_valid data idx n rest
      else
        let frame := slice data idx (idx + length) in
        if len frame <? 4 then first_valid data idx n rest
        else
          let calc_crc := compute_crc (but_last2 frame) in
          let frame_crc := from_bytes_little (last2 frame) in
          if calc_crc =? frame_crc then Some (frame, length)
          else first_valid data idx n rest
  end.

(** The outer [while idx + 4 <= n] loop; [None] only when [fuel] runs out. *)
Fixpoint split_loop (fuel : nat) (data : bytes) (n idx : Z) (frames : list bytes)
  : option (list bytes * bytes) :=
  if idx + 4 <=? n then
    match fuel with
    | O => None
    | S fuel' =>
        let func := if idx + 1 <? n then index data (idx + 1) else None in
        let max_len := Z.min 256 (n - idx) in
        let candidates := candidate_frame_lengths func max_len in
        match first_valid data idx n candidates with
        | Some (frame, length) =>
            split_loop fuel' data n (idx + length) (frames ++ [frame])
        | None => split_loop fuel' data n (idx + 1) frames
        end
    end
  else Some (frames, slice_from data idx).

Definition split_frames (data : bytes) : option (list bytes * bytes) :=
  split_loop (length data) data (len data) 0 [].

End SplitLoop.

(** ** parser.py *)

Module parser.

Definition _candidate_frame_lengths (function_code : option Z) (max_len : Z)
  : list Z :=
  match function_code with
  | None => range 4 (max_len + 1)
  | Some function_code =>
      let fc := Z.land function_code 0x7F in
      let add_if (base : Z) (lengths : gset Z) (byte_count : Z) : gset Z :=
        let candidate := base + byte_count in
        if candidate <=? max_len then {[candidate]} ∪ lengths else lengths in
      let lengths : gset Z :=
        if (fc =? 1) || (fc =? 2) then
          foldl (add_if 5) {[8]} (range 1 (Z.min 252 (max_len - 4)))
        else if (fc =? 3) || (fc =? 4) then
          let max_bc := Z.min (2 * 125) (max_len - 5) in
          foldl (add_if 5) {[8]} (range_step 2 (max_bc + 1) 2)
        else if (fc =? 5) || (fc =? 6) then {[8]}
        else if fc =? 15 then
          let max_bc := Z.min 246 (max_len - 9) in
          foldl (add_if 9) {[8]} (range 1 (max_bc + 1))
        else if fc =? 16 then
          let max_bc := Z.min (2 * 123) (max_len - 9) in
          foldl (add_if 9) {[8]} (range_step 2 (max_bc + 1) 2)
        else if negb (Z.land function_code 0x80 =? 0) then {[5]}
        else ∅ in
      let lengths :=
        if decide (lengths = ∅)
        then lengths ∪ list_to_set (range 4 (max_len + 1))
        else lengths in
      sorted_filter (fun length => (4 <=? length) && (length <=? max_len)) lengths
  end.

Definition split_modbus_frames : bytes -> option (list bytes * bytes) :=
  split_frames _candidate_frame_lengths.

(** The loop shared by [parse_fc03_response] and [parse_fc16_request]:
    [for idx in range(0, len(data_bytes), 2)], keeping complete chunks. *)
Definition register_values (data_bytes : bytes) : list Z :=
  foldl (fun values idx =>
           let chunk := slice data_bytes idx (idx + 2) in
           if len chunk =? 2 then values ++ [from_bytes_big chunk] else values)
        [] (range_step 0 (len data_bytes) 2).

(** The guards on [len(frame)] make [frame[0]] and [frame[1]] defined. *)
Definition parse_fc03_request (frame : bytes) : option (Z * Z * Z) :=
  if len frame <? 8 then None
  else
    unit ← index frame 0;
    func ← index frame 1;
    if negb (Z.land func 0x7F =? 3) || negb (Z.land func 0x80 =? 0) then None
    else
      let payload := inner frame in
      if negb (len payload =? 4) then None
      else
        let start_addr := from_bytes_big (slice payload 0 2) in
        let quantity := from_bytes_big (slice payload 2 4) in
        Some (unit, start_addr, quantity).

Definition parse_fc03_response (frame : bytes) : option (Z * list Z) :=
  if len frame <? 5 then None
  else
    unit ← index frame 0;
    func ← index frame 1;
    if negb (Z.land func 0x7F =? 3) || negb (Z.land func 0x80 =? 0) then None
    else
      let payload := inner frame in
      match index payload 0 with
      | None => None
      | Some byte_count =>
          let data_bytes := slice payload 1 (1 + byte_count) in
          let values := register_values data_bytes in
          match values with
          | [] => None
          | _ => Some (unit, values)
          end
      end.

Definition parse_fc06 (frame : bytes) : option (Z * Z * Z) :=
  if len frame <? 8 then None
  else
    unit ← index frame 0;
    func ← index frame 1;
    if negb (Z.land func 0x7F =? 6) then None
    else
      let payload := inner frame in
      if len payload <? 4 then None
      else
        let register := from_bytes_big (slice payload 0 2) in
        let value := from_bytes_big (slice payload 2 4) in
        Some (unit, register, value).

Definition parse_fc16_request (frame : bytes) : option (Z * Z * list Z) :=
  if len frame <? 9 then None
  else
    unit ← index frame 0;
    func ← index frame 1;
    if negb (Z.land func 0x7F =? 16) || negb (Z.land func 0x80 =? 0) then None
    else
      let payload := inner frame in
      if len payload <? 5 then None
      else
        let start_addr := from_bytes_big (slice payload 0 2) in
        let quantity := from_bytes_big (slice payload 2 4) in
        byte_count ← index payload 4;
        let data_bytes := slice payload 5 (5 + byte_count) in
        let values := register_values data_bytes in
        match values with
        | [] => None
        | _ =>
            let values :=
              if (0 <? quantity) && (quantity <? len values)
              then slice values 0 quantity else values in
            Some (unit, start_addr, values)
        end.

(** [iter_frames]: the frames yielded by the generator, in order. *)
Definition iter_frames (frames : list bytes) : list bytes :=
  List.filter
    (fun frame =>
       (4 <=? len frame)
       && (compute_crc (but_last2 frame) =? from_bytes_little (last2 frame)))
    frames.

End parser.

(** ** udp_web_server.py: reconstructor and PDU decoder *)

Module udp_web_server.

(** Same text as the parser's, except that the function byte is compared
    unmasked. *)
Definition _candidate_frame_lengths (func : option Z) (max_len : Z) : list Z :=
  match func with
  | None => range 4 (max_len + 1)
  | Some func =>
      let add_if (base : Z) (lengths : gset Z) (byte_count : Z) : gset Z :=
        let candidate := base + byte_count in
        if candidate <=? max_len then {[candidate]} ∪ lengths else lengths in
      let lengths : gset Z :=
        if (func =? 1) || (func =? 2) then
          foldl (add_if 5) {[8]} (range 1 (Z.min 252 (max_len - 4)))
        else if (func =? 3) || (func =? 4) then
          let max_bc := Z.min (2 * 125) (max_len - 5) in
          foldl (add_if 5) {[8]} (range_step 2 (max_bc + 1) 2)
        else if (func =? 5) || (func =? 6) then {[8]}
        else if func =? 15 then
          let max_bc := Z.min 246 (max_len - 9) in
          foldl (add_if 9) {[8]} (range 1 (max_bc + 1))
        else if func =? 16 then
          let max_bc := Z.min (2 * 123) (max_len - 9) in
          foldl (add_if 9) {[8]} (range_step 2 (max_bc + 1) 2)
        else if negb (Z.land func 0x80 =? 0) then {[5]}
        else ∅ in
      let lengths :=
        if decide (lengths = ∅)
        then lengths ∪ list_to_set (range 4 (max_len + 1))
        else lengths in
      sorted_filter (fun length => (4 <=? length) && (length <=? max_len)) lengths
  end.

Definition split_modbus_frames : bytes -> option (list bytes * bytes) :=
  split_frames _candidate_frame_lengths.

(** A decoded field: [make_field] keeps the value and its byte size,
    [make_raw_field] the bytes. *)
Inductive Field :=
| make_field (label : string) (value : Z) (size : Z)
| make_raw_field (label : string) (data : bytes).

(** The dict returned by [decode_modbus_payload], without its display
    strings ([summary], [notes], [function_label]). *)
Record Decoded := {
  fields : list Field;
  frame_type : string;
  is_exception : bool;
}.

Definition raw_if_any (label : string) (data : bytes) : list Field :=
  match data with
  | [] => []
  | _ => [make_raw_field label data]
  end.

(** The chunk loop of the FC3/4 response ([first] = 1) and of the FC16
    request ([first] = 0). *)
Definition register_fields (first : Z) (data : bytes) : list Field :=
  foldl (fun fields idx =>
           let chunk := slice data idx (idx + 2) in
           if len chunk =? 2 then
             fields ++ [make_field ("Registro " +:+ pretty (idx `div` 2 + first))
                                   (from_bytes_big chunk) 2]
           else
             fields ++ raw_if_any ("Dato incompleto " +:+ pretty (idx `div` 2 + first))
                                  chunk)
        [] (range_step 0 (len data) 2).

Definition start_quantity (payload : bytes) : list Field :=
  [make_field "Start Address" (from_bytes_big (slice payload 0 2)) 2;
   make_field "Quantity" (from_bytes_big (slice payload 2 4)) 2].

Definition decode_modbus_payload (function_code : option Z) (payload : bytes)
  : Decoded :=
  match function_code with
  | None =>
      {| fields := raw_if_any "Payload" payload;
         frame_type := "unknown"; is_exception := false |}
  | Some function_code =>
      let fc := Z.land function_code 0x7F in
      let length := len payload in
      if Z.land function_code 0x80 =? 0x80 then
        {| fields :=
             match payload with
             | [] => []
             | code :: _ =>
                 make_field "Exception Code" (b2z code) 1
                 :: (if 1 <? len payload
                     then [make_raw_field "Dati extra" (slice_from payload 1)]
                     else [])
             end;
           frame_type := "exception"; is_exception := true |}
      else if (fc =? 1) || (fc =? 2) || (fc =? 3) || (fc =? 4) then
        if negb (length =? 4) && (1 <=? length) then
          let byte_count := default 0 (index payload 0) in
          let data_bytes := slice_from payload 1 in
          let byte_count' :=
            if len data_bytes <? byte_count then len data_bytes else byte_count in
          let data_portion := slice data_bytes 0 byte_count' in
          let extra := slice_from data_bytes byte_count' in
          {| fields :=
               make_field "Byte Count" byte_count 1
               :: (if (fc =? 3) || (fc =? 4) then register_fields 1 data_portion
                   else raw_if_any "Coils/Data" data_portion
                        ++ raw_if_any "Dati extra" extra);
             frame_type := "response"; is_exception := false |}
        else if 4 <=? length then
          {| fields := start_quantity payload
                       ++ raw_if_any "Dati aggiuntivi" (slice_from payload 4);
             frame_type := "request"; is_exception := false |}
        else
          {| fields := raw_if_any "Payload" payload;
             frame_type := "unknown"; is_exception := false |}
      else if (fc =? 5) || (fc =? 6) then
        if 4 <=? length then
          {| fields := [make_field "Address" (from_bytes_big (slice payload 0 2)) 2;
                        make_field "Value" (from_bytes_big (slice payload 2 4)) 2];
             frame_type := "request/response"; is_exception := false |}
        else
          {| fields := raw_if_any "Payload" payload;
             frame_type := "unknown"; is_exception := false |}
      else if fc =? 15 then
        if length =? 4 then
          {| fields := start_quantity payload;
             frame_type := "response"; is_exception := false |}
        else if 5 <=? length then
          let byte_count := default 0 (index payload 4) in
          let values := slice payload 5 (5 + byte_count) in
          let extra := slice_from payload (5 + byte_count) in
          {| fields :=
               start_quantity payload
               ++ [make_field "Byte Count" byte_count 1]
               ++ raw_if_any "Values" values
               ++ raw_if_any "Dati extra" extra;
             frame_type := "request"; is_exception := false |}
        else
          {| fields := raw_if_any "Payload" payload;
             frame_type := "unknown"; is_exception := false |}
      else if fc =? 16 then
        if length =? 4 then
          {| fields := start_quantity payload;
             frame_type := "response"; is_exception := false |}
        else if 5 <=? length then
          let byte_count := default 0 (index payload 4) in
          let values := slice payload 5 (5 + byte_count) in
          let extra := slice_from payload (5 + byte_count) in
          {| fields :=
               start_quantity payload
               ++ [make_field "Byte Count" byte_count 1]
               ++ register_fields 0 values
               ++ raw_if_any "Dati extra" extra;
             frame_type := "request"; is_exception := false |}
        else
          {| fields := raw_if_any "Payload" payload;
             frame_type := "unknown"; is_exception := false |}
      else
        {| fields := raw_if_any "Payload" payload;
           frame_type := "unknown"; is_exception := false |}
  end.

(** How [process_incoming_payload] cuts a reconstructed frame (of at
    least 4 bytes) before decoding it: [function_byte = frame[1]],
    [payload_bytes = frame[2:-2]]. *)
Definition decode_frame (frame : bytes) : Decoded :=
  decode_modbus_payload (index frame 1) (inner frame).

(** The inner [for bit_idx in range(8)] loop of [extract_coils]; the flag
    tells whether the function has returned. *)
Fixpoint extract_coils_bits (byte : Z) (bit_idxs : list Z) (quantity : option Z)
    (coils : list Z) : list Z * bool :=
  match bit_idxs with
  | [] => (coils, false)
  | bit_idx :: bit_idxs' =>
      let coils := coils ++ [Z.land (Z.shiftr byte bit_idx) 0x01] in
      if match quantity with
         | Some quantity => quantity <=? len coils
         | None => false
         end
      then (coils, true)
      else extract_coils_bits byte bit_idxs' quantity coils
  end.

(** The outer [for byte in data] loop. *)
Fixpoint extract_coils_bytes (data : bytes) (quantity : option Z) (coils : list Z)
  : list Z :=
  match data with
  | [] => coils
  | byte :: data' =>
      let '(coils, returned) :=
        extract_coils_bits (b2z byte) (range 0 8) quantity coils in
      if returned then coils else extract_coils_bytes data' quantity coils
  end.

Definition extract_coils (data : bytes) (quantity : option Z) : list Z :=
  extract_coils_bytes data quantity [].

(** A row of [extract_fc06_writes], without the two hexadecimal strings
    derived from [register_dec] and [value_dec]. *)
Record WriteRow := {
  timestamp : string;
  register_dec : Z;
  value_dec : Z;
  direction : string;
}.

(** The body of [for frame in frame_list] in [extract_fc06_writes], on the
    pair of [pending] and [rows]. After the length test [frame[1]] exists. *)
Definition fc06_write_of_frame (timestamp : string)
    (state : option (Z * Z) * list WriteRow) (frame : bytes)
  : option (Z * Z) * list WriteRow :=
  let '(pending, rows) := state in
  if len frame <? 3 then state
  else
    match index frame 1 with
    | None => state
    | Some func =>
        let fc := Z.land func 0x7F in
        let is_exception := Z.land func 0x80 =? 0x80 in
        if negb (fc =? 6) || is_exception then state
        else
          let payload := if 4 <=? len frame then inner frame else slice_from frame 2 in
          if len payload <? 4 then state
          else
            let register := from_bytes_big (slice payload 0 2) in
            let value := from_bytes_big (slice payload 2 4) in
            let '(direction, pending) :=
              match pending with
              | Some seen =>
                  if decide (seen = (register, value))
                  then ("response", None)
                  else ("request", Some (register, value))
              | None => ("request", Some (register, value))
              end in
            (pending,
             rows ++ [{| timestamp := timestamp; register_dec := register;
                         value_dec := value; direction := direction |}])
    end.

(** The loop [for timestamp, data in entries] from [rows] on. *)
Fixpoint extract_fc06_writes_from (entries : list (string * bytes))
    (rows : list WriteRow) : option (list WriteRow) :=
  match entries with
  | [] => Some rows
  | (timestamp, data) :: entries' =>
      match data with
      | [] => extract_fc06_writes_from entries' rows
      | _ =>
          '(frames, leftover) ← split_modbus_frames data;
          let frame_list := match frames with [] => [data] | _ => frames end in
          let '(pending, rows) :=
            foldl (fc06_write_of_frame timestamp) (None, rows) frame_list in
          extract_fc06_writes_from entries' rows
      end
  end.

Definition extract_fc06_writes (entries : list (string * bytes))
  : option (list WriteRow) :=
  extract_fc06_writes_from entries [].

Definition format_bytes (data : bytes) : string :=
  match data with
  | [] => ""
  | _ => upper (bytes_hex " " data)
  end.

(** The file at [PACKET_LOG_PATH], the path being configured: its bytes,
    or [None] while the file does not exist. A [str] holds the characters
    up to 255; those from 128 on are lost in the encoding, as every other
    character that is not ASCII would be. The file system is taken not to
    fail ([OSError]) and to write ["\n"] as it is. *)
Definition PacketLog := option string.

(** [append_packet_log], on the log file: mode ["a"] makes the file when it
    is missing. *)
Definition append_packet_log (timestamp : string) (data : bytes) (log : PacketLog)
  : PacketLog :=
  let hex_payload := format_bytes data in
  let line := timestamp +:+ "," +:+ hex_payload +:+ String "010"%char "" in
  Some (default "" log +:+ encode_ascii_ignore line).

(** The loop of [read_packet_log] over the lines read. *)
Definition read_packet_line (entries : list (string * bytes)) (line : string)
  : list (string * bytes) :=
  match line with
  | EmptyString => entries
  | _ =>
      match split_comma line with
      | None => entries
      | Some (timestamp, hex_payload) =>
          let payload_clean := remove_spaces hex_payload in
          match payload_clean with
          | EmptyString => entries ++ [(timestamp, [])]
          | _ =>
              match fromhex payload_clean with
              | None => entries
              | Some data => entries ++ [(timestamp, data)]
              end
          end
      end
  end.

Definition read_packet_log (max_lines : option Z) (log : PacketLog)
  : list (string * bytes) :=
  match log with
  | None => []
  | Some content =>
      if match max_lines with
         | Some max_lines => max_lines <=? 0
         | None => false
         end
      then []
      else
        let raw_lines :=
          splitlines (universal_newlines (decode_ascii_ignore content)) in
        let raw_lines :=
          match max_lines with
          | Some max_lines => drop (length raw_lines - Z.to_nat max_lines) raw_lines
          | None => raw_lines
          end in
        foldl read_packet_line [] raw_lines
  end.

(** The two forms of [address_hex] in a row of [extract_fc03_reads]:
    [f"0x{addr:04X}"] and [f"Reg {offset}"]. *)
Inductive AddressLabel :=
| address_0x (addr : Z)
| address_Reg (offset : Z).

(** A row of [extract_fc03_reads], without [value_hex]; the keys
    [timestamp] and [value_dec] carry a prefix to keep them apart from
    those of [WriteRow]. *)
Record ReadRow := {
  read_timestamp : string;
  address_dec : Z;
  address_hex : AddressLabel;
  read_value_dec : Z;
}.

(** The body of [for frame in frame_list] in [extract_fc03_reads], on the
    pair of [pending_request] and [rows]. After the length test [frame[1]]
    exists; the loop over [data_bytes] is the one of
    [parser.parse_fc03_response]. *)
Definition fc03_reads_of_frame (timestamp : string)
    (state : option (Z * Z) * list ReadRow) (frame : bytes)
  : option (Z * Z) * list ReadRow :=
  let '(pending_request, rows) := state in
  if len frame <? 3 then state
  else
    match index frame 1 with
    | None => state
    | Some func =>
        let fc := Z.land func 0x7F in
        let is_exception := Z.land func 0x80 =? 0x80 in
        if negb (fc =? 3) || is_exception then state
        else
          let payload := if 4 <=? len frame then inner frame else slice_from frame 2 in
          if len payload =? 4 then
            let start_addr := from_bytes_big (slice payload 0 2) in
            let quantity := from_bytes_big (slice payload 2 4) in
            (Some (start_addr, quantity), rows)
          else
            match index payload 0 with
            | None => state
            | Some byte_count =>
                let data_bytes := slice payload 1 (1 + byte_count) in
                let register_values := parser.register_values data_bytes in
                match register_values with
                | [] => state
                | _ =>
                    let new_rows :=
                      match pending_request with
                      | Some (start_addr, _) =>
                          (fun ov : Z * Z =>
                             let addr := start_addr + ov.1 in
                             {| read_timestamp := timestamp; address_dec := addr;
                                address_hex := address_0x addr;
                                read_value_dec := ov.2 |})
                            <$> zip (seqZ 0 (len register_values)) register_values
                      | None =>
                          (fun ov : Z * Z =>
                             {| read_timestamp := timestamp; address_dec := ov.1;
                                address_hex := address_Reg ov.1;
                                read_value_dec := ov.2 |})
                            <$> zip (seqZ 0 (len register_values)) register_values
                      end in
                    (None, rows ++ new_rows)
                end
            end
    end.

(** The loop [for timestamp, data in entries] from [rows] on. *)
Fixpoint extract_fc03_reads_from (entries : list (string * bytes))
    (rows : list ReadRow) : option (list ReadRow) :=
  match entries with
  | [] => Some rows
  | (timestamp, data) :: entries' =>
      match data with
      | [] => extract_fc03_reads_from entries' rows
      | _ =>
          '(frames, leftover) ← split_modbus_frames data;
          let frame_list := match frames with [] => [data] | _ => frames end in
          let '(pending_request, rows) :=
            foldl (fc03_reads_of_frame timestamp) (None, rows) frame_list in
          extract_fc03_reads_from entries' rows
      end
  end.

Definition extract_fc03_reads (entries : list (string * bytes))
  : option (list ReadRow) :=
  extract_fc03_reads_from entries [].

(** [raw_frames] of [process_incoming_payload]: the frames reconstructed
    from the payload, or the whole payload when there is none. *)
Definition raw_frames (data : bytes) : option (list bytes) :=
  '(frames, leftover) ← split_modbus_frames data;
  Some (match frames with [] => [data] | _ => frames end).

(** The [while buffer] loop of [tcp_client_listener], entered after
    [buffer.extend(chunk)]. [handed] collects the payloads given to
    [process_incoming_payload], oldest first; [None] only when [fuel] runs
    out. *)
Fixpoint drain_buffer (fuel : nat) (buffer_size : Z) (buffer : bytes)
    (handed : list bytes) : option (bytes * list bytes) :=
  match buffer with
  | [] => Some ([], handed)
  | _ =>
      match fuel with
      | O => None
      | S fuel' =>
          '(frames, leftover) ← split_modbus_frames buffer;
          let processed_length := len buffer - len leftover in
          if 0 <? processed_length then
            let payload := slice buffer 0 processed_length in
            drain_buffer fuel' buffer_size leftover (handed ++ [payload])
          else if buffer_size * 4 <? len buffer then
            Some ([], handed ++ [buffer])
          else Some (buffer, handed)
      end
  end.

(** What [sock.recv(buffer_size)] gives: bytes, the empty string when the
    peer has closed, or an [OSError]. *)
Inductive Recv :=
| received (chunk : bytes)
| recv_error.

(** The two nested loops of [tcp_client_listener] over the successive
    results of [sock.recv]: an error or an empty chunk ends the connection,
    and the next one starts with a new, empty buffer. Failed connection
    attempts only wait and retry. *)
Fixpoint tcp_client_listener (fuel : nat) (buffer_size : Z) (recvs : list Recv)
    (buffer : bytes) (handed : list bytes) : option (bytes * list bytes) :=
  match recvs with
  | [] => Some (buffer, handed)
  | recv_error :: recvs' =>
      tcp_client_listener fuel buffer_size recvs' [] handed
  | received [] :: recvs' =>
      let handed := match buffer with [] => handed | _ => handed ++ [buffer] end in
      tcp_client_listener fuel buffer_size recvs' [] handed
  | received chunk :: recvs' =>
      '(buffer, handed) ← drain_buffer fuel buffer_size (buffer ++ chunk) handed;
      tcp_client_listener fuel buffer_size recvs' buffer handed
  end.

End udp_web_server.

(** ** hub.py *)

Module hub.

Import parser.

Record RegisterValue := {
  unit_id : Z;
  register : Z;
  value : Z;
  updated_at : Q;
}.

(** An entry of a [_pending_reads] deque: (start_addr, quantity, arrival). *)
Definition PendingRead : Type := Z * Z * Q.

(** The arguments of one [async_dispatcher_send(hass,
    SIGNAL_REGISTER_UPDATE, unit_id, register, value)]. *)
Definition RegisterUpdate : Type := Z * Z * Z.

(** A Python dict keyed by (unit_id, register), in insertion order. *)
Definition ValueDict : Type := list ((Z * Z) * RegisterValue).

(** The hub object together with the two things it talks to: the event
    loop's monotonic clock ([loop_time] gives the successive readings,
    [clock_reads] counts the readings taken so far) and the dispatcher
    ([dispatched], oldest signal first). *)
Record ModbusSnifferHub := {
  _buffer : bytes;
  _pending_reads : gmap Z (list PendingRead);
  _values : ValueDict;
  dispatched : list RegisterUpdate;
  loop_time : nat -> Q;
  clock_reads : nat;
}.

(** [__init__] *)
Definition new_hub (clock : nat -> Q) : ModbusSnifferHub :=
  {| _buffer := []; _pending_reads := ∅; _values := []; dispatched := [];
     loop_time := clock; clock_reads := 0 |}.

(** [asyncio.get_running_loop().time()] *)
Definition time (self : ModbusSnifferHub) : Q * ModbusSnifferHub :=
  (loop_time self (clock_reads self),
   {| _buffer := _buffer self; _pending_reads := _pending_reads self;
      _values := _values self; dispatched := dispatched self;
      loop_time := loop_time self; clock_reads := S (clock_reads self) |}).

(** [d[key] = sample]: an existing key keeps its place, a new one goes last. *)
Fixpoint dict_set (key : Z * Z) (sample : RegisterValue) (d : ValueDict)
  : ValueDict :=
  match d with
  | [] => [(key, sample)]
  | (k, old) :: rest =>
      if decide (k = key) then (k, sample) :: rest
      else (k, old) :: dict_set key sample rest
  end.

(** [d.get(key)] *)
Fixpoint dict_get (key : Z * Z) (d : ValueDict) : option RegisterValue :=
  match d with
  | [] => None
  | (k, sample) :: rest =>
      if decide (k = key) then Some sample else dict_get key rest
  end.

(** [self._pending_reads[unit]] of a [defaultdict(deque)]. *)
Definition pending (self : ModbusSnifferHub) (unit : Z) : list PendingRead :=
  default [] (_pending_reads self !! unit).

Definition set_pending (self : ModbusSnifferHub) (unit : Z)
    (queue : list PendingRead) : ModbusSnifferHub :=
  {| _buffer := _buffer self;
     _pending_reads := <[unit := queue]> (_pending_reads self);
     _values := _values self; dispatched := dispatched self;
     loop_time := loop_time self; clock_reads := clock_reads self |}.

Definition set_buffer (self : ModbusSnifferHub) (leftover : bytes)
  : ModbusSnifferHub :=
  {| _buffer := leftover; _pending_reads := _pending_reads self;
     _values := _values self; dispatched := dispatched self;
     loop_time := loop_time self; clock_reads := clock_reads self |}.

(** [now - queue[0][2] > 5.0], on the exact values of the two floats: the
    rounding of their difference, which can matter for an age within
    2^-51 s of 5 s, is not modelled. *)
Definition stale (now : Q) (entry : PendingRead) : bool :=
  negb (Qle_bool (now - entry.2) 5).

(** [while queue and now - queue[0][2] > 5.0: queue.popleft()] *)
Fixpoint purge (now : Q) (queue : list PendingRead) : list PendingRead :=
  match queue with
  | [] => []
  | entry :: rest => if stale now entry then purge now rest else queue
  end.

Definition _purge_old_requests (unit : Z) (now : Q) (self : ModbusSnifferHub)
  : ModbusSnifferHub :=
  set_pending self unit (purge now (pending self unit)).

Definition _pop_matching_request (unit : Z) (values_len : Z) (now : Q)
    (self : ModbusSnifferHub) : option Z * ModbusSnifferHub :=
  let self := _purge_old_requests unit now self in
  match pending self unit with
  | [] => (None, self)
  | (start_addr, quantity, _) :: rest =>
      let self := set_pending self unit rest in
      if negb (quantity =? 0) && (quantity <? values_len)
      then (Some start_addr, self)
      else (Some start_addr, self)
  end.

Definition _store_register (unit_id register value : Z) (self : ModbusSnifferHub)
  : ModbusSnifferHub :=
  let key := (unit_id, register) in
  let '(updated_at, self) := time self in
  {| _buffer := _buffer self; _pending_reads := _pending_reads self;
     _values :=
       dict_set key
         {| unit_id := unit_id; register := register; value := value;
            updated_at := updated_at |} (_values self);
     dispatched := dispatched self ++ [(unit_id, register, value)];
     loop_time := loop_time self; clock_reads := clock_reads self |}.

Definition get_register (unit_id : option Z) (register : Z)
    (self : ModbusSnifferHub) : option Z :=
  match unit_id with
  | Some unit_id => value <$> dict_get (unit_id, register) (_values self)
  | None =>
      value <$> (snd <$> head (List.filter (fun kv => kv.1.2 =? register)
                                           (reverse (_values self))))
  end.

(** [enumerate(values)] *)
Definition enumerate {A} (values : list A) : list (Z * A) :=
  zip (seqZ 0 (len values)) values.

(** [for offset, value in enumerate(values):
       self._store_register(unit, start_addr + offset, value)] *)
Definition store_registers (unit start_addr : Z) (values : list Z)
    (self : ModbusSnifferHub) : ModbusSnifferHub :=
  foldl (fun self ov => _store_register unit (start_addr + ov.1) ov.2 self)
        self (enumerate values).

(** [None] stands for the [IndexError] of [frame[0]] or [frame[1]]. *)
Definition _handle_frame (frame : bytes) (self : ModbusSnifferHub)
  : option ModbusSnifferHub :=
  unit ← index frame 0;
  func ← index frame 1;
  let fc := Z.land func 0x7F in
  let '(now_monotonic, self) := time self in
  Some
    (if fc =? 3 then
       match parse_fc03_request frame with
       | Some (_, start_addr, quantity) =>
           let self :=
             set_pending self unit
               (pending self unit ++ [(start_addr, quantity, now_monotonic)]) in
           _purge_old_requests unit now_monotonic self
       | None =>
           match parse_fc03_response frame with
           | Some (_, values) =>
               let '(start_addr, self) :=
                 _pop_matching_request unit (len values) now_monotonic self in
               let start_addr := default 0 start_addr in
               store_registers unit start_addr values self
           | None => self
           end
       end
     else if fc =? 6 then
       match parse_fc06 frame with
       | Some (_, register, value) => _store_register unit register value self
       | None => self
       end
     else if fc =? 16 then
       match parse_fc16_request frame with
       | Some (_, start_addr, values) =>
           store_registers unit start_addr values self
       | None => self
       end
     else self).

(** [for frame in frames: self._handle_frame(frame)] *)
Fixpoint handle_frames (frames : list bytes) (self : ModbusSnifferHub)
  : option ModbusSnifferHub :=
  match frames with
  | [] => Some self
  | frame :: rest => self ← _handle_frame frame self; handle_frames rest self
  end.

(** The bytes handed to [split_modbus_frames]: [self._buffer + data]. *)
Definition payload_of (self : ModbusSnifferHub) (data : bytes) : bytes :=
  _buffer self ++ data.

Definition _process_bytes (data : bytes) (self : ModbusSnifferHub)
  : option ModbusSnifferHub :=
  match data with
  | [] => Some self
  | _ =>
      let payload := payload_of self data in
      '(frames, leftover) ← split_modbus_frames payload;
      let self := set_buffer self leftover in
      handle_frames frames self
  end.


(** The read loop of [_tcp_run] on one connection: each non-empty read goes
    through [_process_bytes]; an empty read ends the connection and the
    [finally] clause clears the buffer. [reads] are the results of the
    successive [reader.read(1024)]. *)
Fixpoint tcp_reads (reads : list bytes) (self : ModbusSnifferHub)
  : option ModbusSnifferHub :=
  match reads with
  | [] => Some self
  | [] :: _ => Some (set_buffer self [])
  | data :: rest => self ← _process_bytes data self; tcp_reads rest self
  end.

(** [async_stop], as far as the hub's own data goes: the transport, the
    reader task and the writer are outside this model; the buffer and the
    pending requests are reset, the register values stay. *)
Definition async_stop (self : ModbusSnifferHub) : ModbusSnifferHub :=
  {| _buffer := []; _pending_reads := ∅;
     _values := _values self; dispatched := dispatched self;
     loop_time := loop_time self; clock_reads := clock_reads self |}.

(** The [finally] clause of [_tcp_run], run whenever a TCP connection
    ends: [self._buffer = b""]. *)
Definition _tcp_run_finally (self : ModbusSnifferHub) : ModbusSnifferHub :=
  set_buffer self [].

End hub.

(** ** sensor.py: the entity fed by the hub *)

Module sensor.

Import hub.

(** The attributes of [ModbusSnifferSensor] that a register update reads
    or writes. [state_writes] counts the calls of [async_write_ha_state];
    [_native_value] is computed from [_raw_value] alone, by the state map
    or by float arithmetic, and is not kept here. *)
Record ModbusSnifferSensor := {
  _register : Z;
  _unit_id : option Z;
  _raw_value : option Z;
  state_writes : nat;
}.

(** [__init__] with [config[CONF_REGISTER]] and [config.get(CONF_UNIT_ID)]. *)
Definition new_sensor (unit_id : option Z) (register : Z) : ModbusSnifferSensor :=
  {| _register := register; _unit_id := unit_id; _raw_value := None;
     state_writes := 0 |}.

Definition _apply_new_value (raw_value : Z) (self : ModbusSnifferSensor)
  : ModbusSnifferSensor :=
  {| _register := _register self; _unit_id := _unit_id self;
     _raw_value := Some raw_value; state_writes := S (state_writes self) |}.

Definition _handle_register_update (unit_id register value : Z)
    (self : ModbusSnifferSensor) : ModbusSnifferSensor :=
  if negb (register =? _register self) then self
  else
    match _unit_id self with
    | Some own =>
        if negb (unit_id =? own) then self else _apply_new_value value self
    | None => _apply_new_value value self
    end.

(** The sensor subscribes to the dispatcher, then reads the hub once. *)
Definition async_added_to_hass (hub : ModbusSnifferHub) (self : ModbusSnifferSensor)
  : ModbusSnifferSensor :=
  match get_register (_unit_id self) (_register self) hub with
  | Some existing => _apply_new_value existing self
  | None => self
  end.

(** [hub_key = (mode, host, int(port))] *)
Definition HubKey : Type := string * string * Z.

(** The calls made on hubs, oldest first. *)
Inductive HubCall :=
| async_start_call (hub_key : HubKey)
| async_stop_call (hub_key : HubKey).

(** [component_data]: the keys of [hubs] (each key holds the hub made for
    it), the [listeners] counters, and the hub calls made so far. *)
Record ComponentData := {
  hubs : gset HubKey;
  listeners : gmap HubKey Z;
  hub_calls : list HubCall;
}.

(** [_async_setup_sensors] for [valid] sensor configurations that pass
    [SENSOR_SCHEMA]; [start_ok] tells whether [hub.async_start()] returns,
    and [None] stands for [PlatformNotReady]. The entities made are handed
    to [async_add_entities]. *)
Definition _async_setup_sensors (start_ok : bool) (hub_key : HubKey) (valid : nat)
    (data : ComponentData) : option ComponentData :=
  data ←
    (if decide (hub_key ∈ hubs data) then Some data
     else if start_ok then
       Some {| hubs := {[hub_key]} ∪ hubs data;
               listeners := <[hub_key := 0]> (listeners data);
               hub_calls := hub_calls data ++ [async_start_call hub_key] |}
     else None);
  match valid with
  | O => Some data
  | _ =>
      Some {| hubs := hubs data;
              listeners :=
                <[hub_key := default 0 (listeners data !! hub_key) + Z.of_nat valid]>
                  (listeners data);
              hub_calls := hub_calls data |}
  end.

(** [async_will_remove_from_hass] of an entity of [hub_key], after the
    unsubscription. *)
Definition async_will_remove_from_hass (hub_key : HubKey) (data : ComponentData)
  : ComponentData :=
  match listeners data !! hub_key with
  | None => data
  | Some count =>
      let count := count - 1 in
      if count <=? 0 then
        {| hubs := hubs data ∖ {[hub_key]};
           listeners := delete hub_key (listeners data);
           hub_calls :=
             if decide (hub_key ∈ hubs data)
             then hub_calls data ++ [async_stop_call hub_key]
             else hub_calls data |}
      else
        {| hubs := hubs data;
           listeners := <[hub_key := count]> (listeners data);
           hub_calls := hub_calls data |}
  end.

End sensor.

(** ** Vocabulary of the statements *)

(** A 16-bit value: the CRC register never leaves this range. *)
Definition word16 (c : Z) : Prop := 0 <= c < 65536.

(** [crc_le p] in the words of the specification: the two-byte
    little-endian encoding of [compute_crc p], low byte first (the source
    only reads this encoding back, with [int.from_bytes(frame[-2:],
    "little")]). *)
Definition crc_le (p : bytes) : bytes :=
  let crc := compute_crc p in
  [z2b (Z.land crc 0xFF); z2b (Z.shiftr crc 8)].

(** The test [split_modbus_frames] applies to a candidate slice. *)
Definition crc_valid (frame : bytes) : Prop :=
  4 <= len frame /\
  compute_crc (but_last2 frame) = from_bytes_little (last2 frame).

(** [weave [g0; g1; ..; gk] [f1; ..; fk]] is [g0 ++ f1 ++ g1 ++ .. ++ fk ++ gk]:
    the frames in order, each preceded by a gap of discarded bytes, and a
    last gap after them. *)
Fixpoint weave (gaps frames : list bytes) : bytes :=
  match gaps, frames with
  | gap :: gaps', frame :: frames' => gap ++ frame ++ weave gaps' frames'
  | gap :: _, [] => gap
  | [], _ => []
  end.

(** Boolean form of [crc_valid]. *)
Definition crc_validb (frame : bytes) : bool :=
  (4 <=? len frame)
  && (compute_crc (but_last2 frame) =? from_bytes_little (last2 frame)).

(** Every slice [B[i:i+L]] with [4 <= L] that lies inside [B]. *)
Definition slices_of (B : bytes) : list bytes :=
  i ← range 0 (len B); (fun L => slice B i (i + L)) <$> range 4 (len B - i + 1).

(** The complete big-endian 16-bit values of a byte string, in order. *)
Fixpoint be16_words (data : bytes) : list Z :=
  match data with
  | hi :: lo :: rest => from_bytes_big [hi; lo] :: be16_words rest
  | _ => []
  end.

(** The chunk [data[idx:idx+2]] read big-endian, when it is complete. *)
Definition chunk_value (data : bytes) (idx : Z) : option Z :=
  let chunk := slice data idx (idx + 2) in
  if len chunk =? 2 then Some (from_bytes_big chunk) else None.

(** One update per value, at consecutive registers from [base]. *)
Fixpoint register_updates (unit base : Z) (values : list Z)
  : list hub.RegisterUpdate :=
  match values with
  | [] => []
  | value :: rest => (unit, base, value) :: register_updates unit (base + 1) rest
  end.

(** A stored sample without its timestamp. *)
Definition untimed (sample : hub.RegisterValue) : Z * Z * Z :=
  (hub.unit_id sample, hub.register sample, hub.value sample).


(** A clock that advances one second per reading. *)
Definition tick_clock (n : nat) : Q := inject_Z (Z.of_nat n).

(** A clock that advances six seconds per reading. *)
Definition slow_clock (n : nat) : Q := inject_Z (6 * Z.of_nat n).

(** Well-formed frames of the wire format
    [unit][func][payload][crc_lo][crc_hi], used to state round trips. *)

(** A 16-bit value as two bytes, high byte first. *)
Definition be16 (z : Z) : bytes := [z2b (z / 256); z2b z].

(** A body followed by its CRC. *)
Definition framed (body : bytes) : bytes := body ++ crc_le body.

(** Read Holding Registers request. *)
Definition fc03_request_frame (unit start_addr quantity : Z) : bytes :=
  framed ([z2b unit; x03] ++ be16 start_addr ++ be16 quantity).

(** Read Holding Registers response carrying [values]. *)
Definition fc03_response_frame (unit : Z) (values : list Z) : bytes :=
  framed ([z2b unit; x03; z2b (2 * len values)] ++ concat (be16 <$> values)).

(** Write Single Register (request and echo are the same bytes). *)
Definition fc06_frame (unit register value : Z) : bytes :=
  framed ([z2b unit; x06] ++ be16 register ++ be16 value).

(** A register write as the hub dispatches it. *)
Definition in_range (update : hub.RegisterUpdate) : Prop :=
  0 <= update.1.1 < 256 /\ 0 <= update.1.2 < 65536 /\ 0 <= update.2 < 65536.

(** The Write Single Register frame of an update. *)
Definition write_frame (update : hub.RegisterUpdate) : bytes :=
  fc06_frame update.1.1 update.1.2 update.2.

(** The sample that a read by register alone returns: the last one in
    insertion order whose key carries that register. *)
Fixpoint newest (register : Z) (d : hub.ValueDict) : option hub.RegisterValue :=
  match d with
  | [] => None
  | (k, sample) :: rest =>
      match newest register rest with
      | Some later => Some later
      | None => if k.2 =? register then Some sample else None
      end
  end.

(** The states a hub can be in: created, then fed bytes by either
    transport, cut off from its TCP server, and stopped, any number of
    times. *)
Inductive reachable (clock : nat -> Q) : hub.ModbusSnifferHub -> Prop :=
| reachable_new : reachable clock (hub.new_hub clock)
| reachable_bytes self data self' :
    reachable clock self -> hub._process_bytes data self = Some self' ->
    reachable clock self'
| reachable_lost self :
    reachable clock self -> reachable clock (hub._tcp_run_finally self)
| reachable_stop self :
    reachable clock self -> reachable clock (hub.async_stop self).

(** What the hub can dispatch: a unit byte, a 16-bit value, and a register
    that is a 16-bit start address plus an offset below 127. *)
Definition update_ok (update : hub.RegisterUpdate) : Prop :=
  0 <= update.1.1 < 256 /\ 0 <= update.1.2 < 65536 + 127 /\ 0 <= update.2 < 65536.

(** A stored sample sits under its own (unit_id, register). *)
Definition sample_ok (kv : (Z * Z) * hub.RegisterValue) : Prop :=
  kv.1 = (hub.unit_id kv.2, hub.register kv.2) /\ update_ok (untimed kv.2).

Definition entry_ok (entry : hub.PendingRead) : Prop :=
  0 <= entry.1.1 < 65536 /\ 0 <= entry.1.2 < 65536.

Definition well_formed (self : hub.ModbusSnifferHub) : Prop :=
  Forall update_ok (hub.dispatched self) /\
  Forall sample_ok (hub._values self) /\
  forall unit, Forall entry_ok (hub.pending self unit).

(** A clock that never goes back. *)
Definition monotone (clock : nat -> Q) : Prop :=
  forall i j, (i <= j)%nat -> (clock i <= clock j)%Q.

(** Arrival order of a FIFO. *)
Definition by_arrival (a b : hub.PendingRead) : Prop := (a.2 <= b.2)%Q.

(** An entry whose arrival time is one of the first [reads] readings of the
    clock. *)
Definition stamped (clock : nat -> Q) (reads : nat) (entry : hub.PendingRead)
  : Prop :=
  exists i, (i < reads)%nat /\ entry.2 = clock i.

(** A FIFO in arrival order. *)
Definition queue_ordered (clock : nat -> Q) (reads : nat)
    (queue : list hub.PendingRead) : Prop :=
  Forall (stamped clock reads) queue /\ StronglySorted by_arrival queue.

(** Every FIFO of the hub is in arrival order. *)
Definition arrival_ordered (clock : nat -> Q) (self : hub.ModbusSnifferHub) : Prop :=
  hub.loop_time self = clock /\
  forall unit, queue_ordered clock (hub.clock_reads self) (hub.pending self unit).

(** The hub at a later time: after more bytes, after the loss of a TCP
    connection, or after a stop. *)
Inductive evolves (self : hub.ModbusSnifferHub) : hub.ModbusSnifferHub -> Prop :=
| evolves_refl : evolves self self
| evolves_bytes mid data final :
    evolves self mid -> hub._process_bytes data mid = Some final ->
    evolves self final
| evolves_lost mid :
    evolves self mid -> evolves self (hub._tcp_run_finally mid)
| evolves_stop mid :
    evolves self mid -> evolves self (hub.async_stop mid).

(** The signals sent between two states of the hub. *)
Definition later_updates (before after : hub.ModbusSnifferHub)
  : list hub.RegisterUpdate :=
  drop (length (hub.dispatched before)) (hub.dispatched after).

(** The ways two sequences of signals can reach the dispatcher: every hub
    sends on the one signal [SIGNAL_REGISTER_UPDATE], so a sensor hears the
    signals of its own hub mixed with those of the others. *)
Inductive interleaved {A} : list A -> list A -> list A -> Prop :=
| interleaved_nil : interleaved [] [] []
| interleaved_own x own others heard :
    interleaved own others heard -> interleaved (x :: own) others (x :: heard)
| interleaved_other x own others heard :
    interleaved own others heard -> interleaved own (x :: others) (x :: heard).

(** The dispatcher calling the sensor's callback once per signal, in order. *)
Definition listen (updates : list hub.RegisterUpdate)
    (self : sensor.ModbusSnifferSensor) : sensor.ModbusSnifferSensor :=
  foldl (fun self update =>
           sensor._handle_register_update update.1.1 update.1.2 update.2 self)
        self updates.

(** The frame lengths that [_candidate_frame_lengths] tries for a function
    code [fc], apart from the bounds 4 and [max_len]; [exception] tells
    whether bit 7 of the function byte is set. *)
Definition allowed_length (fc : Z) (exception : bool) (length : Z) : Prop :=
  if (fc =? 1) || (fc =? 2) then length = 8 \/ 6 <= length <= 256
  else if (fc =? 3) || (fc =? 4) then
    length = 8 \/ (7 <= length <= 255 /\ length mod 2 = 1)
  else if (fc =? 5) || (fc =? 6) then length = 8
  else if fc =? 15 then length = 8 \/ 10 <= length <= 255
  else if fc =? 16 then length = 8 \/ (11 <= length <= 255 /\ length mod 2 = 1)
  else if exception then length = 5
  else True.

(** The bits of a byte string, least significant bit of the first byte
    first. *)
Definition bits_of (data : bytes) : list Z :=
  byte ← data; (fun bit_idx => Z.land (Z.shiftr (b2z byte) bit_idx) 1) <$> range 0 8.

(** The number whose binary digits are [bits], least significant first. *)
Fixpoint pack_bits (bits : list Z) : Z :=
  match bits with
  | [] => 0
  | bit :: bits' => bit + 2 * pack_bits bits'
  end.

(** The row of the write history for one Write Single Register frame. *)
Definition write_row (timestamp : string) (direction : string)
    (update : hub.RegisterUpdate) : udp_web_server.WriteRow :=
  {| udp_web_server.timestamp := timestamp;
     udp_web_server.register_dec := update.1.2;
     udp_web_server.value_dec := update.2;
     udp_web_server.direction := direction |}.

(** The register value that a decoded field shows: [make_field] with the
    default size 2 is only used for 16-bit words. *)
Definition word_of_field (field : udp_web_server.Field) : option Z :=
  match field with
  | udp_web_server.make_field _ value size =>
      if size =? 2 then Some value else None
  | udp_web_server.make_raw_field _ _ => None
  end.

(** The entities of [hub_key] among those that are added and not yet
    removed. *)
Definition live (hub_key : sensor.HubKey) (entities : list sensor.HubKey) : nat :=
  length (filter (fun key => key = hub_key) entities).

(** The platform at work: sensors are set up for a hub key, which adds one
    entity per valid sensor, and entities that were added are removed
    again. *)
Inductive platform_run : sensor.ComponentData -> list sensor.HubKey -> Prop :=
| platform_new :
    platform_run
      {| sensor.hubs := ∅; sensor.listeners := ∅; sensor.hub_calls := [] |} []
| platform_setup data entities start_ok hub_key valid data' :
    platform_run data entities ->
    sensor._async_setup_sensors start_ok hub_key valid data = Some data' ->
    platform_run data' (replicate valid hub_key ++ entities)
| platform_remove data before hub_key after :
    platform_run data (before ++ hub_key :: after) ->
    platform_run (sensor.async_will_remove_from_hass hub_key data)
      (before ++ after).

(** How many more times the hub of [hub_key] was started than stopped. *)
Fixpoint running (hub_key : sensor.HubKey) (calls : list sensor.HubCall) : Z :=
  match calls with
  | [] => 0
  | sensor.async_start_call key :: calls' =>
      (if decide (key = hub_key) then 1 else 0) + running hub_key calls'
  | sensor.async_stop_call key :: calls' =>
      (if decide (key = hub_key) then -1 else 0) + running hub_key calls'
  end.

(** Whether a string holds a comma. *)
Fixpoint has_comma (s : string) : bool :=
  match s with
  | EmptyString => false
  | String c rest => Ascii.eqb c ","%char || has_comma rest
  end.

(** Whether a string holds a character at which [str.splitlines] ends a
    line. *)
Fixpoint has_linebreak (s : string) : bool :=
  match s with
  | EmptyString => false
  | String c rest => is_linebreak c || has_linebreak rest
  end.

(** The log file after [append_packet_log] was called for each of
    [entries] in turn. *)
Definition logged (entries : list (string * bytes)) (log : udp_web_server.PacketLog)
  : udp_web_server.PacketLog :=
  foldl (fun log entry => udp_web_server.append_packet_log entry.1 entry.2 log)
        log entries.

(** The lines that the calls for [entries] put in the file. *)
Definition log_line (entry : string * bytes) : string :=
  encode_ascii_ignore (entry.1 +:+ "," +:+ udp_web_server.format_bytes entry.2).

Definition log_text (entries : list (string * bytes)) : string :=
  foldr (fun entry text => log_line entry +:+ String "010"%char text) "" entries.

(** * Properties *)

(** ** Bytes *)

Lemma b2z_range (b : byte) : 0 <= b2z b < 256.
Proof.
  unfold b2z. pose proof (Byte.to_N_bounded b). lia.
Qed.

Lemma b2z_z2b (z : Z) : b2z (z2b z) = z mod 256.
Proof.
  unfold b2z, z2b.
  assert (Hz : 0 <= z mod 256 < 256) by (apply Z.mod_pos_bound; lia).
  destruct (Byte.of_N (Z.to_N (z mod 256))) as [b|] eqn:Hb.
  - apply Byte.to_of_N in Hb. rewrite Hb. lia.
  - apply Byte.of_N_None_iff in Hb. lia.
Qed.

(** ** CRC engine *)

Section Crc.

Lemma word16_land (c : Z) : word16 c -> Z.land c 0xFFFF = c.
Proof.
  intros Hc. change 0xFFFF with (Z.ones 16).
  rewrite Z.land_ones by lia. apply Z.mod_small. exact Hc.
Qed.

Lemma land_word16 (c : Z) : Z.land c 0xFFFF = c -> word16 c.
Proof.
  change 0xFFFF with (Z.ones 16). rewrite Z.land_ones by lia.
  intros <-. apply Z.mod_pos_bound. lia.
Qed.

Lemma word16_lxor (a b : Z) : word16 a -> word16 b -> word16 (Z.lxor a b).
Proof.
  intros Ha%word16_land Hb%word16_land. apply land_word16.
  rewrite <- Ha, <- Hb at 2. apply Z.bits_inj'. intros n _.
  rewrite !Z.land_spec, !Z.lxor_spec, !Z.land_spec.
  destruct (Z.testbit a n), (Z.testbit b n), (Z.testbit 65535 n); reflexivity.
Qed.

Lemma word16_shiftr (c : Z) : word16 c -> word16 (Z.shiftr c 1).
Proof.
  unfold word16. intros Hc. rewrite Z.shiftr_div_pow2 by lia.
  change (2 ^ 1) with 2. split.
  - apply Z.div_pos; lia.
  - apply Z.div_lt_upper_bound; lia.
Qed.

Lemma word16_crc_shift (c : Z) : word16 c -> word16 (crc_shift c).
Proof.
  intros Hc. unfold crc_shift. destruct (Z.land c 1 =? 0).
  - now apply word16_shiftr.
  - apply word16_lxor; [now apply word16_shiftr | unfold word16; lia].
Qed.

Lemma word16_iter_shift (k : nat) (c : Z) :
  word16 c -> word16 (Nat.iter k crc_shift c).
Proof.
  intros Hc. induction k as [|k IH]; simpl; [exact Hc|].
  now apply word16_crc_shift.
Qed.

Lemma word16_crc_byte (c : Z) (b : byte) : word16 c -> word16 (crc_byte c b).
Proof.
  intros Hc. unfold crc_byte. apply word16_iter_shift, word16_lxor; [exact Hc|].
  pose proof (b2z_range b). unfold word16. lia.
Qed.

Lemma word16_fold (data : bytes) (c : Z) :
  word16 c -> word16 (fold_left crc_byte data c).
Proof.
  revert c. induction data as [|b data IH]; intros c Hc; simpl; [exact Hc|].
  apply IH. now apply word16_crc_byte.
Qed.

Lemma compute_crc_state (data : bytes) :
  compute_crc data = fold_left crc_byte data 0xFFFF.
Proof.
  unfold compute_crc. apply word16_land, word16_fold. unfold word16. lia.
Qed.

Lemma compute_crc_word16 (data : bytes) : word16 (compute_crc data).
Proof.
  rewrite compute_crc_state. apply word16_fold. unfold word16. lia.
Qed.

(** Shifting out [k] zero bits never meets the polynomial. *)
Lemma iter_shift_zero_bits (k : nat) (h : Z) :
  0 <= h -> Nat.iter k crc_shift (2 ^ Z.of_nat k * h) = h.
Proof.
  intros Hh. induction k as [|k IH].
  - simpl. lia.
  - rewrite Nat.iter_succ_r. 
    replace (crc_shift (2 ^ Z.of_nat (S k) * h)) with (2 ^ Z.of_nat k * h);
      [exact IH|].
    unfold crc_shift.
    assert (Hpow : 2 ^ Z.of_nat (S k) * h = 2 * (2 ^ Z.of_nat k * h)).
    { rewrite Nat2Z.inj_succ, Z.pow_succ_r by lia. ring. }
    rewrite Hpow.
    change 1 with (Z.ones 1) at 1. rewrite Z.land_ones by lia.
    change (2 ^ 1) with 2.
    rewrite (Z.mul_comm 2), Z.mod_mul by lia. simpl (0 =? 0).
    cbv iota. rewrite Z.shiftr_div_pow2 by lia. change (2 ^ 1) with 2.
    rewrite Z.div_mul by lia. reflexivity.
Qed.

(** XOR-ing a register with its own low byte clears that byte. *)
Lemma lxor_low_byte (c : Z) : Z.lxor c (c mod 256) = 256 * (c / 256).
Proof.
  assert (Hdisj : Z.land (256 * (c / 256)) (c mod 256) = 0).
  { apply Z.bits_inj'. intros n Hn. rewrite Z.land_spec, Z.bits_0.
    destruct (Z.ltb_spec n 8) as [Hlt|Hge].
    - rewrite (Z.mul_comm 256). change 256 with (2 ^ 8).
      rewrite Z.mul_pow2_bits_low by lia. reflexivity.
    - change 256 with (2 ^ 8). rewrite (Z.mod_pow2_bits_high c 8 n) by lia.
      apply andb_false_r. }
  apply Z.add_nocarry_lxor in Hdisj.
  rewrite (Z.div_mod c 256) at 1 by lia.
  rewrite Hdisj, Z.lxor_assoc, Z.lxor_nilpotent, Z.lxor_0_r. reflexivity.
Qed.

End Crc.

(** C5. CRC round-trip: appending to any byte sequence [p] the two bytes of
    its own CRC, low byte first, gives a sequence whose CRC is 0. *)
Theorem crc_round_trip (p : bytes) : compute_crc (p ++ crc_le p) = 0.
Proof.
  pose proof (compute_crc_word16 p) as Hw.
  rewrite compute_crc_state. unfold crc_le.
  rewrite fold_left_app. rewrite <- compute_crc_state.
  set (c := compute_crc p) in *. simpl fold_left.
  assert (Hlo : b2z (z2b (Z.land c 255)) = c mod 256).
  { rewrite b2z_z2b. change 255 with (Z.ones 8). rewrite Z.land_ones by lia.
    change (2 ^ 8) with 256. apply Z.mod_mod. lia. }
  assert (Hhi : b2z (z2b (Z.shiftr c 8)) = c / 256).
  { rewrite b2z_z2b, Z.shiftr_div_pow2 by lia. change (2 ^ 8) with 256.
    apply Z.mod_small. unfold word16 in Hw. split.
    - apply Z.div_pos; lia.
    - apply Z.div_lt_upper_bound; lia. }
  unfold crc_byte at 2. rewrite Hlo, lxor_low_byte.
  change 256 with (2 ^ Z.of_nat 8) at 1.
  rewrite iter_shift_zero_bits by (apply Z.div_pos; unfold word16 in Hw; lia).
  unfold crc_byte. rewrite Hhi, Z.lxor_nilpotent. reflexivity.
Qed.

(** The wire encoding read back with [int.from_bytes(_, "little")] is the CRC
    itself, which is the comparison [split_modbus_frames] makes. *)
Lemma from_bytes_little_crc_le (p : bytes) :
  from_bytes_little (crc_le p) = compute_crc p.
Proof.
  pose proof (compute_crc_word16 p) as Hw. unfold crc_le.
  set (c := compute_crc p) in *. cbn [from_bytes_little].
  rewrite !b2z_z2b. change 255 with (Z.ones 8). rewrite Z.land_ones by lia.
  rewrite Z.shiftr_div_pow2 by lia. change (2 ^ 8) with 256.
  rewrite Z.mod_mod by lia.
  rewrite (Z.mod_small (c / 256)).
  - rewrite (Z.div_mod c 256) at 3 by lia. lia.
  - unfold word16 in Hw. split; [apply Z.div_pos | apply Z.div_lt_upper_bound]; lia.
Qed.

(** A payload of two bytes or more followed by its CRC passes the test of
    the reconstructor. *)
Lemma crc_le_valid (p : bytes) : 2 <= len p -> crc_valid (p ++ crc_le p).
Proof.
  intros Hp. unfold crc_valid, but_last2, last2, len in *.
  rewrite length_app. change (length (crc_le p)) with 2%nat.
  replace (length p + 2 - 2)%nat with (length p) by lia.
  rewrite take_app_length, drop_app_length. split; [lia|].
  symmetry. apply from_bytes_little_crc_le.
Qed.

(** ** The scan loop *)

Lemma len_nonneg {A} (l : list A) : 0 <= len l.
Proof. unfold len. lia. Qed.

Lemma slice_from_step (data : bytes) (idx : Z) :
  0 <= idx < len data ->
  exists b, slice_from data idx = b :: slice_from data (idx + 1).
Proof.
  unfold len, slice_from. intros Hidx.
  destruct (lookup_lt_is_Some_2 data (Z.to_nat idx)) as [b Hb]; [lia|].
  exists b. rewrite (drop_S _ _ _ Hb). f_equal. f_equal. lia.
Qed.

Lemma slice_from_slice (data : bytes) (idx length : Z) :
  0 <= idx -> 0 <= length ->
  slice_from data idx
  = slice data idx (idx + length) ++ slice_from data (idx + length).
Proof.
  intros Hidx Hlen. unfold slice, slice_from.
  replace (Z.to_nat (idx + length))
    with (Z.to_nat idx + Z.to_nat (idx + length - idx))%nat by lia.
  rewrite <- drop_drop, take_drop. reflexivity.
Qed.

Lemma weave_cons_gap (b : byte) (gap : bytes) (gaps frames : list bytes) :
  weave ((b :: gap) :: gaps) frames = b :: weave (gap :: gaps) frames.
Proof. destruct frames; reflexivity. Qed.

Lemma first_valid_sound (data : bytes) (idx n : Z) (candidates : list Z)
    (frame : bytes) (length : Z) :
  first_valid data idx n candidates = Some (frame, length) ->
  idx + length <= n /\ 4 <= length /\
  frame = slice data idx (idx + length) /\ crc_valid frame.
Proof.
  induction candidates as [|c rest IH]; simpl; [discriminate|].
  destruct (Z.ltb_spec n (idx + c)) as [|Hfit]; [exact IH|].
  destruct (Z.ltb_spec (len (slice data idx (idx + c))) 4) as [|Hlen]; [exact IH|].
  destruct (Z.eqb_spec (compute_crc (but_last2 (slice data idx (idx + c))))
                       (from_bytes_little (last2 (slice data idx (idx + c)))))
    as [Hcrc|]; [|exact IH].
  intros [= <- <-]. repeat split; try assumption.
  revert Hlen. unfold len, slice. rewrite length_take. lia.
Qed.

Section Scan.

Variable candidate_frame_lengths : option Z -> Z -> list Z.

Let loop := split_loop candidate_frame_lengths.

(** Each pass moves the cursor forward, so as many passes as there are bytes
    left always reach the end of the loop. *)
Lemma split_loop_total (fuel : nat) (data : bytes) (n idx : Z) (frames : list bytes) :
  n - idx <= Z.of_nat fuel -> is_Some (loop fuel data n idx frames).
Proof.
  subst loop. revert idx frames.
  induction fuel as [|fuel IH]; intros idx frames Hfuel; simpl;
    destruct (Z.leb_spec (idx + 4) n) as [Hgo|Hstop]; try (eexists; reflexivity).
  - lia.
  - destruct (first_valid _ _ _ _) as [[frame length]|] eqn:Hfound.
    + apply first_valid_sound in Hfound as (_ & Hlen & _). apply IH. lia.
    + apply IH. lia.
Qed.

(** What the loop returns from cursor [idx]: the frames found from there on
    are CRC-valid slices laid out in order among discarded gaps, and fewer
    than four bytes are left over. *)
Lemma split_loop_sound (fuel : nat) (data : bytes) (idx : Z)
    (frames result : list bytes) (leftover : bytes) :
  0 <= idx ->
  loop fuel data (len data) idx frames = Some (result, leftover) ->
  exists found gaps,
    result = frames ++ found /\
    length gaps = S (length found) /\
    slice_from data idx = weave gaps found ++ leftover /\
    Forall crc_valid found /\
    (length leftover <= 3)%nat.
Proof.
  subst loop. revert idx frames.
  induction fuel as [|fuel IH]; intros idx frames Hidx; simpl;
    destruct (Z.leb_spec (idx + 4) (len data)) as [Hgo|Hstop]; try discriminate.
  - intros [= <- <-]. exists [], [[]]. rewrite app_nil_r. repeat split; auto.
    unfold slice_from. rewrite length_drop. unfold len in Hstop. lia.
  - destruct (first_valid _ _ _ _) as [[frame length]|] eqn:Hfound.
    + apply first_valid_sound in Hfound as (Hfit & Hlen & Hframe & Hcrc).
      intros Hrun. apply IH in Hrun as (found & gaps & -> & Hgaps & Hrest & Hok & Hleft);
        [|lia].
      exists (frame :: found), ([] :: gaps). rewrite <- app_assoc.
      repeat split; simpl; auto.
      rewrite <- app_assoc, <- Hrest, Hframe. apply slice_from_slice; lia.
    + intros Hrun. apply IH in Hrun as (found & gaps & -> & Hgaps & Hrest & Hok & Hleft);
        [|lia].
      destruct (slice_from_step data idx) as [b Hb]; [lia|].
      destruct gaps as [|gap gaps]; [discriminate|].
      exists found, ((b :: gap) :: gaps). repeat split; auto.
      rewrite weave_cons_gap, Hb, Hrest. reflexivity.
  - intros [= <- <-]. exists [], [[]]. rewrite app_nil_r. repeat split; auto.
    unfold slice_from. rewrite length_drop. unfold len in Hstop. lia.
Qed.

(** [split_modbus_frames] returns on every input, and its result lays the
    input out as gaps, frames and leftover. *)
Lemma split_frames_layout (data : bytes) :
  exists frames leftover gaps,
    split_frames candidate_frame_lengths data = Some (frames, leftover) /\
    length gaps = S (length frames) /\
    data = weave gaps frames ++ leftover /\
    Forall crc_valid frames /\
    (length leftover <= 3)%nat.
Proof.
  unfold split_frames.
  destruct (split_loop_total (length data) data (len data) 0 [])
    as [[frames leftover] Hrun]; [unfold len; lia|].
  destruct (split_loop_sound _ _ _ _ _ _ (Z.le_refl 0) Hrun)
    as (found & gaps & Hres & Hgaps & Hlay & Hok & Hleft).
  simpl in Hres. subst found.
  exists frames, leftover, gaps. subst loop. rewrite Hrun. auto.
Qed.

(** Fewer than four bytes never enter the loop. *)
Lemma split_frames_short (data : bytes) :
  (length data <= 3)%nat ->
  split_frames candidate_frame_lengths data = Some ([], data).
Proof.
  intros Hshort. unfold split_frames.
  destruct data as [|b0 [|b1 [|b2 [|b3 data]]]]; try reflexivity.
  simpl in Hshort. lia.
Qed.

End Scan.

(** ** parser.split_modbus_frames *)

(** C4 (as amended). [split_modbus_frames] returns on every input [B]. The
    emitted frames and the leftover are disjoint blocks of [B] in order, the
    leftover being a suffix of [B]; the remaining bytes are discarded gaps,
    which may lie before the first frame, between two frames, or between the
    last frame and the leftover. Every emitted frame carries its own CRC. *)
Theorem split_modbus_frames_layout (B : bytes) :
  exists frames leftover gaps,
    parser.split_modbus_frames B = Some (frames, leftover) /\
    length gaps = S (length frames) /\
    B = weave gaps frames ++ leftover /\
    leftover `suffix_of` B /\
    Forall crc_valid frames.
Proof.
  destruct (split_frames_layout parser._candidate_frame_lengths B)
    as (frames & leftover & gaps & Hrun & Hgaps & Hlay & Hok & _).
  exists frames, leftover, gaps. repeat split; auto.
  exists (weave gaps frames). exact Hlay.
Qed.

(** C4 (as stated) fails: after a frame, four bytes of noise leave one
    discarded byte between the frame and the leftover, so the frame followed
    by the leftover is not a suffix of the input. *)
Lemma split_frames_not_suffix :
  let B := [x01; x06; x00; x05; x00; x64; x98; x20; xff; xff; xff; xff] in
  let frame := [x01; x06; x00; x05; x00; x64; x98; x20] in
  parser.split_modbus_frames B = Some ([frame], [xff; xff; xff]) /\
  ~ (concat [frame] ++ [xff; xff; xff]) `suffix_of` B.
Proof.
  split; [vm_compute; reflexivity|].
  intros [k Hk]. assert (Hlen : length k = 1%nat).
  { apply (f_equal length) in Hk. rewrite length_app in Hk. simpl in Hk. lia. }
  destruct k as [|b [|? ?]]; try discriminate Hlen. discriminate Hk.
Qed.

(** C10. The leftover returned by [split_modbus_frames] never holds more
    than 3 bytes. *)
Theorem leftover_at_most_3 (B : bytes) :
  exists frames leftover,
    parser.split_modbus_frames B = Some (frames, leftover) /\
    (length leftover <= 3)%nat.
Proof.
  destruct (split_frames_layout parser._candidate_frame_lengths B)
    as (frames & leftover & gaps & Hrun & _ & _ & _ & Hleft).
  exists frames, leftover. auto.
Qed.

(** ** Candidate lengths of exception frames *)

Lemma high_bit_set (func : Z) : 0x80 <= func <= 0xFF -> Z.land func 0x80 = 0x80.
Proof.
  intros Hf. apply Z.bits_inj'. intros n Hn. rewrite Z.land_spec.
  destruct (Z.eq_dec n 7) as [->|Hne].
  - replace (Z.testbit func 7) with true; [reflexivity|].
    symmetry. apply Z.testbit_true; [lia|]. change (2 ^ 7) with 128.
    replace (func / 128) with 1; [reflexivity|].
    apply Z.div_unique with (r := func - 128); lia.
  - replace (Z.testbit 128 n) with false; [apply andb_false_r|].
    symmetry. change 128 with (2 ^ 7). apply Z.pow2_bits_false. lia.
Qed.

(** The copy in udp_web_server.py tests the unmasked function byte, so every
    exception function byte gets the single candidate length 5 (once 5 bytes
    are available). *)
Lemma web_exception_candidates (func max_len : Z) :
  0x80 <= func <= 0xFF -> 5 <= max_len ->
  udp_web_server._candidate_frame_lengths (Some func) max_len = [5].
Proof.
  intros Hf Hmax. unfold udp_web_server._candidate_frame_lengths.
  repeat match goal with
         | |- context [func =? ?k] =>
             destruct (Z.eqb_spec func k) as [->|_]; [lia|]
         end.
  rewrite high_bit_set by exact Hf. simpl.
  destruct (decide (({[5]} : gset Z) = ∅)) as [Hempty|_].
  { exfalso. revert Hempty. apply non_empty_singleton_L. }
  unfold sorted_filter. rewrite elements_singleton. simpl.
  destruct (Z.leb_spec 5 max_len); [reflexivity | lia].
Qed.

(** C2. The parser masks the function byte before choosing the branch, so
    the exception byte 0x83 is given the lengths of function 3: with 5 bytes
    available no candidate is left, no frame is emitted for
    [01 83 02 C0 F1], and its last three bytes stay in the leftover. The copy
    in udp_web_server.py yields the candidate 5, emits the frame, and its
    decoder classifies it as an exception with code 2. The hub emits no
    register update. *)
Theorem exception_frame_not_reconstructed :
  let frame := [x01; x83; x02; xc0; xf1] in
  parser._candidate_frame_lengths (Some 0x83) 5 = [] /\
  parser.split_modbus_frames frame = Some ([], [x02; xc0; xf1]) /\
  udp_web_server._candidate_frame_lengths (Some 0x83) 5 = [5] /\
  udp_web_server.split_modbus_frames frame = Some ([frame], []) /\
  udp_web_server.decode_frame frame
  = {| udp_web_server.fields := [udp_web_server.make_field "Exception Code" 2 1];
       udp_web_server.frame_type := "exception";
       udp_web_server.is_exception := true |} /\
  hub.dispatched <$> hub._process_bytes frame (hub.new_hub tick_clock) = Some [].
Proof.
  repeat split; vm_compute; reflexivity.
Qed.

(** ** parser.parse_fc03_response *)

Lemma register_values_fold (data : bytes) (offsets : list Z) (acc : list Z) :
  foldl (fun values idx =>
           let chunk := slice data idx (idx + 2) in
           if len chunk =? 2 then values ++ [from_bytes_big chunk] else values)
        acc offsets
  = acc ++ omap (chunk_value data) offsets.
Proof.
  revert acc. induction offsets as [|idx offsets IH]; intros acc; simpl.
  - now rewrite app_nil_r.
  - rewrite IH. unfold chunk_value.
    destruct (len (slice data idx (idx + 2)) =? 2);
      [now rewrite <- app_assoc | reflexivity].
Qed.

Lemma range_step_two_more (n : Z) :
  0 <= n ->
  range_step 0 (n + 2) 2 = 0 :: (Z.add 2 <$> range_step 0 n 2).
Proof.
  intros Hn. unfold range_step.
  replace ((n + 2 - 0 + 2 - 1) `div` 2) with (Z.succ ((n - 0 + 2 - 1) `div` 2)).
  2:{ replace (n + 2 - 0 + 2 - 1) with ((n - 0 + 2 - 1) + 1 * 2) by lia.
      rewrite Z.div_add by lia. lia. }
  assert (Hk : 0 <= (n - 0 + 2 - 1) `div` 2) by (apply Z.div_pos; lia).
  rewrite seqZ_cons by lia. rewrite Z.pred_succ. simpl. f_equal.
  rewrite <- (fmap_add_seqZ 1 0). rewrite <- !list_fmap_compose.
  apply list_fmap_ext. intros _ i _. simpl. lia.
Qed.

Lemma range_step_nonneg (n : Z) : Forall (Z.le 0) (range_step 0 n 2).
Proof.
  unfold range_step. apply Forall_fmap, Forall_seqZ. intros i Hi. simpl. lia.
Qed.

Lemma chunk_value_shift (hi lo : byte) (rest : bytes) (offsets : list Z) :
  Forall (Z.le 0) offsets ->
  omap (chunk_value (hi :: lo :: rest)) (Z.add 2 <$> offsets)
  = omap (chunk_value rest) offsets.
Proof.
  induction 1 as [|idx offsets Hidx _ IH]; [reflexivity|].
  cbn [fmap list_fmap omap list_omap]. rewrite IH.
  replace (chunk_value (hi :: lo :: rest) (2 + idx)) with (chunk_value rest idx);
    [reflexivity|].
  unfold chunk_value, slice.
  replace (Z.to_nat (2 + idx)) with (S (S (Z.to_nat idx))) by lia.
  replace (2 + idx + 2 - (2 + idx)) with (idx + 2 - idx) by lia.
  reflexivity.
Qed.

(** The loop collects exactly the complete 16-bit values, in order. *)
Lemma register_values_words (data : bytes) :
  parser.register_values data = be16_words data.
Proof.
  unfold parser.register_values. rewrite register_values_fold, app_nil_l.
  remember (length data) as n eqn:Hn. revert data Hn.
  induction (lt_wf n) as [n _ IH]. intros data Hn.
  destruct data as [|hi [|lo rest]]; try reflexivity.
  replace (len (hi :: lo :: rest)) with (len rest + 2) by (unfold len; simpl; lia).
  rewrite range_step_two_more by apply len_nonneg.
  cbn [omap list_omap be16_words].
  replace (chunk_value (hi :: lo :: rest) 0) with (Some (from_bytes_big [hi; lo]))
    by reflexivity.
  rewrite chunk_value_shift by apply range_step_nonneg.
  f_equal. apply (IH (length rest)); [subst n; simpl; lia | reflexivity].
Qed.

Lemma be16_words_length (data : bytes) :
  length (be16_words data) = (length data / 2)%nat.
Proof.
  remember (length data) as n eqn:Hn. revert data Hn.
  induction (lt_wf n) as [n _ IH]. intros data Hn.
  destruct data as [|hi [|lo rest]]; subst n; try reflexivity.
  cbn [be16_words length]. rewrite (IH (length rest)) by (simpl; lia || reflexivity).
  change (S (S (length rest))) with (2 + length rest)%nat.
  replace (2 + length rest)%nat with (length rest + 1 * 2)%nat by lia.
  rewrite Nat.div_add by lia. lia.
Qed.

(** ** The register store *)

Import hub.

Lemma dict_set_twice (key : Z * Z) (first second : RegisterValue) (d : ValueDict) :
  dict_set key second (dict_set key first d) = dict_set key second d.
Proof.
  induction d as [|[k old] d IH]; simpl.
  - destruct (decide (key = key)); [reflexivity | contradiction].
  - destruct (decide (k = key)) as [Heq|Hne]; simpl.
    + destruct (decide (k = key)); [reflexivity | contradiction].
    + destruct (decide (k = key)); [contradiction | now rewrite IH].
Qed.

Lemma dict_set_untimed (key : Z * Z) (a b : RegisterValue) (d : ValueDict) :
  untimed a = untimed b ->
  (fun kv => (kv.1, untimed kv.2)) <$> dict_set key a d
  = (fun kv => (kv.1, untimed kv.2)) <$> dict_set key b d.
Proof.
  intros Hab. induction d as [|[k old] d IH]; simpl.
  - now rewrite Hab.
  - destruct (decide (k = key)); rewrite !fmap_cons; cbn [fst snd];
      [now rewrite Hab | now rewrite IH].
Qed.

(** What [get_register] returns depends on the keys and on the (unit,
    register, value) of the samples, not on their timestamps. *)
Lemma dict_get_untimed (key : Z * Z) (d1 d2 : ValueDict) :
  (fun kv => (kv.1, untimed kv.2)) <$> d1 = (fun kv => (kv.1, untimed kv.2)) <$> d2 ->
  value <$> dict_get key d1 = value <$> dict_get key d2.
Proof.
  revert d2. induction d1 as [|[k1 s1] d1 IH]; intros [|[k2 s2] d2]; try discriminate;
    [reflexivity|].
  rewrite !fmap_cons. cbn [fst snd]. intros [= -> Hsample Hrest]. simpl.
  destruct (decide (k2 = key)); [|now apply IH].
  simpl. unfold untimed in Hsample. congruence.
Qed.

Lemma latest_untimed (register : Z) (d1 d2 : ValueDict) :
  (fun kv => (kv.1, untimed kv.2)) <$> d1 = (fun kv => (kv.1, untimed kv.2)) <$> d2 ->
  value <$> (snd <$> head (List.filter (fun kv => kv.1.2 =? register) d1))
  = value <$> (snd <$> head (List.filter (fun kv => kv.1.2 =? register) d2)).
Proof.
  revert d2. induction d1 as [|[k1 s1] d1 IH]; intros [|[k2 s2] d2]; try discriminate;
    [reflexivity|].
  rewrite !fmap_cons. cbn [fst snd]. intros [= -> Hsample Hrest]. simpl.
  destruct (k2.2 =? register); [|now apply IH].
  simpl. unfold untimed in Hsample. congruence.
Qed.

Lemma get_register_untimed (unit_id : option Z) (register : Z)
    (self1 self2 : ModbusSnifferHub) :
  (fun kv => (kv.1, untimed kv.2)) <$> _values self1
  = (fun kv => (kv.1, untimed kv.2)) <$> _values self2 ->
  get_register unit_id register self1 = get_register unit_id register self2.
Proof.
  intros Hsame. unfold get_register. destruct unit_id as [unit_id|].
  - now apply dict_get_untimed.
  - apply latest_untimed. rewrite !fmap_reverse. now rewrite Hsame.
Qed.

(** C9 (as amended). Two successive [_store_register(u, r, v)] leave the store
    as a single write made at the time of the second one would: the same
    keys in the same order, the same (unit, register, value) under every key
    as after the first write, and only [updated_at] of (u, r) moved to the
    second clock reading; every [get_register] query reads the same; when
    the two readings are equal the store is the same as after one write.
    Exactly two updates are dispatched. *)
Theorem store_register_twice (u r v : Z) (self : ModbusSnifferHub) :
  let once := _store_register u r v self in
  let twice := _store_register u r v once in
  _values twice
  = dict_set (u, r)
      {| unit_id := u; register := r; value := v;
         updated_at := loop_time self (S (clock_reads self)) |} (_values self) /\
  (fun kv => (kv.1, untimed kv.2)) <$> _values twice
  = (fun kv => (kv.1, untimed kv.2)) <$> _values once /\
  (forall unit_id register,
     get_register unit_id register twice = get_register unit_id register once) /\
  (loop_time self (S (clock_reads self)) = loop_time self (clock_reads self)
   -> _values twice = _values once) /\
  dispatched twice = dispatched self ++ [(u, r, v); (u, r, v)].
Proof.
  cbv zeta.
  assert (Hsame :
    (fun kv => (kv.1, untimed kv.2))
      <$> _values (_store_register u r v (_store_register u r v self))
    = (fun kv => (kv.1, untimed kv.2)) <$> _values (_store_register u r v self)).
  { unfold _store_register, time. cbn [_values loop_time clock_reads].
    rewrite dict_set_twice. now apply dict_set_untimed. }
  split; [|split; [exact Hsame|split; [|split]]].
  - unfold _store_register, time. cbn [_values loop_time clock_reads].
    apply dict_set_twice.
  - intros unit_id register. now apply get_register_untimed.
  - unfold _store_register, time. cbn [_values loop_time clock_reads].
    rewrite dict_set_twice. now intros ->.
  - unfold _store_register, time. cbn [dispatched]. now rewrite <- app_assoc.
Qed.

(** C9 (as stated) fails: the second write refreshes [updated_at], so after
    two writes one second apart the store differs from the store after one. *)
Lemma second_write_changes_store :
  let once := _store_register 1 5 100 (new_hub tick_clock) in
  let twice := _store_register 1 5 100 once in
  _values twice <> _values once /\
  (updated_at <$> dict_get (1, 5) (_values once)) = Some (0 # 1)%Q /\
  (updated_at <$> dict_get (1, 5) (_values twice)) = Some (1 # 1)%Q /\
  ~ (1 # 1 == 0 # 1)%Q.
Proof.
  cbv zeta. repeat split; try (vm_compute; reflexivity); vm_compute; discriminate.
Qed.

(** ** Frames through the hub *)

Lemma pending_set_pending (self : ModbusSnifferHub) (unit : Z) (queue : list PendingRead) :
  pending (set_pending self unit queue) unit = queue.
Proof.
  unfold pending, set_pending. cbn [_pending_reads].
  now rewrite lookup_insert_eq.
Qed.

Lemma _store_register_effect (unit_id register value : Z) (self : ModbusSnifferHub) :
  dispatched (_store_register unit_id register value self)
  = dispatched self ++ [(unit_id, register, value)] /\
  _buffer (_store_register unit_id register value self) = _buffer self /\
  _pending_reads (_store_register unit_id register value self)
  = _pending_reads self.
Proof. repeat split. Qed.

Lemma store_registers_from (unit start_addr : Z) (values : list Z) (first : Z)
    (self : ModbusSnifferHub) :
  let self' :=
    foldl (fun self ov => _store_register unit (start_addr + ov.1) ov.2 self)
          self (zip (seqZ first (len values)) values) in
  dispatched self'
  = dispatched self ++ register_updates unit (start_addr + first) values /\
  _buffer self' = _buffer self /\
  _pending_reads self' = _pending_reads self.
Proof.
  cbv zeta. revert first self.
  induction values as [|value values IH]; intros first self.
  - simpl. now rewrite app_nil_r.
  - replace (len (value :: values)) with (Z.succ (len values))
      by (unfold len; simpl; lia).
    rewrite seqZ_cons by (pose proof (len_nonneg values); lia).
    rewrite Z.pred_succ. cbn [zip zip_with foldl fst snd register_updates].
    destruct (IH (Z.succ first) (_store_register unit (start_addr + first) value self))
      as (-> & -> & ->).
    destruct (_store_register_effect unit (start_addr + first) value self)
      as (-> & -> & ->).
    rewrite <- app_assoc. repeat split.
    do 3 f_equal. lia.
Qed.

Lemma store_registers_effect (unit start_addr : Z) (values : list Z)
    (self : ModbusSnifferHub) :
  dispatched (store_registers unit start_addr values self)
  = dispatched self ++ register_updates unit start_addr values /\
  _buffer (store_registers unit start_addr values self) = _buffer self /\
  _pending_reads (store_registers unit start_addr values self)
  = _pending_reads self.
Proof.
  pose proof (store_registers_from unit start_addr values 0 self) as Hfrom.
  cbv zeta in Hfrom. rewrite Z.add_0_r in Hfrom. exact Hfrom.
Qed.

Lemma register_updates_length (unit base : Z) (values : list Z) :
  length (register_updates unit base values) = length values.
Proof.
  revert base. induction values as [|value values IH]; intros base; simpl;
    [reflexivity | now rewrite IH].
Qed.

Lemma _pop_matching_request_frame (unit values_len : Z) (now : Q)
    (self self' : ModbusSnifferHub) (start_addr : option Z) :
  _pop_matching_request unit values_len now self = (start_addr, self') ->
  _buffer self' = _buffer self /\ dispatched self' = dispatched self.
Proof.
  unfold _pop_matching_request.
  destruct (pending _ _) as [|[[start quantity] t] rest].
  - now intros [= <- <-].
  - destruct (negb (quantity =? 0) && (quantity <? values_len));
      now intros [= <- <-].
Qed.

(** A frame of two bytes or more never raises, and handling it leaves the
    receive buffer alone. *)
Lemma _handle_frame_total (frame : bytes) (self : ModbusSnifferHub) :
  2 <= len frame ->
  exists self', _handle_frame frame self = Some self' /\ _buffer self' = _buffer self.
Proof.
  destruct frame as [|b0 [|b1 frame]]; unfold len; simpl; try lia. intros _.
  unfold _handle_frame, index. simpl.
  eexists. split; [reflexivity|].
  destruct (Z.land (b2z b1) 127 =? 3).
  { destruct (parser.parse_fc03_request _) as [[[u s] q]|]; [reflexivity|].
    destruct (parser.parse_fc03_response _) as [[u values]|]; [|reflexivity].
    destruct (_pop_matching_request _ _ _ _) as [start m] eqn:Hpop.
    rewrite (proj1 (proj2 (store_registers_effect _ _ _ _))).
    now apply _pop_matching_request_frame in Hpop as [-> _]. }
  destruct (Z.land (b2z b1) 127 =? 6).
  { destruct (parser.parse_fc06 _) as [[[u r] v]|]; reflexivity. }
  destruct (Z.land (b2z b1) 127 =? 16); [|reflexivity].
  destruct (parser.parse_fc16_request _) as [[[u s] values]|]; [|reflexivity].
  now rewrite (proj1 (proj2 (store_registers_effect _ _ _ _))).
Qed.

Lemma crc_valid_two (frame : bytes) : crc_valid frame -> 2 <= len frame.
Proof. intros [Hlen _]. lia. Qed.

Lemma handle_frames_total (frames : list bytes) (self : ModbusSnifferHub) :
  Forall crc_valid frames ->
  exists self', handle_frames frames self = Some self' /\ _buffer self' = _buffer self.
Proof.
  intros Hok. revert self. induction Hok as [|frame frames Hframe _ IH]; intros self.
  - exists self. split; reflexivity.
  - destruct (_handle_frame_total frame self (crc_valid_two _ Hframe))
      as (mid & Hmid & Hbuf).
    destruct (IH mid) as (self' & Hrest & Hbuf').
    exists self'. simpl. rewrite Hmid. simpl. split; [exact Hrest | congruence].
Qed.

(** One call of [_process_bytes] on non-empty [data]: the reconstructor is
    run on the buffer followed by [data]; the call returns, and the new
    buffer is the leftover, of at most 3 bytes. *)
Lemma _process_bytes_run (data : bytes) (self : ModbusSnifferHub) :
  data <> [] ->
  exists frames leftover self',
    parser.split_modbus_frames (_buffer self ++ data) = Some (frames, leftover) /\
    handle_frames frames (set_buffer self leftover) = Some self' /\
    _process_bytes data self = Some self' /\
    _buffer self' = leftover /\
    (length leftover <= 3)%nat.
Proof.
  intros Hdata.
  destruct (split_frames_layout parser._candidate_frame_lengths (_buffer self ++ data))
    as (frames & leftover & gaps & Hrun & _ & _ & Hok & Hleft).
  destruct (handle_frames_total frames (set_buffer self leftover) Hok)
    as (self' & Hframes & Hbuf).
  exists frames, leftover, self'. repeat split; auto.
  destruct data as [|b data]; [contradiction|].
  unfold _process_bytes, payload_of, parser.split_modbus_frames.
  rewrite Hrun. exact Hframes.
Qed.





(** ** Partial frames on the stream path *)

(** Up to 3 bytes are kept whole in the leftover: for such a [B] the
    reconstructor returns no frame and leftover [B], and on a fresh
    connection reading [B] and then [rest] is handled like reading
    [B ++ rest] at once; so the chunk [01 03 04] followed by the chunk
    [00 0A 00 14 DA 3E] yields the register updates (1, 0, 10) and
    (1, 1, 20). *)
Lemma short_partial_frame_preserved (B : bytes) :
  (length B <= 3)%nat ->
  parser.split_modbus_frames B = Some ([], B) /\
  (forall clock rest, B <> [] -> rest <> [] ->
     tcp_reads [B; rest] (new_hub clock) = tcp_reads [B ++ rest] (new_hub clock)) /\
  (forall clock,
     dispatched <$> tcp_reads [[x01; x03; x04]; [x00; x0a; x00; x14; xda; x3e]]
                      (new_hub clock)
     = Some [(1, 0, 10); (1, 1, 20)]).
Proof.
  intros Hshort.
  assert (Hsplit : parser.split_modbus_frames B = Some ([], B))
    by exact (split_frames_short parser._candidate_frame_lengths B Hshort).
  split; [exact Hsplit|]. split.
  - intros clock rest HB Hrest.
    destruct B as [|b B]; [contradiction|]. destruct rest as [|r rest]; [contradiction|].
    assert (Hfirst : _process_bytes (b :: B) (new_hub clock)
                     = Some (set_buffer (new_hub clock) (b :: B))).
    { unfold _process_bytes, payload_of. cbn [_buffer new_hub app].
      rewrite Hsplit. reflexivity. }
    cbn [tcp_reads]. rewrite Hfirst. reflexivity.
  - intros clock. vm_compute. reflexivity.
Qed.

(** C3. A trailing partial frame of 4 bytes or more is not kept whole: the
    7-byte prefix [01 03 04 00 0A 00 14] of the valid frame
    [01 03 04 00 0A 00 14 DA 3E] holds no valid frame, yet only its last 3
    bytes come back as leftover. The hub keeps that leftover for the next
    read, so no update is dispatched when the rest of the frame arrives:
    neither with the ending [5A 3D] of the scenario, which is not the CRC
    of the first seven bytes, nor with the CRC [DA 3E]. *)
Lemma partial_frame_truncated :
  let B := [x01; x03; x04; x00; x0a; x00; x14] in
  crc_validb (B ++ [xda; x3e]) = true /\
  forallb (fun s => negb (crc_validb s)) (slices_of B) = true /\
  parser.split_modbus_frames B = Some ([], [x0a; x00; x14]) /\
  parser.split_modbus_frames B <> Some ([], B) /\
  crc_validb (B ++ [x5a; x3d]) = false /\
  dispatched <$> tcp_reads [B; [x5a; x3d]] (new_hub tick_clock) = Some [] /\
  dispatched <$> tcp_reads [B; [xda; x3e]] (new_hub tick_clock) = Some [].
Proof.
  cbv zeta. repeat split; try (vm_compute; reflexivity). vm_compute. discriminate.
Qed.

(** ** FC03 responses *)

Lemma parse_fc03_response_inv (frame : bytes) (unit : Z) (values : list Z) :
  parser.parse_fc03_response frame = Some (unit, values) ->
  exists func byte_count,
    index frame 0 = Some unit /\ index frame 1 = Some func /\
    Z.land func 0x7F = 3 /\
    index (inner frame) 0 = Some byte_count /\
    values = be16_words (slice (inner frame) 1 (1 + byte_count)).
Proof.
  unfold parser.parse_fc03_response.
  destruct (len frame <? 5); [discriminate|].
  destruct (index frame 0) as [u|]; [|discriminate].
  destruct (index frame 1) as [func|]; [|discriminate]. simpl.
  destruct (Z.eqb_spec (Z.land func 127) 3) as [Hfc|]; [|discriminate]. simpl.
  destruct (Z.land func 128 =? 0); [|discriminate]. simpl.
  destruct (index (inner frame) 0) as [byte_count|]; [|discriminate].
  rewrite register_values_words.
  destruct (be16_words _) as [|v vs] eqn:Hvalues; [discriminate|].
  intros [= <- <-]. exists func, byte_count. auto.
Qed.

(** How [_handle_frame] treats a frame that reaches the response branch. *)
Lemma _handle_frame_response (frame : bytes) (self : ModbusSnifferHub)
    (unit : Z) (values : list Z) :
  parser.parse_fc03_request frame = None ->
  parser.parse_fc03_response frame = Some (unit, values) ->
  let now := loop_time self (clock_reads self) in
  let popped := _pop_matching_request unit (len values) now (time self).2 in
  _handle_frame frame self
  = Some (store_registers unit (default 0 popped.1) values popped.2).
Proof.
  intros Hreq Hresp. cbv zeta.
  destruct (parse_fc03_response_inv _ _ _ Hresp)
    as (func & byte_count & Hunit & Hfunc & Hfc & _).
  unfold _handle_frame. rewrite Hunit, Hfunc. simpl. rewrite Hfc. simpl.
  rewrite Hreq, Hresp.
  destruct (_pop_matching_request _ _ _ _) as [start m]. reflexivity.
Qed.

(** C6. A frame handled as an FC03 response dispatches one update per 16-bit
    value it carries, the complete big-endian pairs among the payload bytes
    covered by its byte count, each at the next register from the base
    address; the number of updates is the number of those values. *)
Theorem fc03_response_updates (frame : bytes) (self : ModbusSnifferHub)
    (unit : Z) (values : list Z) :
  parser.parse_fc03_request frame = None ->
  parser.parse_fc03_response frame = Some (unit, values) ->
  exists self' base byte_count,
    _handle_frame frame self = Some self' /\
    index (inner frame) 0 = Some byte_count /\
    values = be16_words (slice (inner frame) 1 (1 + byte_count)) /\
    dispatched self' = dispatched self ++ register_updates unit base values /\
    length (register_updates unit base values)
    = (length (slice (inner frame) 1 (1 + byte_count)) / 2)%nat.
Proof.
  intros Hreq Hresp.
  pose proof (_handle_frame_response frame self unit values Hreq Hresp) as Hrun.
  cbv zeta in Hrun.
  destruct (parse_fc03_response_inv _ _ _ Hresp)
    as (func & byte_count & _ & _ & _ & Hcount & Hvalues).
  destruct (_pop_matching_request unit (len values)
              (loop_time self (clock_reads self)) (time self).2)
    as [start m] eqn:Hpop.
  apply _pop_matching_request_frame in Hpop as [_ Hsame].
  exists (store_registers unit (default 0 start) values m), (default 0 start), byte_count.
  repeat split; auto.
  - rewrite (proj1 (store_registers_effect _ _ _ _)). now rewrite Hsame.
  - rewrite register_updates_length, Hvalues. apply be16_words_length.
Qed.

Lemma fc03_response_updates_witness :
  let frame := [x01; x03; x04; x00; x0a; x00; x14; xda; x3e] in
  parser.parse_fc03_request frame = None /\
  parser.parse_fc03_response frame = Some (1, [10; 20]) /\
  exists self' base byte_count,
    _handle_frame frame (new_hub tick_clock) = Some self' /\
    index (inner frame) 0 = Some byte_count /\
    [10; 20] = be16_words (slice (inner frame) 1 (1 + byte_count)) /\
    dispatched self'
    = dispatched (new_hub tick_clock) ++ register_updates 1 base [10; 20] /\
    length (register_updates 1 base [10; 20])
    = (length (slice (inner frame) 1 (1 + byte_count)) / 2)%nat.
Proof.
  cbv zeta. split; [vm_compute; reflexivity|]. split; [vm_compute; reflexivity|].
  apply (fc03_response_updates [x01; x03; x04; x00; x0a; x00; x14; xda; x3e]
           (new_hub tick_clock) 1 [10; 20]); vm_compute; reflexivity.
Defined.

(** ** The correlator *)

Lemma purge_drop (now : Q) (queue : list PendingRead) :
  exists k, purge now queue = drop k queue /\
            forall entry, head (purge now queue) = Some entry -> stale now entry = false.
Proof.
  induction queue as [|entry queue (k & Hk & Hhead)]; simpl.
  - exists 0%nat. split; [reflexivity | discriminate].
  - destruct (stale now entry) eqn:Hstale.
    + exists (S k). auto.
    + exists 0%nat. split; [reflexivity|]. now intros e [= <-].
Qed.

Lemma _pop_matching_request_purged (unit values_len : Z) (now : Q)
    (self : ModbusSnifferHub) :
  _pop_matching_request unit values_len now self
  = match purge now (pending self unit) with
    | [] => (None, _purge_old_requests unit now self)
    | (start_addr, _, _) :: rest =>
        (Some start_addr, set_pending (_purge_old_requests unit now self) unit rest)
    end.
Proof.
  unfold _pop_matching_request.
  unfold _purge_old_requests at 1. rewrite pending_set_pending.
  destruct (purge now (pending self unit)) as [|[[start quantity] t] rest];
    [reflexivity|].
  destruct (negb (quantity =? 0) && (quantity <? values_len)); reflexivity.
Qed.

Lemma stale_false (now : Q) (entry : PendingRead) :
  stale now entry = false <-> (now - entry.2 <= 5)%Q.
Proof.
  unfold stale. rewrite negb_false_iff. apply Qle_bool_iff.
Qed.

(** In a FIFO whose arrival times never decrease, as the monotonic clock
    fills it, the purge removes every entry older than 5 seconds. *)
Lemma purge_sorted_fresh (now : Q) (queue : list PendingRead) :
  StronglySorted (fun a b : PendingRead => (a.2 <= b.2)%Q) queue ->
  Forall (fun entry : PendingRead => (now - entry.2 <= 5)%Q) (purge now queue).
Proof.
  induction 1 as [|entry queue _ IH Hlater]; simpl; [constructor|].
  destruct (stale now entry) eqn:Hstale; [exact IH|].
  apply stale_false in Hstale. constructor; [exact Hstale|].
  eapply Forall_impl; [exact Hlater|]. intros later Hle. simpl in Hle. lra.
Qed.

(** C8. The request used as base address by [_pop_matching_request] at time
    [now] is the entry at some position [k] of the unit's FIFO whose age is
    at most 5 seconds: the entries before it are dropped with it, and no
    entry appended at a time [t] with [t + 5.001 <= now] is the one used. *)
Theorem stale_request_not_used (unit values_len : Z) (now : Q)
    (self self' : ModbusSnifferHub) (start_addr : Z) :
  _pop_matching_request unit values_len now self = (Some start_addr, self') ->
  exists k quantity t,
    pending self unit !! k = Some (start_addr, quantity, t) /\
    (now - t <= 5)%Q /\
    pending self' unit = drop (S k) (pending self unit) /\
    forall j entry,
      pending self unit !! j = Some entry ->
      (entry.2 + (5001 # 1000) <= now)%Q -> j <> k.
Proof.
  rewrite _pop_matching_request_purged.
  destruct (purge_drop now (pending self unit)) as (k & Hk & Hhead).
  destruct (purge now (pending self unit)) as [|[[start quantity] t] rest] eqn:Hq;
    [discriminate|].
  intros [= -> <-].
  assert (Hat : pending self unit !! k = Some (start_addr, quantity, t)).
  { pose proof (lookup_drop (pending self unit) k 0) as Hlook.
    rewrite Nat.add_0_r, <- Hk in Hlook. exact (eq_sym Hlook). }
  assert (Hage : (now - t <= 5)%Q).
  { apply (stale_false now (start_addr, quantity, t)), Hhead. reflexivity. }
  exists k, quantity, t. repeat split; auto.
  - rewrite pending_set_pending.
    pose proof (eq_trans Hk (drop_S _ _ _ Hat)) as Hrest. now injection Hrest.
  - intros j entry Hj Hold ->. rewrite Hat in Hj. injection Hj as <-.
    simpl in Hold. lra.
Qed.

Lemma stale_request_not_used_witness :
  let self := set_pending (new_hub tick_clock) 1 [(0, 2, (0 # 1)%Q); (7, 1, (8 # 1)%Q)] in
  let self' := (_pop_matching_request 1 1 (10 # 1)%Q self).2 in
  _pop_matching_request 1 1 (10 # 1)%Q self = (Some 7, self') /\
  exists (k : nat) (quantity : Z) (t : Q),
    pending self 1 !! k = Some (7, quantity, t) /\
    ((10 # 1) - t <= 5)%Q /\
    pending self' 1 = drop (S k) (pending self 1) /\
    forall j entry,
      pending self 1 !! j = Some entry ->
      (entry.2 + (5001 # 1000) <= (10 # 1))%Q -> j <> k.
Proof.
  cbv zeta. split; [vm_compute; reflexivity|].
  apply (stale_request_not_used 1 1 (10 # 1)%Q
           (set_pending (new_hub tick_clock) 1 [(0, 2, (0 # 1)%Q); (7, 1, (8 # 1)%Q)])).
  vm_compute. reflexivity.
Defined.

(** The time-to-live end to end: a response handled six seconds after the
    only pending request is not given that request's start address. *)
Example response_after_ttl :
  dispatched <$> tcp_reads
    [[x01; x03; x00; x05; x00; x02; xd4; x0a;
      x01; x03; x04; x00; x0a; x00; x14; xda; x3e]] (new_hub slow_clock)
  = Some [(1, 0, 10); (1, 1, 20)] /\
  dispatched <$> tcp_reads
    [[x01; x03; x00; x05; x00; x02; xd4; x0a;
      x01; x03; x04; x00; x0a; x00; x14; xda; x3e]] (new_hub tick_clock)
  = Some [(1, 5, 10); (1, 6, 20)].
Proof. split; vm_compute; reflexivity. Qed.

(** C7 (as amended). When an FC03 response arrives for a unit whose FIFO is
    empty after purging, its values are assigned to consecutive registers
    from base address 0. The updates dispatched are plain (unit, register,
    value) triples, the same as those of a response matched with a request
    that started at 0: nothing on them records that correlation was lost.
    E.g. [02 03 02 00 FF BC 04] yields exactly one update (2, 0, 255). *)
Theorem uncorrelated_response_base_0 (frame : bytes) (self : ModbusSnifferHub)
    (unit : Z) (values : list Z) :
  parser.parse_fc03_request frame = None ->
  parser.parse_fc03_response frame = Some (unit, values) ->
  purge (loop_time self (clock_reads self)) (pending self unit) = [] ->
  exists self',
    _handle_frame frame self = Some self' /\
    dispatched self' = dispatched self ++ register_updates unit 0 values /\
    (forall other quantity t rest,
       purge (loop_time other (clock_reads other)) (pending other unit)
       = (0, quantity, t) :: rest ->
       exists other',
         _handle_frame frame other = Some other' /\
         dispatched other' = dispatched other ++ register_updates unit 0 values) /\
    (forall clock,
       dispatched <$> _process_bytes [x02; x03; x02; x00; xff; xbc; x04] (new_hub clock)
       = Some [(2, 0, 255)]).
Proof.
  intros Hreq Hresp Hempty.
  assert (Hrun : forall hub0 : ModbusSnifferHub,
             exists popped,
               _pop_matching_request unit (len values)
                 (loop_time hub0 (clock_reads hub0)) (time hub0).2 = popped /\
               dispatched popped.2 = dispatched hub0 /\
               _handle_frame frame hub0
               = Some (store_registers unit (default 0 popped.1) values popped.2)).
  { intros hub0. eexists. split; [reflexivity|]. split.
    - destruct (_pop_matching_request _ _ _ _) as [start m] eqn:Hpop.
      cbn [snd]. now apply _pop_matching_request_frame in Hpop as [_ ->].
    - now apply _handle_frame_response. }
  destruct (Hrun self) as (popped & Hpop & Hsame & Hself).
  rewrite _pop_matching_request_purged in Hpop.
  change (pending (time self).2 unit) with (pending self unit) in Hpop.
  rewrite Hempty in Hpop. subst popped.
  eexists. split; [exact Hself|]. split; [|split].
  - now rewrite (proj1 (store_registers_effect _ _ _ _)), Hsame.
  - intros other quantity t rest Hhead.
    destruct (Hrun other) as (popped & Hpop & Hsame' & Hother).
    rewrite _pop_matching_request_purged in Hpop.
    change (pending (time other).2 unit) with (pending other unit) in Hpop.
    rewrite Hhead in Hpop. subst popped.
    eexists. split; [exact Hother|].
    now rewrite (proj1 (store_registers_effect _ _ _ _)), Hsame'.
  - intros clock. vm_compute. reflexivity.
Qed.

Lemma uncorrelated_response_base_0_witness :
  let frame := [x02; x03; x02; x00; xff; xbc; x04] in
  let self := new_hub tick_clock in
  parser.parse_fc03_request frame = None /\
  parser.parse_fc03_response frame = Some (2, [255]) /\
  purge (loop_time self (clock_reads self)) (pending self 2) = [] /\
  exists self',
    _handle_frame frame self = Some self' /\
    dispatched self' = dispatched self ++ register_updates 2 0 [255] /\
    (forall other quantity t rest,
       purge (loop_time other (clock_reads other)) (pending other 2)
       = (0, quantity, t) :: rest ->
       exists other',
         _handle_frame frame other = Some other' /\
         dispatched other' = dispatched other ++ register_updates 2 0 [255]) /\
    (forall clock,
       dispatched <$> _process_bytes [x02; x03; x02; x00; xff; xbc; x04] (new_hub clock)
       = Some [(2, 0, 255)]).
Proof.
  cbv zeta. repeat (split; [vm_compute; reflexivity|]).
  apply (uncorrelated_response_base_0 [x02; x03; x02; x00; xff; xbc; x04]
           (new_hub tick_clock) 2 [255]); vm_compute; reflexivity.
Defined.

(** C7 (as stated) fails. The bytes [02 03 02 00 FF F8 45] do not end with
    the CRC of the first five, so no frame and no update come out of them;
    and with the right CRC the update of the uncorrelated response is the
    very update of a response that follows a request for register 0: no
    flag tells them apart. *)
Lemma correlation_loss_not_flagged :
  crc_validb [x02; x03; x02; x00; xff; xf8; x45] = false /\
  dispatched <$> _process_bytes [x02; x03; x02; x00; xff; xf8; x45] (new_hub tick_clock)
  = Some [] /\
  dispatched <$> _process_bytes [x02; x03; x02; x00; xff; xbc; x04] (new_hub tick_clock)
  = Some [(2, 0, 255)] /\
  dispatched <$> _process_bytes
    [x02; x03; x00; x00; x00; x01; x84; x39; x02; x03; x02; x00; xff; xbc; x04]
    (new_hub tick_clock)
  = Some [(2, 0, 255)].
Proof. repeat split; vm_compute; reflexivity. Qed.

(** * Further properties of the parser *)

Lemma b2z_z2b_byte (z : Z) : 0 <= z < 256 -> b2z (z2b z) = z.
Proof. intros Hz. rewrite b2z_z2b. now apply Z.mod_small. Qed.

Lemma from_bytes_big_be16 (z : Z) : 0 <= z < 65536 -> from_bytes_big (be16 z) = z.
Proof.
  intros Hz. unfold from_bytes_big, be16. simpl. rewrite !b2z_z2b.
  rewrite (Z.mod_small (z / 256)).
  - rewrite (Z.div_mod z 256) at 3 by lia. lia.
  - split; [apply Z.div_pos | apply Z.div_lt_upper_bound]; lia.
Qed.

Lemma be16_words_encode (values : list Z) :
  Forall (fun v => 0 <= v < 65536) values ->
  be16_words (concat (be16 <$> values)) = values.
Proof.
  induction 1 as [|v values Hv _ IH]; [reflexivity|].
  rewrite fmap_cons. cbn [concat]. change (be16 v ++ ?r) with
    (z2b (v / 256) :: z2b v :: r).
  cbn [be16_words]. rewrite IH. f_equal. now apply from_bytes_big_be16.
Qed.

Lemma inner_framed (body : bytes) :
  (2 <= length body)%nat -> inner (framed body) = drop 2 body.
Proof.
  intros Hbody. unfold inner, framed. rewrite length_app.
  change (length (crc_le body)) with 2%nat.
  replace (length body + 2 - 2 - 2)%nat with (length (drop 2 body))
    by (rewrite length_drop; lia).
  rewrite drop_app_le by lia. apply take_app_length.
Qed.

Lemma framed_valid (body : bytes) : (2 <= length body)%nat -> crc_valid (framed body).
Proof. intros Hbody. apply crc_le_valid. unfold len. lia. Qed.

Lemma len_framed (body : bytes) : len (framed body) = len body + 2.
Proof. unfold len, framed. rewrite length_app. change (length (crc_le body)) with 2%nat. lia. Qed.

Lemma index_framed_0 (b0 : byte) (rest : bytes) :
  index (framed (b0 :: rest)) 0 = Some (b2z b0).
Proof. reflexivity. Qed.

Lemma index_framed_1 (b0 b1 : byte) (rest : bytes) :
  index (framed (b0 :: b1 :: rest)) 1 = Some (b2z b1).
Proof. reflexivity. Qed.

Lemma concat_be16_length (values : list Z) :
  length (concat (be16 <$> values)) = (2 * length values)%nat.
Proof.
  induction values as [|v values IH]; [reflexivity|].
  rewrite fmap_cons. cbn [concat]. rewrite length_app, IH. simpl. lia.
Qed.

(** X1. A well-formed FC03 request is read back as its unit, start address
    and quantity, and passes the CRC test of the reconstructor. *)
Theorem fc03_request_round_trip (unit start_addr quantity : Z) :
  0 <= unit < 256 -> 0 <= start_addr < 65536 -> 0 <= quantity < 65536 ->
  parser.parse_fc03_request (fc03_request_frame unit start_addr quantity)
  = Some (unit, start_addr, quantity) /\
  crc_valid (fc03_request_frame unit start_addr quantity).
Proof.
  intros Hu Hs Hq. split; [|apply framed_valid; simpl; lia].
  unfold parser.parse_fc03_request, fc03_request_frame.
  rewrite len_framed. change (len _ + 2 <? 8) with false. cbv iota.
  cbn [app]. rewrite index_framed_0, index_framed_1. simpl mbind.
  rewrite b2z_z2b_byte by exact Hu. change (b2z x03) with 3.
  change (negb (Z.land 3 127 =? 3) || negb (Z.land 3 128 =? 0)) with false.
  cbv iota. rewrite inner_framed by (simpl; lia).
  change (drop 2 (z2b unit :: x03 :: be16 start_addr ++ be16 quantity))
    with (be16 start_addr ++ be16 quantity).
  change (negb (len (be16 start_addr ++ be16 quantity) =? 4)) with false.
  cbv iota.
  change (Some (unit, from_bytes_big (be16 start_addr), from_bytes_big (be16 quantity))
          = Some (unit, start_addr, quantity)).
  now rewrite !from_bytes_big_be16.
Qed.

Lemma fc03_request_round_trip_witness :
  0 <= 1 < 256 /\ 0 <= 5 < 65536 /\ 0 <= 2 < 65536 /\
  parser.parse_fc03_request (fc03_request_frame 1 5 2) = Some (1, 5, 2) /\
  crc_valid (fc03_request_frame 1 5 2).
Proof.
  split; [lia|]. split; [lia|]. split; [lia|].
  apply (fc03_request_round_trip 1 5 2); lia.
Defined.

(** X2. A well-formed FC03 response carrying 1 to 127 values is read back as
    its unit and values, and is never taken for a request. *)
Theorem fc03_response_round_trip (unit : Z) (values : list Z) :
  0 <= unit < 256 ->
  (1 <= length values <= 127)%nat ->
  Forall (fun v => 0 <= v < 65536) values ->
  parser.parse_fc03_response (fc03_response_frame unit values) = Some (unit, values) /\
  parser.parse_fc03_request (fc03_response_frame unit values) = None /\
  crc_valid (fc03_response_frame unit values).
Proof.
  intros Hu Hn Hvalues.
  set (data := concat (be16 <$> values)).
  assert (Hdata : length data = (2 * length values)%nat) by apply concat_be16_length.
  assert (Hinner : inner (fc03_response_frame unit values)
                   = z2b (2 * len values) :: data).
  { unfold fc03_response_frame. rewrite inner_framed by (simpl; lia). reflexivity. }
  assert (Hlen : len (fc03_response_frame unit values) = 5 + 2 * len values).
  { unfold fc03_response_frame. rewrite len_framed. unfold len. cbn [app length].
    fold data. rewrite Hdata. lia. }
  assert (Hcount : b2z (z2b (2 * len values)) = 2 * len values).
  { apply b2z_z2b_byte. unfold len. lia. }
  assert (Hunit : index (fc03_response_frame unit values) 0 = Some unit).
  { unfold fc03_response_frame. cbn [app]. rewrite index_framed_0.
    now rewrite b2z_z2b_byte. }
  assert (Hfunc : index (fc03_response_frame unit values) 1 = Some 3).
  { unfold fc03_response_frame. cbn [app]. now rewrite index_framed_1. }
  split; [|split].
  - unfold parser.parse_fc03_response. rewrite Hlen, Hunit, Hfunc, Hinner.
    destruct (Z.ltb_spec (5 + 2 * len values) 5) as [Hlt|_];
      [unfold len in Hlt; lia|].
    simpl mbind.
    change (negb (Z.land 3 127 =? 3) || negb (Z.land 3 128 =? 0)) with false.
    cbv iota.
    change (index (z2b (2 * len values) :: data) 0)
      with (Some (b2z (z2b (2 * len values)))).
    rewrite Hcount, register_values_words.
    replace (slice (z2b (2 * len values) :: data) 1 (1 + 2 * len values)) with data.
    2:{ unfold slice. change (Z.to_nat 1) with 1%nat. cbn [drop].
        rewrite drop_0, take_ge; [reflexivity|]. rewrite Hdata. unfold len. lia. }
    subst data. rewrite be16_words_encode by exact Hvalues.
    destruct values; [simpl in Hn; lia | reflexivity].
  - unfold parser.parse_fc03_request. rewrite Hlen, Hunit, Hfunc, Hinner.
    destruct (5 + 2 * len values <? 8); [reflexivity|].
    assert (Hodd : (len (z2b (2 * len values) :: data) =? 4) = false).
    { apply Z.eqb_neq. unfold len. cbn [length]. rewrite Hdata. lia. }
    cbn [mbind option_bind].
    change (negb (Z.land 3 127 =? 3) || negb (Z.land 3 128 =? 0)) with false.
    cbv iota. now rewrite Hodd.
  - apply framed_valid. simpl. lia.
Qed.

Lemma fc03_response_round_trip_witness :
  0 <= 1 < 256 /\ (1 <= length [10; 20] <= 127)%nat /\
  Forall (fun v => 0 <= v < 65536) [10; 20] /\
  parser.parse_fc03_response (fc03_response_frame 1 [10; 20]) = Some (1, [10; 20]) /\
  parser.parse_fc03_request (fc03_response_frame 1 [10; 20]) = None /\
  crc_valid (fc03_response_frame 1 [10; 20]).
Proof.
  assert (Hv : Forall (fun v => 0 <= v < 65536) [10; 20])
    by (repeat constructor; lia).
  split; [lia|]. split; [simpl; lia|]. split; [exact Hv|].
  apply (fc03_response_round_trip 1 [10; 20]); [lia | simpl; lia | exact Hv].
Defined.

(** ** More on the scan loop *)

Lemma first_valid_member (data : bytes) (idx n : Z) (candidates : list Z)
    (frame : bytes) (length : Z) :
  first_valid data idx n candidates = Some (frame, length) -> length ∈ candidates.
Proof.
  induction candidates as [|c rest IH]; simpl; [discriminate|].
  destruct (n <? idx + c); [intros H; right; auto|].
  destruct (len (slice data idx (idx + c)) <? 4); [intros H; right; auto|].
  destruct (compute_crc _ =? from_bytes_little _); [|intros H; right; auto].
  intros [= <- <-]. left.
Qed.

Lemma first_valid_shift (prefix data : bytes) (idx n : Z) (candidates : list Z) :
  0 <= idx ->
  first_valid (prefix ++ data) (len prefix + idx) (len prefix + n) candidates
  = first_valid data idx n candidates.
Proof.
  intros Hidx. induction candidates as [|c rest IH]; simpl; [reflexivity|].
  replace (len prefix + n <? len prefix + idx + c) with (n <? idx + c)
    by (destruct (Z.ltb_spec n (idx + c)), (Z.ltb_spec (len prefix + n) (len prefix + idx + c));
        lia || reflexivity).
  replace (slice (prefix ++ data) (len prefix + idx) (len prefix + idx + c))
    with (slice data idx (idx + c)).
  { now rewrite IH. }
  unfold slice, len.
  replace (Z.to_nat (Z.of_nat (length prefix) + idx))
    with (length prefix + Z.to_nat idx)%nat by lia.
  rewrite drop_app_add.
  f_equal. lia.
Qed.

Section ScanMore.

Variable candidate_frame_lengths : option Z -> Z -> list Z.

(** Once there is enough fuel, more fuel changes nothing. *)
Lemma split_loop_fuel (fuel fuel' : nat) (data : bytes) (n idx : Z) (frames : list bytes) :
  n - idx <= Z.of_nat fuel -> n - idx <= Z.of_nat fuel' ->
  split_loop candidate_frame_lengths fuel data n idx frames = split_loop candidate_frame_lengths fuel' data n idx frames.
Proof.
  revert fuel' idx frames.
  induction fuel as [|fuel IH]; intros [|fuel'] idx frames Hfuel Hfuel'; simpl;
    destruct (Z.leb_spec (idx + 4) n) as [Hgo|Hstop]; try reflexivity; try lia.
  destruct (first_valid _ _ _ _) as [[frame length]|] eqn:Hfound.
  - apply first_valid_sound in Hfound as (_ & Hlen & _). apply IH; lia.
  - apply IH; lia.
Qed.

(** The frames found are appended to those already collected. *)
Lemma split_loop_acc (fuel : nat) (data : bytes) (n idx : Z) (frames : list bytes) :
  split_loop candidate_frame_lengths fuel data n idx frames
  = (fun r => (frames ++ r.1, r.2)) <$> split_loop candidate_frame_lengths fuel data n idx [].
Proof.
  revert idx frames.
  induction fuel as [|fuel IH]; intros idx frames; simpl;
    destruct (idx + 4 <=? n); try reflexivity.
  - simpl. now rewrite app_nil_r.
  - destruct (first_valid _ _ _ _) as [[frame length]|].
    + rewrite IH. rewrite (IH _ ([] ++ [frame])).
      destruct (split_loop _ _ _ _ _ []) as [[found leftover]|]; simpl;
        [now rewrite <- app_assoc | reflexivity].
    + apply IH.
  - simpl. now rewrite app_nil_r.
Qed.

(** Scanning from a cursor inside [prefix ++ data] past [prefix] is scanning
    [data]. *)
Lemma split_loop_shift (fuel : nat) (prefix data : bytes) (idx : Z) (frames : list bytes) :
  0 <= idx ->
  split_loop candidate_frame_lengths fuel (prefix ++ data) (len prefix + len data) (len prefix + idx) frames
  = split_loop candidate_frame_lengths fuel data (len data) idx frames.
Proof.
  revert idx frames.
  induction fuel as [|fuel IH]; intros idx frames Hidx; simpl.
  - replace (len prefix + idx + 4 <=? len prefix + len data) with (idx + 4 <=? len data)
      by (destruct (Z.leb_spec (idx + 4) (len data)),
            (Z.leb_spec (len prefix + idx + 4) (len prefix + len data)); lia || reflexivity).
    destruct (idx + 4 <=? len data); [reflexivity|].
    unfold slice_from, len.
    replace (Z.to_nat (Z.of_nat (length prefix) + idx))
      with (length prefix + Z.to_nat idx)%nat by lia.
    now rewrite drop_app_add.
  - replace (len prefix + idx + 4 <=? len prefix + len data) with (idx + 4 <=? len data)
      by (destruct (Z.leb_spec (idx + 4) (len data)),
            (Z.leb_spec (len prefix + idx + 4) (len prefix + len data)); lia || reflexivity).
    destruct (idx + 4 <=? len data).
    + replace (len prefix + idx + 1 <? len prefix + len data) with (idx + 1 <? len data)
        by (destruct (Z.ltb_spec (idx + 1) (len data)),
              (Z.ltb_spec (len prefix + idx + 1) (len prefix + len data)); lia || reflexivity).
      replace (index (prefix ++ data) (len prefix + idx + 1)) with (index data (idx + 1)).
      2:{ unfold index, len.
          destruct (Z.ltb_spec (idx + 1) 0), (Z.ltb_spec (Z.of_nat (length prefix) + idx + 1) 0);
            try lia.
          replace (Z.to_nat (Z.of_nat (length prefix) + idx + 1))
            with (length prefix + Z.to_nat (idx + 1))%nat by lia.
          f_equal. symmetry. etransitivity; [apply lookup_app_r; lia|]. f_equal. lia. }
      replace (len prefix + len data - (len prefix + idx)) with (len data - idx) by lia.
      rewrite first_valid_shift by exact Hidx.
      destruct (first_valid _ _ _ _) as [[frame length]|] eqn:Hfound.
      * apply first_valid_sound in Hfound as (_ & Hlen & _).
        rewrite <- Z.add_assoc. apply IH. lia.
      * rewrite <- Z.add_assoc. apply IH. lia.
    + unfold slice_from, len.
      replace (Z.to_nat (Z.of_nat (length prefix) + idx))
        with (length prefix + Z.to_nat idx)%nat by lia.
      now rewrite drop_app_add.
Qed.

(** When the first candidate tried at the head of the buffer is the length
    of a CRC-valid frame standing there, that frame is emitted and the scan
    goes on right after it. *)
Lemma split_frames_head (frame rest : bytes) (func : Z) (others : list Z) :
  crc_valid frame ->
  index frame 1 = Some func ->
  candidate_frame_lengths (Some func) (Z.min 256 (len (frame ++ rest)))
  = len frame :: others ->
  split_frames candidate_frame_lengths (frame ++ rest)
  = (fun r => (frame :: r.1, r.2)) <$> split_frames candidate_frame_lengths rest.
Proof.
  intros [Hfour Hcrc] Hfunc Hcands. unfold split_frames.
  assert (Hlen : len (frame ++ rest) = len frame + len rest)
    by (unfold len; rewrite length_app; lia).
  destruct (length (frame ++ rest)) as [|fuel] eqn:Hfuel.
  { unfold len in *. rewrite length_app in Hfuel. lia. }
  cbn [split_loop].
  destruct (Z.leb_spec (0 + 4) (len (frame ++ rest))) as [_|Hshort];
    [|pose proof (len_nonneg rest); lia].
  destruct (Z.ltb_spec (0 + 1) (len (frame ++ rest))) as [_|Hshort];
    [|pose proof (len_nonneg rest); lia].
  replace (index (frame ++ rest) (0 + 1)) with (Some func).
  2:{ symmetry. revert Hfunc. unfold index. simpl.
      change (Z.to_nat 1) with 1%nat. change (Z.to_nat (0 + 1)) with 1%nat.
      destruct (frame !! 1%nat) as [b|] eqn:Hb; [|discriminate].
      intros [= <-]. now rewrite (lookup_app_l_Some _ _ _ _ Hb). }
  rewrite Z.sub_0_r, Hcands. cbn [first_valid].
  assert (Hslice : slice (frame ++ rest) 0 (0 + len frame) = frame).
  { unfold slice, len.
    replace (Z.to_nat (0 + Z.of_nat (length frame) - 0)) with (length frame) by lia.
    change (Z.to_nat 0) with 0%nat. rewrite drop_0. apply take_app_length. }
  destruct (Z.ltb_spec (len (frame ++ rest)) (0 + len frame)) as [Hbad|_];
    [pose proof (len_nonneg rest); lia|].
  rewrite Hslice.
  destruct (Z.ltb_spec (len frame) 4) as [Hbad|_]; [lia|].
  rewrite Hcrc, Z.eqb_refl. cbn [app].
  rewrite split_loop_acc.
  rewrite Hlen.
  replace (0 + len frame) with (len frame + 0) by lia.
  rewrite split_loop_shift by lia.
  rewrite (split_loop_fuel fuel (length rest)).
  - destruct (split_loop _ _ _ _ _ _) as [[found leftover]|]; reflexivity.
  - unfold len in *. rewrite length_app in Hfuel. lia.
  - unfold len. lia.
Qed.

(** When the candidate lists never exceed [max_len], no emitted frame is
    longer than 256 bytes. *)
Lemma split_loop_frame_lengths (fuel : nat) (data : bytes) (idx : Z)
    (frames result : list bytes) (leftover : bytes) :
  (forall func max_len, Forall (fun length => length <= max_len)
                               (candidate_frame_lengths func max_len)) ->
  0 <= idx ->
  Forall (fun frame => 4 <= len frame <= 256) frames ->
  split_loop candidate_frame_lengths fuel data (len data) idx frames = Some (result, leftover) ->
  Forall (fun frame => 4 <= len frame <= 256) result.
Proof.
  intros Hbound. revert idx frames.
  induction fuel as [|fuel IH]; intros idx frames Hidx Hframes; simpl;
    destruct (Z.leb_spec (idx + 4) (len data)) as [Hgo|Hstop]; try discriminate;
    try (now intros [= <- <-]).
  destruct (first_valid _ _ _ _) as [[frame length]|] eqn:Hfound.
  - pose proof (first_valid_member _ _ _ _ _ _ Hfound) as Hin.
    apply first_valid_sound in Hfound as (Hfit & Hlen & Hframe & Hvalid).
    pose proof (Hbound (if idx + 1 <? len data then index data (idx + 1) else None)
                  (Z.min 256 (len data - idx))) as Hall.
    rewrite Forall_forall in Hall. specialize (Hall _ Hin). cbv beta in Hall.
    apply IH; [lia|]. apply Forall_app. split; [exact Hframes|].
    constructor; [|constructor]. subst frame. unfold slice, len in *.
    rewrite length_take, length_drop. lia.
  - apply IH; [lia | exact Hframes].
Qed.

End ScanMore.

(** ** Candidate lengths *)

Lemma sorted_filter_elem (p : Z -> bool) (s : gset Z) (x : Z) :
  x ∈ sorted_filter p s <-> x ∈ s /\ p x = true.
Proof.
  unfold sorted_filter. rewrite merge_sort_Permutation.
  rewrite list_elem_of_In, filter_In, <- list_elem_of_In, elem_of_elements.
  reflexivity.
Qed.

Lemma strictly_ascending (l : list Z) :
  StronglySorted Z.le l -> NoDup l -> StronglySorted Z.lt l.
Proof.
  induction 1 as [|x l _ IH Hall]; intros Hnodup; [constructor|].
  apply NoDup_cons in Hnodup as [Hx Hnodup]. constructor; [now apply IH|].
  rewrite Forall_forall in Hall |- *. intros y Hy.
  specialize (Hall y Hy). assert (x <> y) by (intros ->; contradiction). lia.
Qed.

Lemma sorted_filter_ascending (p : Z -> bool) (s : gset Z) :
  StronglySorted Z.lt (sorted_filter p s).
Proof.
  apply strictly_ascending.
  - apply StronglySorted_merge_sort; apply _.
  - unfold sorted_filter. rewrite merge_sort_Permutation.
    apply NoDup_ListNoDup, List.NoDup_filter, NoDup_ListNoDup, NoDup_elements.
Qed.

Lemma range_ascending (lo hi : Z) : StronglySorted Z.lt (range lo hi).
Proof.
  unfold range. remember (Z.to_nat (hi - lo)) as k eqn:Hk.
  revert lo Hk. induction k as [|k IH]; intros lo Hk.
  - rewrite seqZ_nil by lia. constructor.
  - rewrite seqZ_cons by lia. constructor.
    + replace (Z.pred (hi - lo)) with (hi - Z.succ lo) by lia. apply IH. lia.
    + apply Forall_seqZ. intros x Hx. lia.
Qed.

Lemma parser_candidates_bounded (function_code : option Z) (max_len : Z) :
  Forall (fun length => 4 <= length <= max_len)
         (parser._candidate_frame_lengths function_code max_len).
Proof.
  destruct function_code as [function_code|]; simpl.
  - apply Forall_forall. intros x [_ Hx]%sorted_filter_elem. lia.
  - unfold range. apply Forall_seqZ. intros x Hx. lia.
Qed.

(** X3. The candidate lengths of the parser all lie between 4 and [max_len]
    and come in strictly ascending order, whatever the function byte. *)
Theorem candidate_lengths_bounded_ascending (function_code : option Z) (max_len : Z) :
  Forall (fun length => 4 <= length <= max_len)
         (parser._candidate_frame_lengths function_code max_len) /\
  StronglySorted Z.lt (parser._candidate_frame_lengths function_code max_len).
Proof.
  split; [apply parser_candidates_bounded|].
  destruct function_code as [function_code|]; simpl.
  - apply sorted_filter_ascending.
  - apply range_ascending.
Qed.

(** X4. Every frame emitted by [split_modbus_frames] is 4 to 256 bytes long. *)
Theorem emitted_frames_4_to_256 (B : bytes) :
  exists frames leftover,
    parser.split_modbus_frames B = Some (frames, leftover) /\
    Forall (fun frame => 4 <= len frame <= 256) frames.
Proof.
  destruct (split_frames_layout parser._candidate_frame_lengths B)
    as (frames & leftover & _ & Hrun & _).
  exists frames, leftover. split; [exact Hrun|].
  eapply (split_loop_frame_lengths parser._candidate_frame_lengths);
    [| |constructor|exact Hrun]; [|lia].
  intros func max_len.
  eapply Forall_impl; [apply parser_candidates_bounded|].
  intros length Hlength. simpl in Hlength. lia.
Qed.

(** The write-single function codes have the single candidate 8. *)
Lemma write_single_candidates (func max_len : Z) :
  Z.land func 0x7F = 5 \/ Z.land func 0x7F = 6 -> 8 <= max_len ->
  parser._candidate_frame_lengths (Some func) max_len = [8].
Proof.
  intros Hfc Hmax. unfold parser._candidate_frame_lengths.
  destruct Hfc as [Hfc | Hfc]; rewrite Hfc; simpl;
    (destruct (decide (({[8]} : gset Z) = ∅)) as [Hempty|_];
     [exfalso; revert Hempty; apply non_empty_singleton_L|]);
    unfold sorted_filter; rewrite elements_singleton; simpl;
    (destruct (Z.leb_spec 8 max_len); [reflexivity | lia]).
Qed.

Lemma write_frame_head (frame rest : bytes) (func : Z) :
  len frame = 8 ->
  crc_valid frame ->
  index frame 1 = Some func ->
  Z.land func 0x7F = 5 \/ Z.land func 0x7F = 6 ->
  parser.split_modbus_frames (frame ++ rest)
  = (fun r => (frame :: r.1, r.2)) <$> parser.split_modbus_frames rest.
Proof.
  intros Hlen Hvalid Hfunc Hfc.
  apply (split_frames_head parser._candidate_frame_lengths frame rest func []);
    [exact Hvalid | exact Hfunc|].
  rewrite Hlen. apply write_single_candidates; [exact Hfc|].
  unfold len in *. rewrite length_app. lia.
Qed.

(** X5. A CRC-valid 8-byte write-single frame (function code 5 or 6)
    standing at the head of the buffer is always emitted first, and the rest
    of the buffer is scanned as if it stood alone. *)
Theorem write_frame_at_head (frame rest : bytes) (func : Z) :
  len frame = 8 ->
  crc_valid frame ->
  index frame 1 = Some func ->
  Z.land func 0x7F = 5 \/ Z.land func 0x7F = 6 ->
  parser.split_modbus_frames (frame ++ rest)
  = (fun r => (frame :: r.1, r.2)) <$> parser.split_modbus_frames rest.
Proof. exact (write_frame_head frame rest func). Qed.

Lemma write_frame_at_head_witness :
  len (fc06_frame 1 5 100) = 8 /\
  crc_valid (fc06_frame 1 5 100) /\
  index (fc06_frame 1 5 100) 1 = Some 6 /\
  (Z.land 6 0x7F = 5 \/ Z.land 6 0x7F = 6) /\
  parser.split_modbus_frames (fc06_frame 1 5 100 ++ [xff; x01])
  = (fun r => (fc06_frame 1 5 100 :: r.1, r.2))
      <$> parser.split_modbus_frames [xff; x01].
Proof.
  assert (Hvalid : crc_valid (fc06_frame 1 5 100))
    by (apply framed_valid; simpl; lia).
  split; [reflexivity|]. split; [exact Hvalid|]. split; [reflexivity|].
  split; [right; reflexivity|].
  apply (write_frame_at_head (fc06_frame 1 5 100) [xff; x01] 6);
    [reflexivity | exact Hvalid | reflexivity | right; reflexivity].
Defined.

(** ** Streams of register writes *)

Lemma fc06_frame_parsed (unit register value : Z) :
  0 <= unit < 256 -> 0 <= register < 65536 -> 0 <= value < 65536 ->
  parser.parse_fc06 (fc06_frame unit register value) = Some (unit, register, value) /\
  index (fc06_frame unit register value) 0 = Some unit.
Proof.
  intros Hu Hr Hv.
  assert (Hunit : index (fc06_frame unit register value) 0 = Some unit).
  { unfold fc06_frame. cbn [app]. rewrite index_framed_0. now rewrite b2z_z2b_byte. }
  assert (Hfunc : index (fc06_frame unit register value) 1 = Some 6)
    by reflexivity.
  assert (Hlen : len (fc06_frame unit register value) = 8).
  { unfold fc06_frame. now rewrite len_framed. }
  assert (Hinner : inner (fc06_frame unit register value)
                   = be16 register ++ be16 value).
  { unfold fc06_frame. now rewrite inner_framed by (simpl; lia). }
  split; [|exact Hunit].
  unfold parser.parse_fc06. rewrite Hunit, Hfunc, Hlen, Hinner.
  change (Some (unit, from_bytes_big (be16 register), from_bytes_big (be16 value))
          = Some (unit, register, value)).
  now rewrite !from_bytes_big_be16.
Qed.

Lemma split_write_stream (writes : list RegisterUpdate) :
  parser.split_modbus_frames (concat (write_frame <$> writes))
  = Some (write_frame <$> writes, []).
Proof.
  induction writes as [|w writes IH]; [reflexivity|].
  rewrite fmap_cons. cbn [concat].
  rewrite (write_frame_head (write_frame w) _ 6);
    [now rewrite IH | reflexivity | apply framed_valid; simpl; lia
    | reflexivity | right; reflexivity].
Qed.

Lemma handle_write_frames (writes : list RegisterUpdate) (self : ModbusSnifferHub) :
  Forall in_range writes ->
  exists self',
    handle_frames (write_frame <$> writes) self = Some self' /\
    dispatched self' = dispatched self ++ writes /\
    _buffer self' = _buffer self.
Proof.
  intros Hwrites. revert self.
  induction Hwrites as [|[[u r] v] writes (Hu & Hr & Hv) _ IH]; intros self.
  - exists self. now rewrite app_nil_r.
  - simpl in Hu, Hr, Hv.
    destruct (fc06_frame_parsed u r v Hu Hr Hv) as [Hparse Hunit].
    assert (Hone : _handle_frame (write_frame (u, r, v)) self
                   = Some (_store_register u r v (time self).2)).
    { assert (Hfunc : index (fc06_frame u r v) 1 = Some 6) by reflexivity.
      unfold _handle_frame, write_frame. cbn [fst snd].
      rewrite Hunit, Hfunc, Hparse. reflexivity. }
    destruct (IH (_store_register u r v (time self).2)) as (self' & Hrest & Hdisp & Hbuf).
    exists self'. rewrite fmap_cons. cbn [handle_frames]. rewrite Hone.
    cbn [mbind option_bind]. split; [exact Hrest|]. split.
    + rewrite Hdisp. unfold _store_register, time. cbn [dispatched].
      now rewrite <- app_assoc.
    + rewrite Hbuf. reflexivity.
Qed.

(** X6. A payload made of Write Single Register frames, received on an empty
    buffer, is decoded into exactly their (unit, register, value) updates, in
    order, and leaves nothing in the buffer. *)
Theorem write_stream_dispatched (writes : list RegisterUpdate) (self : ModbusSnifferHub) :
  writes <> [] ->
  Forall in_range writes ->
  _buffer self = [] ->
  exists self',
    _process_bytes (concat (write_frame <$> writes)) self = Some self' /\
    dispatched self' = dispatched self ++ writes /\
    _buffer self' = [].
Proof.
  intros Hsome Hwrites Hempty.
  destruct (handle_write_frames writes (set_buffer self []) Hwrites)
    as (self' & Hrun & Hdisp & Hbuf).
  exists self'. split; [|split; [exact Hdisp | exact Hbuf]].
  unfold _process_bytes, payload_of. rewrite Hempty. cbn [app].
  rewrite split_write_stream. cbn [mbind option_bind].
  destruct writes as [|w writes]; [contradiction|].
  rewrite fmap_cons. cbn [concat]. unfold write_frame at 1, fc06_frame at 1, framed at 1.
  cbn [app]. rewrite <- Hrun. reflexivity.
Qed.

Lemma write_stream_dispatched_witness :
  [(1, 5, 100); (2, 7, 3)] <> [] /\
  Forall in_range [(1, 5, 100); (2, 7, 3)] /\
  _buffer (new_hub tick_clock) = [] /\
  exists self',
    _process_bytes (concat (write_frame <$> [(1, 5, 100); (2, 7, 3)]))
      (new_hub tick_clock) = Some self' /\
    dispatched self' = dispatched (new_hub tick_clock) ++ [(1, 5, 100); (2, 7, 3)] /\
    _buffer self' = [].
Proof.
  assert (Hrange : Forall in_range [(1, 5, 100); (2, 7, 3)])
    by (repeat constructor; simpl; lia).
  split; [discriminate|]. split; [exact Hrange|]. split; [reflexivity|].
  apply (write_stream_dispatched [(1, 5, 100); (2, 7, 3)] (new_hub tick_clock));
    [discriminate | exact Hrange | reflexivity].
Defined.

(** ** iter_frames *)

Lemma crc_validb_spec (frame : bytes) : crc_validb frame = true <-> crc_valid frame.
Proof.
  unfold crc_validb, crc_valid. rewrite andb_true_iff, Z.leb_le, Z.eqb_eq. reflexivity.
Qed.

Lemma iter_frames_valid (frames : list bytes) :
  Forall crc_valid frames -> parser.iter_frames frames = frames.
Proof.
  induction 1 as [|frame frames Hframe _ IH]; [reflexivity|].
  unfold parser.iter_frames in *. cbn [List.filter].
  apply crc_validb_spec in Hframe. unfold crc_validb in Hframe.
  rewrite Hframe. now rewrite IH.
Qed.

(** X7. [iter_frames] yields only CRC-valid frames and passes unchanged
    whatever [split_modbus_frames] emitted: frames that follow them are
    filtered on their own. *)
Theorem iter_frames_after_split (B : bytes) (others : list bytes) :
  exists frames leftover,
    parser.split_modbus_frames B = Some (frames, leftover) /\
    parser.iter_frames (frames ++ others) = frames ++ parser.iter_frames others /\
    Forall crc_valid (parser.iter_frames others).
Proof.
  destruct (split_frames_layout parser._candidate_frame_lengths B)
    as (frames & leftover & _ & Hrun & _ & _ & Hvalid & _).
  exists frames, leftover. split; [exact Hrun|]. split.
  - unfold parser.iter_frames at 1. rewrite List.filter_app.
    fold (parser.iter_frames frames). fold (parser.iter_frames others).
    now rewrite iter_frames_valid.
  - apply Forall_forall. intros frame Hin.
    unfold parser.iter_frames in Hin.
    apply list_elem_of_In, filter_In in Hin as [_ Hok].
    now apply crc_validb_spec.
Qed.

(** ** The two reconstructors *)

Lemma split_loop_ext (cf1 cf2 : option Z -> Z -> list Z) (fuel : nat) (data : bytes)
    (n idx : Z) (frames : list bytes) :
  (forall max_len, cf1 None max_len = cf2 None max_len) ->
  (forall b max_len, b ∈ data -> cf1 (Some (b2z b)) max_len = cf2 (Some (b2z b)) max_len) ->
  split_loop cf1 fuel data n idx frames = split_loop cf2 fuel data n idx frames.
Proof.
  intros Hnone Hsome. revert idx frames.
  induction fuel as [|fuel IH]; intros idx frames; simpl; [reflexivity|].
  destruct (idx + 4 <=? n); [|reflexivity].
  assert (Hcands :
    cf1 (if idx + 1 <? n then index data (idx + 1) else None) (Z.min 256 (n - idx))
    = cf2 (if idx + 1 <? n then index data (idx + 1) else None) (Z.min 256 (n - idx))).
  { destruct (idx + 1 <? n); [|apply Hnone]. unfold index.
    destruct (idx + 1 <? 0); [apply Hnone|].
    destruct (data !! Z.to_nat (idx + 1)) as [b|] eqn:Hb; [|apply Hnone].
    apply Hsome. eapply list_elem_of_lookup_2. exact Hb. }
  rewrite Hcands.
  destruct (first_valid _ _ _ _) as [[frame length]|]; apply IH.
Qed.

Lemma low_function_byte (func : Z) : 0 <= func < 0x80 -> Z.land func 0x7F = func.
Proof.
  intros Hf. change 0x7F with (Z.ones 7). rewrite Z.land_ones by lia.
  apply Z.mod_small. lia.
Qed.

(** X8. On a buffer whose bytes are all below 0x80 the reconstructor of
    parser.py and its copy in udp_web_server.py return the same frames and
    the same leftover: they part only on exception function bytes. *)
Theorem reconstructors_agree (B : bytes) :
  Forall (fun b => b2z b < 0x80) B ->
  parser.split_modbus_frames B = udp_web_server.split_modbus_frames B.
Proof.
  intros Hlow. unfold parser.split_modbus_frames, udp_web_server.split_modbus_frames,
    split_frames.
  apply split_loop_ext; [reflexivity|].
  intros b max_len Hb. rewrite Forall_forall in Hlow. specialize (Hlow b Hb).
  unfold parser._candidate_frame_lengths, udp_web_server._candidate_frame_lengths.
  rewrite low_function_byte by (pose proof (b2z_range b); lia). reflexivity.
Qed.

Lemma reconstructors_agree_witness :
  Forall (fun b => b2z b < 0x80) [x01; x06; x00; x05; x00; x64; x01; x02] /\
  parser.split_modbus_frames [x01; x06; x00; x05; x00; x64; x01; x02]
  = udp_web_server.split_modbus_frames [x01; x06; x00; x05; x00; x64; x01; x02].
Proof.
  assert (Hlow : Forall (fun b => b2z b < 0x80) [x01; x06; x00; x05; x00; x64; x01; x02])
    by (repeat constructor).
  split; [exact Hlow|].
  apply (reconstructors_agree [x01; x06; x00; x05; x00; x64; x01; x02]). exact Hlow.
Defined.

(** ** Writes through the hub *)

Lemma inner_slices (frame : bytes) :
  8 <= len frame ->
  slice (inner frame) 0 2 = slice frame 2 4 /\
  slice (inner frame) 2 4 = slice frame 4 6 /\
  4 <= len (inner frame).
Proof.
  unfold len, inner, slice. intros Hlen.
  change (Z.to_nat (2 - 0)) with 2%nat. change (Z.to_nat (4 - 2)) with 2%nat.
  change (Z.to_nat (6 - 4)) with 2%nat. change (Z.to_nat 0) with 0%nat.
  change (Z.to_nat 2) with 2%nat. change (Z.to_nat 4) with 4%nat.
  rewrite drop_0. repeat split.
  - rewrite take_take. f_equal. lia.
  - rewrite List.skipn_firstn_comm, take_take, drop_drop. f_equal. lia.
  - rewrite length_take, length_drop. lia.
Qed.

(** X9. Every frame of at least 8 bytes whose function code (the low 7 bits
    of its second byte) is 6 makes the hub dispatch exactly one update: the
    unit is byte 0, the register bytes 2-3 and the value bytes 4-5, read
    big-endian. The exception flag and any longer payload are ignored. *)
Theorem fc06_frame_one_update (frame : bytes) (func : Z) (self : ModbusSnifferHub) :
  8 <= len frame ->
  index frame 1 = Some func ->
  Z.land func 0x7F = 6 ->
  exists unit self',
    index frame 0 = Some unit /\
    _handle_frame frame self = Some self' /\
    dispatched self'
    = dispatched self
      ++ [(unit, from_bytes_big (slice frame 2 4), from_bytes_big (slice frame 4 6))] /\
    get_register (Some unit) (from_bytes_big (slice frame 2 4)) self'
    = Some (from_bytes_big (slice frame 4 6)).
Proof.
  intros Hlen Hfunc Hfc.
  destruct (inner_slices frame Hlen) as (Hreg & Hval & Hinner).
  destruct frame as [|b0 frame]; [unfold len in Hlen; simpl in Hlen; lia|].
  exists (b2z b0). eexists. split; [reflexivity|].
  assert (Hparse : parser.parse_fc06 (b0 :: frame)
                   = Some (b2z b0, from_bytes_big (slice (b0 :: frame) 2 4),
                           from_bytes_big (slice (b0 :: frame) 4 6))).
  { unfold parser.parse_fc06. rewrite Hfunc.
    destruct (Z.ltb_spec (len (b0 :: frame)) 8); [lia|].
    change (index (b0 :: frame) 0) with (Some (b2z b0)). cbn [mbind option_bind].
    rewrite Hfc. change (negb (6 =? 6)) with false. cbv iota.
    destruct (Z.ltb_spec (len (inner (b0 :: frame))) 4); [lia|].
    now rewrite Hreg, Hval. }
  unfold _handle_frame. rewrite Hfunc.
  change (index (b0 :: frame) 0) with (Some (b2z b0)). cbn [mbind option_bind].
  rewrite Hfc. change (6 =? 3) with false. change (6 =? 6) with true. cbv iota.
  rewrite Hparse. split; [reflexivity|]. split; [reflexivity|].
  unfold get_register, _store_register, time. cbn [_values].
  generalize (_values self). intros d.
  induction d as [|[k old] d IH]; simpl.
  - destruct (decide (_ = _)); [reflexivity | contradiction].
  - destruct (decide (k = _)) as [->|Hne]; simpl.
    + destruct (decide (_ = _)); [reflexivity | contradiction].
    + destruct (decide (k = _)); [contradiction | exact IH].
Qed.

Lemma fc06_frame_one_update_witness :
  let frame := [x01; x86; x00; x05; x00; x64; x99; xe0] in
  8 <= len frame /\ index frame 1 = Some 0x86 /\ Z.land 0x86 0x7F = 6 /\
  exists unit self',
    index frame 0 = Some unit /\
    _handle_frame frame (new_hub tick_clock) = Some self' /\
    dispatched self'
    = dispatched (new_hub tick_clock)
      ++ [(unit, from_bytes_big (slice frame 2 4), from_bytes_big (slice frame 4 6))] /\
    get_register (Some unit) (from_bytes_big (slice frame 2 4)) self'
    = Some (from_bytes_big (slice frame 4 6)).
Proof.
  cbv zeta. split; [unfold len; simpl; lia|]. split; [reflexivity|].
  split; [reflexivity|].
  apply (fc06_frame_one_update [x01; x86; x00; x05; x00; x64; x99; xe0] 0x86
           (new_hub tick_clock)); [unfold len; simpl; lia | reflexivity | reflexivity].
Defined.

(** ** FC16 requests through the hub *)

Lemma parse_fc16_request_inv (frame : bytes) (unit start_addr : Z) (values : list Z) :
  parser.parse_fc16_request frame = Some (unit, start_addr, values) ->
  exists func byte_count,
    index frame 0 = Some unit /\ index frame 1 = Some func /\
    Z.land func 0x7F = 16 /\
    index (inner frame) 4 = Some byte_count /\
    start_addr = from_bytes_big (slice (inner frame) 0 2) /\
    let quantity := from_bytes_big (slice (inner frame) 2 4) in
    let words := be16_words (slice (inner frame) 5 (5 + byte_count)) in
    values = (if (0 <? quantity) && (quantity <? len words)
              then slice words 0 quantity else words) /\
    words <> [].
Proof.
  unfold parser.parse_fc16_request.
  destruct (len frame <? 9); [discriminate|].
  destruct (index frame 0) as [u|]; [|discriminate].
  destruct (index frame 1) as [func|]; [|discriminate]. cbn [mbind option_bind].
  destruct (Z.eqb_spec (Z.land func 127) 16) as [Hfc|]; [|discriminate]. simpl negb.
  destruct (Z.land func 128 =? 0); [|discriminate]. simpl.
  destruct (len (inner frame) <? 5); [discriminate|].
  destruct (index (inner frame) 4) as [byte_count|]; [|discriminate].
  cbn [mbind option_bind]. rewrite register_values_words.
  destruct (be16_words _) as [|w words] eqn:Hwords; [discriminate|].
  intros [= <- <- <-]. exists func, byte_count. cbv zeta. rewrite Hwords.
  repeat split; auto; discriminate.
Qed.

Lemma slice_prefix_length {A} (l : list A) (n : Z) :
  len (slice l 0 n) <= len l /\ (0 < n -> len (slice l 0 n) <= n).
Proof.
  unfold len, slice. change (Z.to_nat 0) with 0%nat. rewrite drop_0, length_take.
  split; lia.
Qed.

(** X10. A frame parsed as an FC16 request makes the hub dispatch one update
    per value kept, at consecutive registers from the start address of the
    frame; the values are the leading complete 16-bit words of the data, and
    a positive quantity field caps their number. *)
Theorem fc16_request_updates (frame : bytes) (self : ModbusSnifferHub)
    (unit start_addr : Z) (values : list Z) :
  parser.parse_fc16_request frame = Some (unit, start_addr, values) ->
  exists self' byte_count,
    _handle_frame frame self = Some self' /\
    dispatched self' = dispatched self ++ register_updates unit start_addr values /\
    index (inner frame) 4 = Some byte_count /\
    values `prefix_of` be16_words (slice (inner frame) 5 (5 + byte_count)) /\
    (0 < from_bytes_big (slice (inner frame) 2 4) ->
     len values <= from_bytes_big (slice (inner frame) 2 4)).
Proof.
  intros Hparse.
  destruct (parse_fc16_request_inv _ _ _ _ Hparse)
    as (func & byte_count & Hunit & Hfunc & Hfc & Hcount & _ & Hvalues & _).
  cbv zeta in Hvalues.
  exists (store_registers unit start_addr values (time self).2), byte_count.
  split; [|split; [|split; [exact Hcount|split]]].
  - unfold _handle_frame. rewrite Hunit, Hfunc. cbn [mbind option_bind].
    rewrite Hfc. change (16 =? 3) with false. change (16 =? 6) with false.
    change (16 =? 16) with true. cbv iota. now rewrite Hparse.
  - now rewrite (proj1 (store_registers_effect _ _ _ _)).
  - rewrite Hvalues. destruct (_ && _); [|reflexivity].
    unfold slice. change (Z.to_nat 0) with 0%nat. rewrite drop_0. apply prefix_take.
  - intros Hq. rewrite Hvalues.
    destruct (0 <? from_bytes_big (slice (inner frame) 2 4)) eqn:Hpos;
      [|apply Z.ltb_ge in Hpos; lia].
    destruct (Z.ltb_spec (from_bytes_big (slice (inner frame) 2 4))
                (len (be16_words (slice (inner frame) 5 (5 + byte_count)))))
      as [Hcut|Hno]; cbn [andb].
    + now apply slice_prefix_length.
    + exact Hno.
Qed.

Lemma fc16_request_updates_witness :
  let frame := [x01; x10; x00; x10; x00; x02; x04; x00; x01; x00; x02; x22; xa2] in
  parser.parse_fc16_request frame = Some (1, 16, [1; 2]) /\
  exists self' byte_count,
    _handle_frame frame (new_hub tick_clock) = Some self' /\
    dispatched self' = dispatched (new_hub tick_clock) ++ register_updates 1 16 [1; 2] /\
    index (inner frame) 4 = Some byte_count /\
    [1; 2] `prefix_of` be16_words (slice (inner frame) 5 (5 + byte_count)) /\
    (0 < from_bytes_big (slice (inner frame) 2 4) ->
     len [1; 2] <= from_bytes_big (slice (inner frame) 2 4)).
Proof.
  cbv zeta. split; [vm_compute; reflexivity|].
  apply (fc16_request_updates
           [x01; x10; x00; x10; x00; x02; x04; x00; x01; x00; x02; x22; xa2]
           (new_hub tick_clock) 1 16 [1; 2]).
  vm_compute. reflexivity.
Defined.

(** ** Reading the register store *)

Lemma dict_get_set_same (key : Z * Z) (sample : RegisterValue) (d : ValueDict) :
  dict_get key (dict_set key sample d) = Some sample.
Proof.
  induction d as [|[k old] d IH]; simpl.
  - destruct (decide (key = key)); [reflexivity | contradiction].
  - destruct (decide (k = key)) as [->|Hne]; simpl.
    + destruct (decide (key = key)); [reflexivity | contradiction].
    + destruct (decide (k = key)); [contradiction | exact IH].
Qed.

Lemma dict_get_set_other (key other : Z * Z) (sample : RegisterValue) (d : ValueDict) :
  other <> key -> dict_get other (dict_set key sample d) = dict_get other d.
Proof.
  intros Hne. induction d as [|[k old] d IH]; simpl.
  - destruct (decide (key = other)); [congruence | reflexivity].
  - destruct (decide (k = key)) as [->|Hk]; simpl.
    + destruct (decide (key = other)); [congruence | reflexivity].
    + destruct (decide (k = other)); [reflexivity | exact IH].
Qed.

Lemma get_register_after_store_eq (u r v : Z) (self : ModbusSnifferHub) :
  get_register (Some u) r (_store_register u r v self) = Some v /\
  forall u' r', (u', r') <> (u, r) ->
    get_register (Some u') r' (_store_register u r v self)
    = get_register (Some u') r' self.
Proof.
  unfold get_register, _store_register, time. cbn [_values]. split.
  - now rewrite dict_get_set_same.
  - intros u' r' Hne. now rewrite dict_get_set_other.
Qed.

(** X11. After [_store_register(u, r, v)], reading (u, r) gives [v], and
    reading any other (unit, register) gives what it gave before. *)
Theorem get_register_after_store (u r v : Z) (self : ModbusSnifferHub) :
  get_register (Some u) r (_store_register u r v self) = Some v /\
  forall u' r', (u', r') <> (u, r) ->
    get_register (Some u') r' (_store_register u r v self)
    = get_register (Some u') r' self.
Proof.
  unfold get_register, _store_register, time. cbn [_values]. split.
  - now rewrite dict_get_set_same.
  - intros u' r' Hne. now rewrite dict_get_set_other.
Qed.

Lemma get_register_newest (register : Z) (self : ModbusSnifferHub) :
  get_register None register self = value <$> newest register (_values self).
Proof.
  unfold get_register. generalize (_values self). intros d.
  induction d as [|[k sample] d IH]; [reflexivity|].
  rewrite reverse_cons, List.filter_app. cbn [newest List.filter fst snd].
  destruct (newest register d) as [later|].
  - destruct (List.filter _ (reverse d)) as [|x xs]; [discriminate IH|].
    exact IH.
  - destruct (List.filter _ (reverse d)) as [|x xs]; [|discriminate IH].
    destruct (k.2 =? register); reflexivity.
Qed.

Lemma newest_app (register : Z) (d e : ValueDict) :
  newest register (d ++ e)
  = match newest register e with
    | Some later => Some later
    | None => newest register d
    end.
Proof.
  induction d as [|[k sample] d IH]; simpl.
  - now destruct (newest register e).
  - rewrite IH. now destruct (newest register e).
Qed.

Lemma dict_set_app_absent (u register : Z) (sample : RegisterValue) (d e : ValueDict) :
  newest register d = None ->
  dict_set (u, register) sample (d ++ e) = d ++ dict_set (u, register) sample e.
Proof.
  induction d as [|[k old] d IH]; simpl; [reflexivity|].
  destruct (newest register d); [discriminate|].
  destruct (Z.eqb_spec k.2 register) as [|Hk]; [discriminate|]. intros _.
  destruct (decide (k = (u, register))) as [->|_]; [contradiction|].
  now rewrite IH.
Qed.

(** X12. A read by register alone returns the value under the key that was
    inserted last, not the value written last: with no sample for register
    [r] yet, a first write (u1, r, v1) is read back, then a write (u2, r, v2)
    for another unit is read back, and a later write (u1, r, v3) is not:
    the read still returns [v2]. *)
Theorem wildcard_read_newest_key (u1 u2 r v1 v2 v3 : Z) (self : ModbusSnifferHub) :
  u1 <> u2 ->
  get_register None r self = None ->
  let first := _store_register u1 r v1 self in
  let second := _store_register u2 r v2 first in
  let third := _store_register u1 r v3 second in
  get_register None r first = Some v1 /\
  get_register None r second = Some v2 /\
  get_register None r third = Some v2 /\
  get_register (Some u1) r third = Some v3.
Proof.
  intros Hunits Hnone. cbv zeta.
  rewrite get_register_newest in Hnone.
  destruct (newest r (_values self)) as [|] eqn:Hnewest; [discriminate|].
  assert (Hset : forall u sample e,
             dict_set (u, r) sample (_values self ++ e)
             = _values self ++ dict_set (u, r) sample e)
    by (intros; now apply dict_set_app_absent).
  assert (Hnew : forall e, newest r e <> None ->
             newest r (_values self ++ e) = newest r e).
  { intros e He. rewrite newest_app. now destruct (newest r e). }
  pose proof (proj1 (get_register_after_store_eq u1 r v3
                (_store_register u2 r v2 (_store_register u1 r v1 self)))) as Hlast.
  (split; [|split; [|split; [|exact Hlast]]]);
    rewrite get_register_newest;
    unfold _store_register, time; cbn [_values loop_time clock_reads];
    rewrite <- (app_nil_r (_values self)), !Hset; cbn [dict_set];
    repeat (destruct (decide ((u1, r) = (u2, r))) as [Heq|_]; [congruence|];
            cbn [dict_set]);
    repeat (destruct (decide ((u1, r) = (u1, r))) as [_|Hne]; [|contradiction]);
    (rewrite Hnew by (cbn [newest snd]; rewrite Z.eqb_refl; discriminate));
    cbn [newest snd]; rewrite Z.eqb_refl; reflexivity.
Qed.

Lemma wildcard_read_newest_key_witness :
  let self := new_hub tick_clock in
  let first := _store_register 1 5 10 self in
  let second := _store_register 2 5 20 first in
  let third := _store_register 1 5 30 second in
  1 <> 2 /\ get_register None 5 self = None /\
  get_register None 5 first = Some 10 /\
  get_register None 5 second = Some 20 /\
  get_register None 5 third = Some 20 /\
  get_register (Some 1) 5 third = Some 30.
Proof.
  cbv zeta. split; [lia|]. split; [reflexivity|].
  apply (wildcard_read_newest_key 1 2 5 10 20 30 (new_hub tick_clock));
    [lia | reflexivity].
Defined.

(** ** Requests, responses and stopping *)

Lemma parse_fc03_request_inv (frame : bytes) (unit start_addr quantity : Z) :
  parser.parse_fc03_request frame = Some (unit, start_addr, quantity) ->
  exists func,
    index frame 0 = Some unit /\ index frame 1 = Some func /\
    Z.land func 0x7F = 3 /\
    start_addr = from_bytes_big (slice (inner frame) 0 2) /\
    quantity = from_bytes_big (slice (inner frame) 2 4).
Proof.
  unfold parser.parse_fc03_request.
  destruct (len frame <? 8); [discriminate|].
  destruct (index frame 0) as [u|]; [|discriminate].
  destruct (index frame 1) as [func|]; [|discriminate]. cbn [mbind option_bind].
  destruct (Z.eqb_spec (Z.land func 127) 3) as [Hfc|]; [|discriminate]. simpl negb.
  destruct (Z.land func 128 =? 0); [|discriminate]. simpl.
  destruct (len (inner frame) =? 4); [|discriminate]. simpl.
  intros [= <- <- <-]. exists func. auto.
Qed.






Lemma pending_async_stop (self : ModbusSnifferHub) (unit : Z) :
  pending (async_stop self) unit = [].
Proof. unfold pending, async_stop. cbn [_pending_reads]. now rewrite lookup_empty. Qed.

(** X14. [async_stop] forgets the pending requests and the leftover bytes but
    not the register values: afterwards every [get_register] reads as
    before, the next bytes are reconstructed on their own, and an FC03
    response finds no request and is assigned base address 0. *)
Theorem response_after_stop (frame : bytes) (self : ModbusSnifferHub)
    (unit : Z) (values : list Z) :
  parser.parse_fc03_request frame = None ->
  parser.parse_fc03_response frame = Some (unit, values) ->
  (forall unit_id register,
     get_register unit_id register (async_stop self)
     = get_register unit_id register self) /\
  (forall data, payload_of (async_stop self) data = data) /\
  exists self',
    _handle_frame frame (async_stop self) = Some self' /\
    dispatched self' = dispatched self ++ register_updates unit 0 values.
Proof.
  intros Hnot Hresp. split; [reflexivity|]. split; [reflexivity|].
  pose proof (_handle_frame_response frame (async_stop self) unit values Hnot Hresp)
    as Hrun.
  cbv zeta in Hrun. rewrite _pop_matching_request_purged in Hrun.
  change (pending (time (async_stop self)).2 unit)
    with (pending (async_stop self) unit) in Hrun.
  rewrite pending_async_stop in Hrun. cbn [purge fst snd default] in Hrun.
  eexists. split; [exact Hrun|].
  now rewrite (proj1 (store_registers_effect _ _ _ _)).
Qed.

Lemma response_after_stop_witness :
  let frame := [x01; x03; x04; x00; x0a; x00; x14; xda; x3e] in
  let self := set_pending (new_hub tick_clock) 1 [(5, 2, (0 # 1)%Q)] in
  parser.parse_fc03_request frame = None /\
  parser.parse_fc03_response frame = Some (1, [10; 20]) /\
  (forall unit_id register,
     get_register unit_id register (async_stop self)
     = get_register unit_id register self) /\
  (forall data, payload_of (async_stop self) data = data) /\
  exists self',
    _handle_frame frame (async_stop self) = Some self' /\
    dispatched self' = dispatched self ++ register_updates 1 0 [10; 20].
Proof.
  cbv zeta. repeat (split; [vm_compute; reflexivity|]).
  apply (response_after_stop [x01; x03; x04; x00; x0a; x00; x14; xda; x3e]
           (set_pending (new_hub tick_clock) 1 [(5, 2, (0 # 1)%Q)]) 1 [10; 20]);
    vm_compute; reflexivity.
Defined.

(** X15. A frame whose function code is not 3, 6 or 16, and an exception
    frame of function 3 or 16, only costs one reading of the clock: nothing
    is dispatched or stored and the pending requests are untouched. *)
Theorem other_frames_ignored (frame : bytes) (unit func : Z) (self : ModbusSnifferHub) :
  index frame 0 = Some unit ->
  index frame 1 = Some func ->
  (Z.land func 0x7F <> 3 /\ Z.land func 0x7F <> 6 /\ Z.land func 0x7F <> 16) \/
  (Z.land func 0x80 <> 0 /\ Z.land func 0x7F <> 6) ->
  exists self',
    _handle_frame frame self = Some self' /\
    dispatched self' = dispatched self /\
    _values self' = _values self /\
    _pending_reads self' = _pending_reads self /\
    _buffer self' = _buffer self /\
    clock_reads self' = S (clock_reads self).
Proof.
  intros Hunit Hfunc Hcode. exists (time self).2.
  split; [|repeat split].
  unfold _handle_frame. rewrite Hunit, Hfunc. cbn [mbind option_bind].
  assert (Hreq : Z.land func 128 <> 0 -> parser.parse_fc03_request frame = None).
  { intros Hexc. unfold parser.parse_fc03_request. rewrite Hunit, Hfunc.
    destruct (len frame <? 8); [reflexivity|]. cbn [mbind option_bind].
    destruct (Z.eqb_spec (Z.land func 128) 0); [contradiction|].
    now rewrite orb_true_r. }
  assert (Hresp : Z.land func 128 <> 0 -> parser.parse_fc03_response frame = None).
  { intros Hexc. unfold parser.parse_fc03_response. rewrite Hunit, Hfunc.
    destruct (len frame <? 5); [reflexivity|]. cbn [mbind option_bind].
    destruct (Z.eqb_spec (Z.land func 128) 0); [contradiction|].
    now rewrite orb_true_r. }
  assert (Hmulti : Z.land func 128 <> 0 -> parser.parse_fc16_request frame = None).
  { intros Hexc. unfold parser.parse_fc16_request. rewrite Hunit, Hfunc.
    destruct (len frame <? 9); [reflexivity|]. cbn [mbind option_bind].
    destruct (Z.eqb_spec (Z.land func 128) 0); [contradiction|].
    now rewrite orb_true_r. }
  destruct (Z.eqb_spec (Z.land func 127) 3) as [H3|H3].
  { destruct Hcode as [(Hne & _)|(Hexc & _)]; [contradiction|].
    now rewrite Hreq, Hresp. }
  destruct (Z.eqb_spec (Z.land func 127) 6) as [H6|H6].
  { destruct Hcode as [(_ & Hne & _)|(_ & Hne)]; contradiction. }
  destruct (Z.eqb_spec (Z.land func 127) 16) as [H16|H16]; [|reflexivity].
  destruct Hcode as [(_ & _ & Hne)|(Hexc & _)]; [contradiction|].
  now rewrite Hmulti.
Qed.

Lemma other_frames_ignored_witness :
  let frame := [x01; x83; x02; xc0; xf1] in
  index frame 0 = Some 1 /\ index frame 1 = Some 0x83 /\
  ((Z.land 0x83 0x7F <> 3 /\ Z.land 0x83 0x7F <> 6 /\ Z.land 0x83 0x7F <> 16) \/
   (Z.land 0x83 0x80 <> 0 /\ Z.land 0x83 0x7F <> 6)) /\
  exists self',
    _handle_frame frame (new_hub tick_clock) = Some self' /\
    dispatched self' = dispatched (new_hub tick_clock) /\
    _values self' = _values (new_hub tick_clock) /\
    _pending_reads self' = _pending_reads (new_hub tick_clock) /\
    _buffer self' = _buffer (new_hub tick_clock) /\
    clock_reads self' = S (clock_reads (new_hub tick_clock)).
Proof.
  assert (Hcode : (Z.land 0x83 0x7F <> 3 /\ Z.land 0x83 0x7F <> 6 /\ Z.land 0x83 0x7F <> 16) \/
                  (Z.land 0x83 0x80 <> 0 /\ Z.land 0x83 0x7F <> 6))
    by (right; split; discriminate).
  cbv zeta. split; [reflexivity|]. split; [reflexivity|]. split; [exact Hcode|].
  apply (other_frames_ignored [x01; x83; x02; xc0; xf1] 1 0x83 (new_hub tick_clock));
    [reflexivity | reflexivity | exact Hcode].
Defined.

(** ** Invariants of the hub *)

Lemma from_bytes_big_pair (l : bytes) : 0 <= from_bytes_big (take 2 l) < 65536.
Proof.
  destruct l as [|a [|b l]]; unfold from_bytes_big; simpl.
  - lia.
  - pose proof (b2z_range a). lia.
  - pose proof (b2z_range a). pose proof (b2z_range b). lia.
Qed.

Lemma slice_pair_range (l : bytes) (lo : Z) :
  0 <= from_bytes_big (slice l lo (lo + 2)) < 65536.
Proof.
  unfold slice. replace (Z.to_nat (lo + 2 - lo)) with 2%nat by lia.
  apply from_bytes_big_pair.
Qed.

Lemma be16_words_range (data : bytes) :
  Forall (fun v => 0 <= v < 65536) (be16_words data).
Proof.
  remember (length data) as n eqn:Hn. revert data Hn.
  induction (lt_wf n) as [n _ IH]. intros data Hn.
  destruct data as [|hi [|lo rest]]; try constructor.
  - apply (from_bytes_big_pair [hi; lo]).
  - apply (IH (length rest)); [subst n; simpl; lia | reflexivity].
Qed.

Lemma index_range (l : bytes) (i v : Z) : index l i = Some v -> 0 <= v < 256.
Proof.
  unfold index. destruct (i <? 0); [discriminate|].
  destruct (l !! Z.to_nat i) as [b|]; [|discriminate].
  intros [= <-]. apply b2z_range.
Qed.

Lemma be16_words_slice_count (payload : bytes) (lo byte_count : Z) :
  0 <= byte_count < 256 ->
  (length (be16_words (slice payload lo (lo + byte_count))) <= 127)%nat.
Proof.
  intros Hcount. rewrite be16_words_length. unfold slice.
  rewrite length_take.
  assert (Hle : (Nat.min (Z.to_nat (lo + byte_count - lo))
                         (length (drop (Z.to_nat lo) payload)) <= 255)%nat) by lia.
  revert Hle. generalize (Nat.min (Z.to_nat (lo + byte_count - lo))
                                  (length (drop (Z.to_nat lo) payload))).
  intros k Hk. apply Nat.lt_succ_r. apply Nat.Div0.div_lt_upper_bound. lia.
Qed.

Lemma register_updates_ok (unit base : Z) (values : list Z) :
  0 <= unit < 256 -> 0 <= base -> base + len values <= 65536 + 127 ->
  Forall (fun v => 0 <= v < 65536) values ->
  Forall update_ok (register_updates unit base values).
Proof.
  intros Hunit Hbase Htop Hvalues. revert base Hbase Htop.
  induction Hvalues as [|v values Hv _ IH]; intros base Hbase Htop; simpl;
    [constructor|].
  unfold len in *. simpl in Htop. constructor.
  - unfold update_ok. simpl. lia.
  - apply IH; lia.
Qed.

Lemma dict_set_ok (key : Z * Z) (sample : RegisterValue) (d : ValueDict) :
  Forall sample_ok d -> sample_ok (key, sample) ->
  Forall sample_ok (dict_set key sample d).
Proof.
  intros Hd Hnew. induction Hd as [|[k old] d Hold Hrest IH]; cbn [dict_set].
  - constructor; [exact Hnew | constructor].
  - destruct (decide (k = key)) as [->|_]; constructor; auto.
Qed.

Lemma well_formed_store (u r v : Z) (self : ModbusSnifferHub) :
  well_formed self -> update_ok (u, r, v) ->
  well_formed (_store_register u r v self).
Proof.
  intros (Hdisp & Hvalues & Hpending) Hok. repeat split.
  - unfold _store_register, time. cbn [dispatched].
    apply Forall_app. split; [exact Hdisp | constructor; [exact Hok | constructor]].
  - unfold _store_register, time. cbn [_values].
    apply dict_set_ok; [exact Hvalues|]. split; [reflexivity | exact Hok].
  - exact Hpending.
Qed.

(** What every single store keeps, the whole [for] loop keeps. *)
Lemma store_registers_preserves (P : ModbusSnifferHub -> Prop)
    (unit start_addr : Z) (values : list Z) (self : ModbusSnifferHub) :
  P self ->
  (forall s update, P s -> update ∈ register_updates unit start_addr values ->
     P (_store_register update.1.1 update.1.2 update.2 s)) ->
  P (store_registers unit start_addr values self).
Proof.
  unfold store_registers, enumerate.
  assert (Hgen : forall first s,
    P s ->
    (forall s update, P s ->
       update ∈ register_updates unit (start_addr + first) values ->
       P (_store_register update.1.1 update.1.2 update.2 s)) ->
    P (foldl (fun self ov => _store_register unit (start_addr + ov.1) ov.2 self)
             s (zip (seqZ first (len values)) values))).
  { induction values as [|value values IH]; intros first s Hs Hstep; [exact Hs|].
    replace (len (value :: values)) with (Z.succ (len values))
      by (unfold len; simpl; lia).
    rewrite seqZ_cons by (pose proof (len_nonneg values); lia).
    rewrite Z.pred_succ. cbn [zip zip_with foldl fst snd].
    apply IH.
    - apply (Hstep s (unit, start_addr + first, value) Hs). simpl. left.
    - intros s' update Hs' Hin. apply Hstep; [exact Hs'|].
      simpl. right. replace (start_addr + first + 1) with (start_addr + Z.succ first) by lia.
      exact Hin. }
  intros Hself Hstep. apply (Hgen 0 self Hself).
  intros s update Hs Hin. apply Hstep; [exact Hs|].
  now rewrite Z.add_0_r in Hin.
Qed.

Lemma well_formed_store_registers (unit start_addr : Z) (values : list Z)
    (self : ModbusSnifferHub) :
  well_formed self ->
  Forall update_ok (register_updates unit start_addr values) ->
  well_formed (store_registers unit start_addr values self).
Proof.
  intros Hself Hok. apply store_registers_preserves; [exact Hself|].
  intros s [[u r] v] Hs Hin. apply well_formed_store; [exact Hs|].
  rewrite Forall_forall in Hok. exact (Hok _ Hin).
Qed.

Lemma pending_set_pending_ne (self : ModbusSnifferHub) (unit other : Z)
    (queue : list PendingRead) :
  unit <> other -> pending (set_pending self unit queue) other = pending self other.
Proof.
  intros Hne. unfold pending, set_pending. cbn [_pending_reads].
  now rewrite lookup_insert_ne.
Qed.

Lemma well_formed_set_pending (self : ModbusSnifferHub) (unit : Z)
    (queue : list PendingRead) :
  well_formed self -> Forall entry_ok queue ->
  well_formed (set_pending self unit queue).
Proof.
  intros (Hdisp & Hvalues & Hpending) Hqueue. repeat split; auto.
  intros other. destruct (decide (unit = other)) as [<-|Hne].
  - now rewrite pending_set_pending.
  - now rewrite pending_set_pending_ne.
Qed.

Lemma purge_Forall (P : PendingRead -> Prop) (now : Q) (queue : list PendingRead) :
  Forall P queue -> Forall P (purge now queue).
Proof.
  induction 1 as [|entry queue Hentry Hrest IH]; simpl; [constructor|].
  destruct (stale now entry); [exact IH | now constructor].
Qed.

Lemma well_formed_purge (unit : Z) (now : Q) (self : ModbusSnifferHub) :
  well_formed self -> well_formed (_purge_old_requests unit now self).
Proof.
  intros Hself. apply well_formed_set_pending; [exact Hself|].
  apply purge_Forall, Hself.
Qed.

Lemma well_formed_pop (unit values_len : Z) (now : Q)
    (self popped : ModbusSnifferHub) (start_addr : option Z) :
  well_formed self ->
  _pop_matching_request unit values_len now self = (start_addr, popped) ->
  well_formed popped /\ 0 <= default 0 start_addr < 65536.
Proof.
  intros Hself. rewrite _pop_matching_request_purged.
  pose proof (purge_Forall entry_ok now (pending self unit) (proj2 (proj2 Hself) unit))
    as Hqueue.
  destruct (purge now (pending self unit)) as [|[[start quantity] t] rest].
  - intros [= <- <-]. split; [now apply well_formed_purge | simpl; lia].
  - intros [= <- <-]. apply Forall_cons in Hqueue as [[Hstart _] Hrest]. split.
    + apply well_formed_set_pending; [now apply well_formed_purge | exact Hrest].
    + exact Hstart.
Qed.

Lemma well_formed_handle_frame (frame : bytes) (self self' : ModbusSnifferHub) :
  well_formed self -> _handle_frame frame self = Some self' -> well_formed self'.
Proof.
  intros Hself. unfold _handle_frame.
  destruct (index frame 0) as [unit|] eqn:Hunit; [|discriminate].
  destruct (index frame 1) as [func|] eqn:Hfunc; [|discriminate].
  cbn [mbind option_bind]. intros [= <-].
  apply index_range in Hunit.
  assert (Hticked : well_formed (time self).2) by exact Hself.
  destruct (Z.land func 127 =? 3).
  { destruct (parser.parse_fc03_request frame) as [[[u start_addr] quantity]|] eqn:Hreq.
    - apply parse_fc03_request_inv in Hreq as (_ & _ & _ & _ & -> & ->).
      apply well_formed_purge, well_formed_set_pending; [exact Hticked|].
      apply Forall_app. split; [apply Hself|].
      constructor; [|constructor]. split; cbn [fst snd].
      + apply (slice_pair_range _ 0).
      + apply (slice_pair_range _ 2).
    - destruct (parser.parse_fc03_response frame) as [[u values]|] eqn:Hresp;
        [|exact Hticked].
      apply parse_fc03_response_inv in Hresp as (_ & count & _ & _ & _ & Hcount & ->).
      apply index_range in Hcount.
      destruct (_pop_matching_request _ _ _ _) as [start m] eqn:Hpop.
      destruct (well_formed_pop _ _ _ _ _ _ Hticked Hpop) as [Hm Hstart].
      apply well_formed_store_registers; [exact Hm|].
      apply register_updates_ok; [exact Hunit | lia | | apply be16_words_range].
      pose proof (be16_words_slice_count (inner frame) 1 count Hcount).
      unfold len. lia. }
  destruct (Z.land func 127 =? 6).
  { destruct (parser.parse_fc06 frame) as [[[u register] value]|] eqn:Hparse;
      [|exact Hticked].
    apply well_formed_store; [exact Hticked|].
    revert Hparse. unfold parser.parse_fc06.
    destruct (len frame <? 8); [discriminate|].
    destruct (index frame 0); [|discriminate].
    destruct (index frame 1); [|discriminate]. cbn [mbind option_bind].
    destruct (negb _); [discriminate|].
    destruct (len (inner frame) <? 4); [discriminate|].
    intros [= _ <- <-]. unfold update_ok. cbn [fst snd].
    assert (0 <= from_bytes_big (slice (inner frame) 0 2) < 65536)
      by apply (slice_pair_range _ 0).
    assert (0 <= from_bytes_big (slice (inner frame) 2 4) < 65536)
      by apply (slice_pair_range _ 2).
    lia. }
  destruct (Z.land func 127 =? 16); [|exact Hticked].
  destruct (parser.parse_fc16_request frame) as [[[u start_addr] values]|] eqn:Hparse;
    [|exact Hticked].
  apply parse_fc16_request_inv in Hparse
    as (_ & count & _ & _ & _ & Hcount & -> & Hvalues & _).
  cbv zeta in Hvalues. apply index_range in Hcount.
  pose proof (be16_words_range (slice (inner frame) 5 (5 + count))) as Hrange.
  pose proof (be16_words_slice_count (inner frame) 5 count Hcount) as Hmany.
  assert (Hstart : 0 <= from_bytes_big (slice (inner frame) 0 2) < 65536)
    by apply (slice_pair_range _ 0).
  apply well_formed_store_registers; [exact Hticked|].
  apply register_updates_ok; [exact Hunit | lia | |].
  - subst values. destruct (_ && _).
    + pose proof (proj1 (slice_prefix_length
                           (be16_words (slice (inner frame) 5 (5 + count)))
                           (from_bytes_big (slice (inner frame) 2 4)))).
      unfold len in *. lia.
    + unfold len. lia.
  - subst values. destruct (_ && _); [|exact Hrange].
    unfold slice. change (Z.to_nat 0) with 0%nat. rewrite drop_0.
    now apply Forall_take.
Qed.

Lemma well_formed_handle_frames (frames : list bytes) (self self' : ModbusSnifferHub) :
  well_formed self -> handle_frames frames self = Some self' -> well_formed self'.
Proof.
  revert self. induction frames as [|frame frames IH]; intros self Hself; simpl.
  - now intros [= <-].
  - destruct (_handle_frame frame self) as [mid|] eqn:Hmid; [|discriminate].
    cbn [mbind option_bind]. apply IH. eapply well_formed_handle_frame; eauto.
Qed.

Lemma well_formed_process_bytes (data : bytes) (self self' : ModbusSnifferHub) :
  well_formed self -> (length (_buffer self) <= 3)%nat ->
  _process_bytes data self = Some self' ->
  well_formed self' /\ (length (_buffer self') <= 3)%nat.
Proof.
  intros Hself Hbuf Hrun. destruct data as [|b data].
  { injection Hrun as <-. auto. }
  destruct (_process_bytes_run (b :: data) self)
    as (frames & leftover & final & _ & Hframes & Hsame & Hleft & Hshort);
    [discriminate|].
  rewrite Hsame in Hrun. injection Hrun as <-. split; [|now rewrite Hleft].
  eapply well_formed_handle_frames; [|exact Hframes]. exact Hself.
Qed.

(** X16. In every state the hub can reach, the buffer holds at most 3 bytes,
    every update dispatched so far has a unit in 0..255, a value in
    0..65535 and a register in 0..65662, every stored sample sits under its
    own (unit, register), and every pending request has a 16-bit start
    address and quantity. Registers are not reduced to 16 bits: a Write
    Multiple Registers request for 2 registers at 0xFFFF dispatches
    register 65536. *)
Theorem reachable_well_formed (clock : nat -> Q) (self : ModbusSnifferHub) :
  reachable clock self ->
  (length (_buffer self) <= 3)%nat /\
  Forall update_ok (dispatched self) /\
  Forall sample_ok (_values self) /\
  (forall unit, Forall entry_ok (pending self unit)) /\
  exists beyond,
    reachable clock beyond /\ (1, 65536, 20) ∈ dispatched beyond.
Proof.
  intros Hreach.
  assert (Hinv : well_formed self /\ (length (_buffer self) <= 3)%nat).
  { induction Hreach as [|self data self' _ [Hself Hbuf] Hrun
                          |self _ [Hself Hbuf]|self _ [Hself Hbuf]].
    - split; [|simpl; lia]. split; [constructor|]. split; [constructor|].
      intros unit. unfold pending, new_hub. cbn [_pending_reads].
      rewrite lookup_empty. constructor.
    - now apply (well_formed_process_bytes data self).
    - split; [exact Hself | simpl; lia].
    - split; [|simpl; lia]. destruct Hself as (Hdisp & Hvalues & _).
      split; [exact Hdisp|]. split; [exact Hvalues|].
      intros unit. rewrite pending_async_stop. constructor. }
  destruct Hinv as [(Hdisp & Hvalues & Hpending) Hbuf].
  do 4 (split; [assumption|]).
  pose (request := framed ([x01; x10] ++ be16 65535 ++ be16 2 ++ [x04]
                           ++ be16 10 ++ be16 20)).
  assert (Hsent : dispatched <$> _process_bytes request (new_hub clock)
                  = Some [(1, 65535, 10); (1, 65536, 20)])
    by (vm_compute; reflexivity).
  destruct (_process_bytes request (new_hub clock)) as [beyond|] eqn:Hrun;
    [|discriminate].
  injection Hsent as Hsent. exists beyond. split.
  - eapply reachable_bytes; [apply reachable_new | exact Hrun].
  - rewrite Hsent. apply elem_of_cons. right. apply elem_of_cons. now left.
Qed.

Lemma reachable_well_formed_witness :
  reachable tick_clock (new_hub tick_clock) /\
  (length (_buffer (new_hub tick_clock)) <= 3)%nat /\
  Forall update_ok (dispatched (new_hub tick_clock)) /\
  Forall sample_ok (_values (new_hub tick_clock)) /\
  (forall unit, Forall entry_ok (pending (new_hub tick_clock) unit)) /\
  exists beyond,
    reachable tick_clock beyond /\ (1, 65536, 20) ∈ dispatched beyond.
Proof.
  split; [apply reachable_new|].
  apply (reachable_well_formed tick_clock (new_hub tick_clock)). apply reachable_new.
Defined.

(** ** Arrival order of the pending requests *)

Lemma queue_ordered_later (clock : nat -> Q) (n m : nat) (queue : list PendingRead) :
  (n <= m)%nat -> queue_ordered clock n queue -> queue_ordered clock m queue.
Proof.
  intros Hle [Hstamped Hsorted]. split; [|exact Hsorted].
  eapply Forall_impl; [exact Hstamped|].
  intros entry (i & Hi & Hat). exists i. split; [lia | exact Hat].
Qed.

Lemma queue_ordered_purge (clock : nat -> Q) (n : nat) (now : Q)
    (queue : list PendingRead) :
  queue_ordered clock n queue -> queue_ordered clock n (purge now queue).
Proof.
  destruct (purge_drop now queue) as (k & -> & _).
  intros [Hstamped Hsorted]. split.
  - now apply Forall_drop.
  - rewrite <- (take_drop k queue) in Hsorted.
    now apply StronglySorted_app_1_r in Hsorted.
Qed.

Lemma queue_ordered_tail (clock : nat -> Q) (n : nat) (entry : PendingRead)
    (queue : list PendingRead) :
  queue_ordered clock n (entry :: queue) -> queue_ordered clock n queue.
Proof.
  intros [Hstamped Hsorted]. split.
  - now apply Forall_cons in Hstamped as [_ Hrest].
  - now apply StronglySorted_cons in Hsorted as [_ Hrest].
Qed.

(** The entry appended for a request carries the current reading, which a
    clock that never goes back puts after all the earlier ones. *)
Lemma queue_ordered_snoc (clock : nat -> Q) (n : nat) (start_addr quantity : Z)
    (queue : list PendingRead) :
  monotone clock -> queue_ordered clock n queue ->
  queue_ordered clock (S n) (queue ++ [(start_addr, quantity, clock n)]).
Proof.
  intros Hclock [Hstamped Hsorted]. split.
  - apply Forall_app. split.
    + eapply Forall_impl; [exact Hstamped|].
      intros entry (i & Hi & Hat). exists i. split; [lia | exact Hat].
    + constructor; [|constructor]. exists n. split; [lia | reflexivity].
  - apply StronglySorted_app_2; [|exact Hsorted|].
    + intros earlier latest Hin Hlast.
      apply list_elem_of_singleton in Hlast as ->.
      rewrite Forall_forall in Hstamped.
      destruct (Hstamped _ Hin) as (i & Hi & Hat).
      unfold by_arrival. rewrite Hat. cbn [snd]. apply Hclock. lia.
    + constructor; constructor.
Qed.

Lemma arrival_ordered_set_pending (clock : nat -> Q) (self : ModbusSnifferHub)
    (unit : Z) (queue : list PendingRead) :
  arrival_ordered clock self ->
  queue_ordered clock (clock_reads self) queue ->
  arrival_ordered clock (set_pending self unit queue).
Proof.
  intros [Hclock Hqueues] Hqueue. split; [exact Hclock|].
  intros other. cbn [set_pending clock_reads].
  destruct (decide (unit = other)) as [<-|Hne].
  - now rewrite pending_set_pending.
  - rewrite pending_set_pending_ne by exact Hne. apply Hqueues.
Qed.

Lemma arrival_ordered_time (clock : nat -> Q) (self : ModbusSnifferHub) :
  arrival_ordered clock self -> arrival_ordered clock (time self).2.
Proof.
  intros [Hclock Hqueues]. split; [exact Hclock|].
  intros unit. apply (queue_ordered_later clock (clock_reads self)); [simpl; lia|].
  apply Hqueues.
Qed.

Lemma arrival_ordered_store (clock : nat -> Q) (u r v : Z) (self : ModbusSnifferHub) :
  arrival_ordered clock self -> arrival_ordered clock (_store_register u r v self).
Proof.
  intros [Hclock Hqueues]. split; [exact Hclock|].
  intros unit. apply (queue_ordered_later clock (clock_reads self)); [simpl; lia|].
  apply Hqueues.
Qed.

Lemma arrival_ordered_purge (clock : nat -> Q) (unit : Z) (now : Q)
    (self : ModbusSnifferHub) :
  arrival_ordered clock self ->
  arrival_ordered clock (_purge_old_requests unit now self).
Proof.
  intros Hself. apply arrival_ordered_set_pending; [exact Hself|].
  apply queue_ordered_purge, Hself.
Qed.

Lemma arrival_ordered_pop (clock : nat -> Q) (unit values_len : Z) (now : Q)
    (self popped : ModbusSnifferHub) (start_addr : option Z) :
  arrival_ordered clock self ->
  _pop_matching_request unit values_len now self = (start_addr, popped) ->
  arrival_ordered clock popped.
Proof.
  intros Hself. rewrite _pop_matching_request_purged.
  pose proof (queue_ordered_purge clock _ now _ (proj2 Hself unit)) as Hqueue.
  destruct (purge now (pending self unit)) as [|[[start quantity] t] rest].
  - intros [= _ <-]. now apply arrival_ordered_purge.
  - intros [= _ <-].
    apply arrival_ordered_set_pending; [now apply arrival_ordered_purge|].
    exact (queue_ordered_tail _ _ _ _ Hqueue).
Qed.

Lemma arrival_ordered_handle_frame (clock : nat -> Q) (frame : bytes)
    (self self' : ModbusSnifferHub) :
  monotone clock -> arrival_ordered clock self ->
  _handle_frame frame self = Some self' -> arrival_ordered clock self'.
Proof.
  intros Hclock Hself. unfold _handle_frame.
  destruct (index frame 0) as [unit|]; [|discriminate].
  destruct (index frame 1) as [func|]; [|discriminate].
  cbn [mbind option_bind]. intros [= <-].
  pose proof (arrival_ordered_time clock self Hself) as Hticked.
  assert (Hstores : forall unit start_addr values s,
            arrival_ordered clock s ->
            arrival_ordered clock (store_registers unit start_addr values s)).
  { intros u start_addr values s Hs. apply store_registers_preserves; [exact Hs|].
    intros s' update Hs' _. now apply arrival_ordered_store. }
  destruct (Z.land func 127 =? 3).
  { destruct (parser.parse_fc03_request frame) as [[[u start_addr] quantity]|].
    - apply arrival_ordered_purge, arrival_ordered_set_pending; [exact Hticked|].
      destruct Hself as [Hloop Hqueues]. rewrite Hloop.
      apply (queue_ordered_snoc clock (clock_reads self)); [exact Hclock|].
      apply Hqueues.
    - destruct (parser.parse_fc03_response frame) as [[u values]|]; [|exact Hticked].
      destruct (_pop_matching_request _ _ _ _) as [start m] eqn:Hpop.
      apply Hstores. exact (arrival_ordered_pop _ _ _ _ _ _ _ Hticked Hpop). }
  destruct (Z.land func 127 =? 6).
  { destruct (parser.parse_fc06 frame) as [[[u register] value]|]; [|exact Hticked].
    now apply arrival_ordered_store. }
  destruct (Z.land func 127 =? 16); [|exact Hticked].
  destruct (parser.parse_fc16_request frame) as [[[u start_addr] values]|];
    [|exact Hticked].
  now apply Hstores.
Qed.

Lemma arrival_ordered_handle_frames (clock : nat -> Q) (frames : list bytes)
    (self self' : ModbusSnifferHub) :
  monotone clock -> arrival_ordered clock self ->
  handle_frames frames self = Some self' -> arrival_ordered clock self'.
Proof.
  intros Hclock. revert self.
  induction frames as [|frame frames IH]; intros self Hself; simpl.
  - now intros [= <-].
  - destruct (_handle_frame frame self) as [mid|] eqn:Hmid; [|discriminate].
    cbn [mbind option_bind]. apply IH.
    eapply arrival_ordered_handle_frame; eauto.
Qed.

Lemma arrival_ordered_process_bytes (clock : nat -> Q) (data : bytes)
    (self self' : ModbusSnifferHub) :
  monotone clock -> arrival_ordered clock self ->
  _process_bytes data self = Some self' -> arrival_ordered clock self'.
Proof.
  intros Hclock Hself Hrun. destruct data as [|b data].
  { now injection Hrun as <-. }
  destruct (_process_bytes_run (b :: data) self)
    as (frames & leftover & final & _ & Hframes & Hsame & _); [discriminate|].
  rewrite Hsame in Hrun. injection Hrun as <-.
  eapply arrival_ordered_handle_frames; [exact Hclock| |exact Hframes].
  exact Hself.
Qed.

(** X17. With a clock that never goes back, every FIFO of pending requests
    of a reachable hub is in arrival order; so the purge, which only ever
    looks at the head of the FIFO, leaves no request behind that is 5.001
    seconds old or older, whatever the unit and the time of the purge. *)
Theorem pending_in_arrival_order (clock : nat -> Q) (self : ModbusSnifferHub) :
  monotone clock -> reachable clock self ->
  forall unit,
    StronglySorted by_arrival (pending self unit) /\
    forall now,
      Forall (fun entry : PendingRead => (now - entry.2 < (5001 # 1000))%Q)
             (pending (_purge_old_requests unit now self) unit).
Proof.
  intros Hclock Hreach.
  assert (Hinv : arrival_ordered clock self).
  { induction Hreach as [|self data self' _ Hself Hrun|self _ Hself
                          |self _ [Hloop _]].
    - split; [reflexivity|]. intros unit. unfold pending, new_hub.
      cbn [_pending_reads]. rewrite lookup_empty. split; constructor.
    - exact (arrival_ordered_process_bytes clock data self self' Hclock Hself Hrun).
    - exact Hself.
    - split; [exact Hloop|]. intros unit. rewrite pending_async_stop.
      split; constructor. }
  intros unit. destruct Hinv as [_ Hqueues]. destruct (Hqueues unit) as [_ Hsorted].
  split; [exact Hsorted|]. intros now.
  unfold _purge_old_requests. rewrite pending_set_pending.
  eapply Forall_impl; [now apply purge_sorted_fresh|].
  intros entry Hfresh. cbv beta in Hfresh. lra.
Qed.

Lemma tick_clock_monotone : monotone tick_clock.
Proof. intros i j Hle. unfold tick_clock. rewrite <- Zle_Qle. lia. Qed.

Lemma pending_in_arrival_order_witness :
  let requests := fc03_request_frame 1 16 2 ++ fc03_request_frame 1 32 2 in
  let self := default (new_hub tick_clock)
                (_process_bytes requests (new_hub tick_clock)) in
  monotone tick_clock /\
  reachable tick_clock self /\
  pending self 1 = [(16, 2, tick_clock 0); (32, 2, tick_clock 1)] /\
  forall unit,
    StronglySorted by_arrival (pending self unit) /\
    forall now,
      Forall (fun entry : PendingRead => (now - entry.2 < (5001 # 1000))%Q)
             (pending (_purge_old_requests unit now self) unit).
Proof.
  cbv zeta.
  assert (Hreach : reachable tick_clock
                     (default (new_hub tick_clock)
                        (_process_bytes
                           (fc03_request_frame 1 16 2 ++ fc03_request_frame 1 32 2)
                           (new_hub tick_clock)))).
  { apply (reachable_bytes _ (new_hub tick_clock)
             (fc03_request_frame 1 16 2 ++ fc03_request_frame 1 32 2));
      [apply reachable_new|].
    now destruct (_process_bytes_run
                    (fc03_request_frame 1 16 2 ++ fc03_request_frame 1 32 2)
                    (new_hub tick_clock))
      as (frames & leftover & final & _ & _ & -> & _). }
  split; [apply tick_clock_monotone|]. split; [exact Hreach|].
  split; [vm_compute; reflexivity|].
  exact (pending_in_arrival_order tick_clock _ tick_clock_monotone Hreach).
Defined.

(** ** The sensor and the hub *)

(** What holds of the signals sent and the samples stored, and is kept by
    each [_store_register], is kept by handling a frame. *)
Lemma handle_frame_stores (P : ModbusSnifferHub -> Prop) :
  (forall s s', dispatched s' = dispatched s -> _values s' = _values s -> P s -> P s') ->
  (forall s u r v, P s -> P (_store_register u r v s)) ->
  forall frame s s', _handle_frame frame s = Some s' -> P s -> P s'.
Proof.
  intros Hsame Hstore frame self self'. unfold _handle_frame.
  destruct (index frame 0) as [unit|]; [|discriminate].
  destruct (index frame 1) as [func|]; [|discriminate].
  cbn [mbind option_bind]. intros [= <-] Hself.
  assert (Hticked : P (time self).2) by (revert Hself; now apply Hsame).
  assert (Hstores : forall unit start_addr values s,
            P s -> P (store_registers unit start_addr values s)).
  { intros u start_addr values s Hs. apply store_registers_preserves; [exact Hs|].
    intros s' update Hs' _. now apply Hstore. }
  destruct (Z.land func 127 =? 3).
  { destruct (parser.parse_fc03_request frame) as [[[u start_addr] quantity]|].
    - revert Hticked. now apply Hsame.
    - destruct (parser.parse_fc03_response frame) as [[u values]|]; [|exact Hticked].
      destruct (_pop_matching_request _ _ _ _) as [start m] eqn:Hpop.
      apply Hstores. revert Hticked. apply Hsame.
      + now apply _pop_matching_request_frame in Hpop as [_ ->].
      + revert Hpop. rewrite _pop_matching_request_purged.
        destruct (purge _ _) as [|[[? ?] ?] ?]; now intros [= _ <-]. }
  destruct (Z.land func 127 =? 6).
  { destruct (parser.parse_fc06 frame) as [[[u register] value]|]; [|exact Hticked].
    now apply Hstore. }
  destruct (Z.land func 127 =? 16); [|exact Hticked].
  destruct (parser.parse_fc16_request frame) as [[[u start_addr] values]|];
    [|exact Hticked].
  now apply Hstores.
Qed.

Lemma process_bytes_stores (P : ModbusSnifferHub -> Prop) :
  (forall s s', dispatched s' = dispatched s -> _values s' = _values s -> P s -> P s') ->
  (forall s u r v, P s -> P (_store_register u r v s)) ->
  forall data s s', _process_bytes data s = Some s' -> P s -> P s'.
Proof.
  intros Hsame Hstore data self self' Hrun Hself.
  assert (Hframes : forall frames s s',
            handle_frames frames s = Some s' -> P s -> P s').
  { induction frames as [|frame frames IH]; intros s s'; simpl.
    - now intros [= <-].
    - destruct (_handle_frame frame s) as [mid|] eqn:Hmid; [|discriminate].
      cbn [mbind option_bind]. intros Hrest Hs. apply (IH mid s' Hrest).
      exact (handle_frame_stores P Hsame Hstore frame s mid Hmid Hs). }
  destruct data as [|b data].
  { now injection Hrun as <-. }
  destruct (_process_bytes_run (b :: data) self)
    as (frames & leftover & final & _ & Hhandled & Hfinal & _); [discriminate|].
  rewrite Hfinal in Hrun. injection Hrun as <-.
  apply (Hframes frames (set_buffer self leftover) final Hhandled).
  revert Hself. now apply Hsame.
Qed.

Lemma listen_snoc (updates : list RegisterUpdate) (update : RegisterUpdate)
    (self : sensor.ModbusSnifferSensor) :
  listen (updates ++ [update]) self
  = sensor._handle_register_update update.1.1 update.1.2 update.2
      (listen updates self).
Proof. unfold listen. now rewrite foldl_app. Qed.

Lemma listen_config (updates : list RegisterUpdate)
    (self : sensor.ModbusSnifferSensor) :
  sensor._register (listen updates self) = sensor._register self /\
  sensor._unit_id (listen updates self) = sensor._unit_id self.
Proof.
  induction updates as [|update updates IH] using rev_ind; [now split|].
  rewrite listen_snoc. destruct IH as [<- <-].
  generalize (listen updates self). intros s.
  unfold sensor._handle_register_update.
  destruct (negb _); [now split|].
  destruct (sensor._unit_id s) eqn:Hunit; [destruct (negb _)|]; now split.
Qed.

(** A sensor that hears the signals of its hub alone holds what the hub
    holds. *)
Lemma sensor_tracks_hub (before after : ModbusSnifferHub) (unit register : Z) :
  evolves before after ->
  sensor._raw_value
    (listen (later_updates before after)
       (sensor.async_added_to_hass before (sensor.new_sensor (Some unit) register)))
  = get_register (Some unit) register after.
Proof.
  intros Hlater.
  set (added := sensor.async_added_to_hass before
                  (sensor.new_sensor (Some unit) register)).
  set (P := fun s : ModbusSnifferHub =>
              (length (dispatched before) <= length (dispatched s))%nat /\
              sensor._raw_value (listen (later_updates before s) added)
              = get_register (Some unit) register s).
  assert (Hconfig : sensor._register added = register /\
                    sensor._unit_id added = Some unit).
  { unfold added, sensor.async_added_to_hass. cbn [sensor.new_sensor
      sensor._unit_id sensor._register].
    now destruct (get_register _ _ _). }
  assert (Hsame : forall s s', dispatched s' = dispatched s ->
                    _values s' = _values s -> P s -> P s').
  { intros s s' Hd Hv [Hlen Hraw]. unfold P, later_updates, get_register.
    rewrite Hd, Hv. split; [exact Hlen | exact Hraw]. }
  assert (Hstore : forall s u r v, P s -> P (_store_register u r v s)).
  { intros s u r v [Hlen Hraw]. unfold P, later_updates.
    rewrite (proj1 (_store_register_effect u r v s)).
    rewrite length_app. split; [lia|].
    rewrite drop_app_le by exact Hlen. rewrite listen_snoc. cbn [fst snd].
    fold (later_updates before s).
    destruct (listen_config (later_updates before s) added) as [Hreg Hunit].
    unfold sensor._handle_register_update. rewrite Hreg, Hunit.
    destruct Hconfig as [-> ->].
    destruct (Z.eqb_spec r register) as [->|Hr]; cbn [negb].
    + destruct (Z.eqb_spec u unit) as [->|Hu]; cbn [negb].
      * now rewrite (proj1 (get_register_after_store_eq unit register v s)).
      * rewrite Hraw. symmetry.
        apply (proj2 (get_register_after_store_eq u register v s)). congruence.
    + rewrite Hraw. symmetry.
      apply (proj2 (get_register_after_store_eq u r v s)). congruence. }
  assert (Hinv : P after).
  { induction Hlater as [|mid data final _ IH Hrun|mid _ IH|mid _ IH].
    - split; [lia|]. unfold later_updates. rewrite drop_all. cbn [listen foldl].
      unfold added, sensor.async_added_to_hass.
      cbn [sensor.new_sensor sensor._unit_id sensor._register].
      now destruct (get_register (Some unit) register before).
    - exact (process_bytes_stores P Hsame Hstore data mid final Hrun IH).
    - revert IH. now apply Hsame.
    - revert IH. now apply Hsame. }
  exact (proj2 Hinv).
Qed.

Lemma listen_cons (update : RegisterUpdate) (updates : list RegisterUpdate)
    (self : sensor.ModbusSnifferSensor) :
  listen (update :: updates) self
  = listen updates
      (sensor._handle_register_update update.1.1 update.1.2 update.2 self).
Proof. reflexivity. Qed.

Lemma handle_update_config (update : RegisterUpdate)
    (self : sensor.ModbusSnifferSensor) :
  let self' := sensor._handle_register_update update.1.1 update.1.2 update.2 self in
  sensor._register self' = sensor._register self /\
  sensor._unit_id self' = sensor._unit_id self.
Proof.
  cbv zeta. unfold sensor._handle_register_update.
  destruct (negb _); [now split|].
  destruct (sensor._unit_id self) eqn:Hunit; [destruct (negb _)|]; now split.
Qed.

(** The signals of other hubs that are not for the sensor's (unit,
    register) leave the sensor as it is. *)
Lemma listen_interleaved (unit register : Z) (own others heard : list RegisterUpdate) :
  interleaved own others heard ->
  Forall (fun update : RegisterUpdate => (update.1.1, update.1.2) <> (unit, register))
         others ->
  forall self,
    sensor._register self = register -> sensor._unit_id self = Some unit ->
    listen heard self = listen own self.
Proof.
  induction 1 as [|x own others heard _ IH|x own others heard _ IH];
    intros Hothers self Hregister Hunit.
  - reflexivity.
  - rewrite !listen_cons.
    destruct (handle_update_config x self) as [Hr Hu].
    apply IH; [exact Hothers | congruence | congruence].
  - apply Forall_cons in Hothers as [Hx Hothers].
    rewrite listen_cons.
    replace (sensor._handle_register_update x.1.1 x.1.2 x.2 self) with self;
      [now apply IH|].
    unfold sensor._handle_register_update. rewrite Hregister, Hunit.
    destruct (Z.eqb_spec x.1.2 register) as [Hr|_]; [|reflexivity].
    destruct (Z.eqb_spec x.1.1 unit) as [Hu|_]; [|reflexivity].
    exfalso. apply Hx. congruence.
Qed.

(** X18. All hubs send their updates on one signal, and a sensor takes
    every update that fits its register and unit id. A sensor configured
    with a unit id and added to a running hub therefore shows at every
    later time the value that its hub holds for its (unit, register),
    [_raw_value] being equal to [get_register] (both [None] while no value
    has been seen), provided the other hubs send no update for that (unit,
    register) in the meantime. When another hub does, the sensor takes its
    value: it then holds 10 while [get_register] on its own hub is [None].
    A sensor without unit id can part from its hub even alone: after
    writes to one register by unit 1, unit 2 and unit 1 again, it holds
    the last value and [get_register] returns the one of unit 2. *)
Theorem sensor_follows_hub (before after : ModbusSnifferHub) (unit register : Z)
    (others heard : list RegisterUpdate) :
  evolves before after ->
  interleaved (later_updates before after) others heard ->
  Forall (fun update : RegisterUpdate => (update.1.1, update.1.2) <> (unit, register))
         others ->
  sensor._raw_value
    (listen heard
       (sensor.async_added_to_hass before (sensor.new_sensor (Some unit) register)))
  = get_register (Some unit) register after /\
  (exists clock other heard',
     evolves (new_hub clock) other /\
     interleaved [] (later_updates (new_hub clock) other) heard' /\
     sensor._raw_value
       (listen heard'
          (sensor.async_added_to_hass (new_hub clock) (sensor.new_sensor (Some 1) 5)))
     = Some 10 /\
     get_register (Some 1) 5 (new_hub clock) = None) /\
  exists clock later,
    evolves (new_hub clock) later /\
    sensor._raw_value
      (listen (later_updates (new_hub clock) later)
         (sensor.async_added_to_hass (new_hub clock) (sensor.new_sensor None 5)))
    = Some 30 /\
    get_register None 5 later = Some 20.
Proof.
  intros Hlater Hheard Hothers. split; [|split].
  - rewrite (listen_interleaved unit register _ _ _ Hheard Hothers).
    + now apply sensor_tracks_hub.
    + unfold sensor.async_added_to_hass.
      cbn [sensor.new_sensor sensor._unit_id sensor._register].
      now destruct (get_register _ _ _).
    + unfold sensor.async_added_to_hass.
      cbn [sensor.new_sensor sensor._unit_id sensor._register].
      now destruct (get_register _ _ _).
  - exists tick_clock.
    destruct (_process_bytes (fc06_frame 1 5 10) (new_hub tick_clock))
      as [other|] eqn:Hrun; [|revert Hrun; vm_compute; discriminate].
    assert (Hsent : dispatched <$> _process_bytes (fc06_frame 1 5 10) (new_hub tick_clock)
                    = Some [(1, 5, 10)])
      by (vm_compute; reflexivity).
    rewrite Hrun in Hsent. injection Hsent as Hsent.
    exists other, [(1, 5, 10)]. split; [|split; [|split]].
    + eapply evolves_bytes; [apply evolves_refl | exact Hrun].
    + unfold later_updates. rewrite Hsent. cbn [new_hub dispatched length drop].
      apply interleaved_other, interleaved_nil.
    + reflexivity.
    + reflexivity.
  - exists tick_clock.
    pose (data := fc06_frame 1 5 10 ++ fc06_frame 2 5 20 ++ fc06_frame 1 5 30).
    destruct (_process_bytes data (new_hub tick_clock)) as [later|] eqn:Hrun;
      [|revert Hrun; vm_compute; discriminate].
    exists later. split.
    + eapply evolves_bytes; [apply evolves_refl | exact Hrun].
    + assert (Hsent : dispatched <$> _process_bytes data (new_hub tick_clock)
                      = Some [(1, 5, 10); (2, 5, 20); (1, 5, 30)])
        by (vm_compute; reflexivity).
      assert (Hread : get_register None 5 <$> _process_bytes data (new_hub tick_clock)
                      = Some (Some 20))
        by (vm_compute; reflexivity).
      rewrite Hrun in Hsent, Hread. injection Hsent as Hsent.
      injection Hread as Hread. split; [|exact Hread].
      unfold later_updates. rewrite Hsent. reflexivity.
Qed.

Lemma sensor_follows_hub_witness :
  let before := new_hub tick_clock in
  let after := default before (_process_bytes (fc06_frame 1 5 10) before) in
  let others := [(2, 5, 99); (1, 6, 98)] in
  let heard := [(2, 5, 99); (1, 5, 10); (1, 6, 98)] in
  evolves before after /\
  interleaved (later_updates before after) others heard /\
  Forall (fun update : RegisterUpdate => (update.1.1, update.1.2) <> (1, 5)) others /\
  sensor._raw_value
    (listen heard
       (sensor.async_added_to_hass before (sensor.new_sensor (Some 1) 5)))
  = get_register (Some 1) 5 after /\
  get_register (Some 1) 5 after = Some 10.
Proof.
  cbv zeta.
  assert (Hlater : evolves (new_hub tick_clock)
                     (default (new_hub tick_clock)
                        (_process_bytes (fc06_frame 1 5 10) (new_hub tick_clock)))).
  { apply (evolves_bytes _ (new_hub tick_clock) (fc06_frame 1 5 10));
      [apply evolves_refl|].
    now destruct (_process_bytes_run (fc06_frame 1 5 10) (new_hub tick_clock))
      as (frames & leftover & final & _ & _ & -> & _). }
  assert (Hheard : interleaved
                     (later_updates (new_hub tick_clock)
                        (default (new_hub tick_clock)
                           (_process_bytes (fc06_frame 1 5 10) (new_hub tick_clock))))
                     [(2, 5, 99); (1, 6, 98)]
                     [(2, 5, 99); (1, 5, 10); (1, 6, 98)]).
  { replace (later_updates (new_hub tick_clock)
               (default (new_hub tick_clock)
                  (_process_bytes (fc06_frame 1 5 10) (new_hub tick_clock))))
      with [(1, 5, 10)] by (vm_compute; reflexivity).
    apply interleaved_other, interleaved_own, interleaved_other, interleaved_nil. }
  assert (Hothers : Forall (fun update : RegisterUpdate =>
                              (update.1.1, update.1.2) <> (1, 5))
                           [(2, 5, 99); (1, 6, 98)])
    by (repeat constructor; discriminate).
  split; [exact Hlater|]. split; [exact Hheard|]. split; [exact Hothers|].
  split; [|vm_compute; reflexivity].
  exact (proj1 (sensor_follows_hub _ _ 1 5 _ _ Hlater Hheard Hothers)).
Defined.

(** ** The TCP listener of the web server *)

(** One pass of the buffer loop: whatever is cut off in front of the
    leftover of the reconstructor is handed over in one piece, and the
    leftover stays. The flush of an overgrown buffer is never reached. *)
Lemma drain_buffer_run (fuel : nat) (buffer_size : Z) (buffer : bytes)
    (handed : list bytes) :
  1 <= buffer_size -> (2 <= fuel)%nat ->
  exists frames leftover,
    udp_web_server.split_modbus_frames buffer = Some (frames, leftover) /\
    (length leftover <= 3)%nat /\
    buffer = take (length buffer - length leftover) buffer ++ leftover /\
    udp_web_server.drain_buffer fuel buffer_size buffer handed
    = Some (leftover,
            if (length buffer <=? 3)%nat then handed
            else handed ++ [take (length buffer - length leftover) buffer]).
Proof.
  intros Hsize Hfuel.
  destruct (split_frames_layout udp_web_server._candidate_frame_lengths buffer)
    as (frames & leftover & gaps & Hsplit & _ & Hlayout & _ & Hleft).
  exists frames, leftover. split; [exact Hsplit|]. split; [exact Hleft|].
  assert (Hcut : buffer = take (length buffer - length leftover) buffer ++ leftover).
  { rewrite Hlayout, length_app.
    replace (length (weave gaps frames) + length leftover - length leftover)%nat
      with (length (weave gaps frames)) by lia.
    now rewrite take_app_length. }
  split; [exact Hcut|].
  destruct fuel as [|[|fuel]]; [lia | lia |].
  destruct buffer as [|b buffer].
  { rewrite (split_frames_short _ []) in Hsplit by (simpl; lia).
    now injection Hsplit as <- <-. }
  cbn [udp_web_server.drain_buffer].
  unfold udp_web_server.split_modbus_frames in *. rewrite Hsplit.
  cbn [mbind option_bind].
  destruct (Nat.leb_spec (length (b :: buffer)) 3) as [Hshort|Hlong].
  - rewrite (split_frames_short _ (b :: buffer) Hshort) in Hsplit.
    injection Hsplit as <- <-. rewrite Z.sub_diag. cbn [Z.ltb Z.compare].
    destruct (Z.ltb_spec (buffer_size * 4) (len (b :: buffer))) as [Hflush|_];
      [|reflexivity].
    unfold len in Hflush. lia.
  - destruct (Z.ltb_spec 0 (len (b :: buffer) - len leftover)) as [_|Hnone];
      [|unfold len in Hnone; lia].
    replace (slice (b :: buffer) 0 (len (b :: buffer) - len leftover))
      with (take (length (b :: buffer) - length leftover) (b :: buffer)).
    2:{ unfold slice, len. change (Z.to_nat 0) with 0%nat. rewrite drop_0.
        f_equal. lia. }
    destruct leftover as [|l leftover]; [reflexivity|].
    cbn [udp_web_server.drain_buffer].
    rewrite (split_frames_short _ (l :: leftover) Hleft). cbn [mbind option_bind].
    rewrite Z.sub_diag. cbn [Z.ltb Z.compare].
    destruct (Z.ltb_spec (buffer_size * 4) (len (l :: leftover))) as [Hflush|_];
      [|reflexivity].
    unfold len in Hflush. lia.
Qed.

(** X19. As long as no receive fails, the TCP listener hands every byte it
    receives to [process_incoming_payload] exactly once and in order,
    except for the last 3 bytes at most, which wait in the buffer for the
    next chunk or for the peer to close. No payload handed over is empty,
    and there is at most one per [recv]. *)
Theorem tcp_listener_conserves (fuel : nat) (buffer_size : Z) (chunks : list bytes)
    (buffer0 : bytes) (handed0 : list bytes) :
  1 <= buffer_size -> (2 <= fuel)%nat -> (length buffer0 <= 3)%nat ->
  exists buffer handed,
    udp_web_server.tcp_client_listener fuel buffer_size
      (udp_web_server.received <$> chunks) buffer0 handed0
    = Some (buffer, handed0 ++ handed) /\
    concat handed ++ buffer = buffer0 ++ concat chunks /\
    (length buffer <= 3)%nat /\
    Forall (fun payload => payload <> []) handed /\
    (length handed <= length chunks)%nat.
Proof.
  intros Hsize Hfuel. revert buffer0 handed0.
  induction chunks as [|chunk chunks IH]; intros buffer0 handed0 Hbuffer0.
  { exists buffer0, []. cbn. rewrite !app_nil_r. repeat split; auto. }
  assert (Hgrow : forall (mid : bytes) (one handed1 : list bytes),
            handed1 = handed0 ++ one ->
            (length mid <= 3)%nat ->
            concat one ++ mid = buffer0 ++ chunk ->
            Forall (fun payload => payload <> []) one ->
            (length one <= 1)%nat ->
            exists buffer handed,
              udp_web_server.tcp_client_listener fuel buffer_size
                (udp_web_server.received <$> chunks) mid handed1
              = Some (buffer, handed0 ++ handed) /\
              concat handed ++ buffer = buffer0 ++ concat (chunk :: chunks) /\
              (length buffer <= 3)%nat /\
              Forall (fun payload => payload <> []) handed /\
              (length handed <= length (chunk :: chunks))%nat).
  { intros mid one handed1 -> Hmid Hcat Hone Hcount.
    destruct (IH mid (handed0 ++ one) Hmid)
      as (buffer & handed & Hrun & Hall & Hshort & Hfull & Hmany).
    exists buffer, (one ++ handed). rewrite app_assoc. split; [exact Hrun|].
    rewrite concat_app, <- app_assoc, Hall, app_assoc, Hcat. cbn [concat].
    rewrite <- app_assoc. split; [reflexivity|]. split; [exact Hshort|].
    split; [now apply Forall_app|]. rewrite length_app. simpl. lia. }
  destruct chunk as [|c chunk].
  - cbn [fmap list_fmap udp_web_server.tcp_client_listener].
    destruct buffer0 as [|b buffer0].
    + apply (Hgrow [] [] handed0).
      * now rewrite app_nil_r.
      * simpl. lia.
      * reflexivity.
      * constructor.
      * simpl. lia.
    + apply (Hgrow [] [b :: buffer0] (handed0 ++ [b :: buffer0])).
      * reflexivity.
      * simpl. lia.
      * simpl. now rewrite !app_nil_r.
      * constructor; [discriminate | constructor].
      * simpl. lia.
  - cbn [fmap list_fmap udp_web_server.tcp_client_listener].
    destruct (drain_buffer_run fuel buffer_size (buffer0 ++ c :: chunk) handed0
                Hsize Hfuel)
      as (frames & leftover & Hsplit & Hleft & Hcut & Hrun).
    rewrite Hrun. cbn [mbind option_bind].
    destruct (Nat.leb_spec (length (buffer0 ++ c :: chunk)) 3) as [Hshort|Hlong].
    + unfold udp_web_server.split_modbus_frames in Hsplit.
      rewrite (split_frames_short _ _ Hshort) in Hsplit.
      injection Hsplit as <- <-.
      apply (Hgrow (buffer0 ++ c :: chunk) [] handed0).
      * now rewrite app_nil_r.
      * exact Hshort.
      * reflexivity.
      * constructor.
      * simpl. lia.
    + apply (Hgrow leftover [take (length (buffer0 ++ c :: chunk) - length leftover)
                                  (buffer0 ++ c :: chunk)] _ eq_refl Hleft).
      * cbn [concat]. rewrite app_nil_r. now rewrite <- Hcut.
      * constructor; [|constructor]. intros Hnil.
        apply (f_equal length) in Hnil. rewrite length_take in Hnil.
        simpl in Hnil. lia.
      * simpl. lia.
Qed.

Lemma tcp_listener_conserves_witness :
  let chunks := [fc06_frame 1 5 10 ++ [x01; x06]; [x00; x07]; []] in
  1 <= 4096 /\ (2 <= 2)%nat /\ (length (@nil byte) <= 3)%nat /\
  exists buffer handed,
    udp_web_server.tcp_client_listener 2 4096
      (udp_web_server.received <$> chunks) [] []
    = Some (buffer, [] ++ handed) /\
    concat handed ++ buffer = [] ++ concat chunks /\
    (length buffer <= 3)%nat /\
    Forall (fun payload => payload <> []) handed /\
    (length handed <= length chunks)%nat.
Proof.
  cbv zeta. split; [lia|]. split; [lia|]. split; [simpl; lia|].
  apply (tcp_listener_conserves 2 4096); simpl; lia.
Defined.

(** ** The candidate lengths, spelled out *)

Lemma elem_of_range (lo hi x : Z) : x ∈ range lo hi <-> lo <= x < hi.
Proof. unfold range. rewrite elem_of_seqZ. lia. Qed.

Lemma elem_of_range_step_2 (lo hi x : Z) :
  x ∈ range_step lo hi 2 <-> lo <= x < hi /\ (x - lo) mod 2 = 0.
Proof.
  unfold range_step. rewrite list_elem_of_fmap. split.
  - intros (i & -> & Hi%elem_of_seqZ).
    replace (lo + 2 * i - lo) with (i * 2) by lia. rewrite Z.mod_mul by lia.
    split; [|reflexivity]. Z.to_euclidean_division_equations. lia.
  - intros [Hx Heven]. exists ((x - lo) / 2). rewrite elem_of_seqZ.
    Z.to_euclidean_division_equations. lia.
Qed.

(** The loops [for byte_count in ...: candidate = base + byte_count;
    if candidate <= max_len: lengths.add(candidate)]. *)
Lemma elem_of_candidates_loop (base max_len : Z) (byte_counts : list Z)
    (lengths : gset Z) (x : Z) :
  x ∈ foldl (fun (lengths : gset Z) byte_count =>
               if base + byte_count <=? max_len
               then {[base + byte_count]} ∪ lengths else lengths)
            lengths byte_counts
  <-> x ∈ lengths \/
      exists byte_count,
        byte_count ∈ byte_counts /\ x = base + byte_count /\ x <= max_len.
Proof.
  revert lengths. induction byte_counts as [|bc byte_counts IH]; intros lengths;
    cbn [foldl].
  - split; [auto|]. intros [Hx|(bc & Hbc%elem_of_nil & _)]; [exact Hx | contradiction].
  - rewrite IH. destruct (Z.leb_spec (base + bc) max_len) as [Hfit|Hout].
    + rewrite elem_of_union, elem_of_singleton. split.
      * intros [[->|Hx]|(c & Hc & -> & Hmax)]; auto.
        -- right. exists bc. split; [left | auto].
        -- right. exists c. split; [now right | auto].
      * intros [Hx|(c & Hc & -> & Hmax)]; [auto|].
        apply elem_of_cons in Hc as [->|Hc]; [auto|].
        right. exists c. auto.
    + split.
      * intros [Hx|(c & Hc & -> & Hmax)]; [auto|].
        right. exists c. split; [now right | auto].
      * intros [Hx|(c & Hc & -> & Hmax)]; [auto|].
        apply elem_of_cons in Hc as [->|Hc]; [lia|].
        right. exists c. auto.
Qed.

(** The two copies build the same set from [fc] and the exception bit; they
    differ in the [fc] they pass. *)
Lemma candidate_lengths_chain (fc : Z) (exception : bool) (max_len x : Z) :
  let add_if (base : Z) (lengths : gset Z) (byte_count : Z) : gset Z :=
    if base + byte_count <=? max_len then {[base + byte_count]} ∪ lengths
    else lengths in
  let lengths : gset Z :=
    if (fc =? 1) || (fc =? 2) then
      foldl (add_if 5) {[8]} (range 1 (Z.min 252 (max_len - 4)))
    else if (fc =? 3) || (fc =? 4) then
      foldl (add_if 5) {[8]} (range_step 2 (Z.min (2 * 125) (max_len - 5) + 1) 2)
    else if (fc =? 5) || (fc =? 6) then {[8]}
    else if fc =? 15 then
      foldl (add_if 9) {[8]} (range 1 (Z.min 246 (max_len - 9) + 1))
    else if fc =? 16 then
      foldl (add_if 9) {[8]} (range_step 2 (Z.min (2 * 123) (max_len - 9) + 1) 2)
    else if exception then {[5]}
    else ∅ in
  x ∈ sorted_filter (fun length => (4 <=? length) && (length <=? max_len))
        (if decide (lengths = ∅)
         then lengths ∪ list_to_set (range 4 (max_len + 1)) else lengths)
  <-> 4 <= x <= max_len /\ allowed_length fc exception x.
Proof.
  cbv zeta. rewrite sorted_filter_elem, andb_true_iff, Z.leb_le, Z.leb_le.
  unfold allowed_length.
  assert (Hloop : forall base byte_counts,
            foldl (fun (lengths : gset Z) byte_count =>
                     if base + byte_count <=? max_len
                     then {[base + byte_count]} ∪ lengths else lengths)
                  {[8]} byte_counts <> (∅ : gset Z)).
  { intros base byte_counts Hempty.
    assert (Hin : 8 ∈ foldl (fun (lengths : gset Z) byte_count =>
                               if base + byte_count <=? max_len
                               then {[base + byte_count]} ∪ lengths else lengths)
                            {[8]} byte_counts).
    { apply elem_of_candidates_loop. left. now apply elem_of_singleton. }
    rewrite Hempty in Hin. now apply elem_of_empty in Hin. }
  destruct ((fc =? 1) || (fc =? 2)).
  { destruct (decide _) as [Hempty|_]; [now apply Hloop in Hempty|].
    rewrite elem_of_candidates_loop, elem_of_singleton.
    split.
    - intros [[->|(bc & Hbc%elem_of_range & -> & Hmax)] Hx]; split; auto; lia.
    - intros [Hx [->|Hlen]]; (split; [|exact Hx]); [now left|].
      right. exists (x - 5). rewrite elem_of_range. lia. }
  destruct ((fc =? 3) || (fc =? 4)).
  { destruct (decide _) as [Hempty|_]; [now apply Hloop in Hempty|].
    rewrite elem_of_candidates_loop, elem_of_singleton.
    split.
    - intros [[->|(bc & Hbc%elem_of_range_step_2 & -> & Hmax)] Hx]; split; auto.
      right. revert Hbc. Z.to_euclidean_division_equations. lia.
    - intros [Hx [->|Hlen]]; (split; [|exact Hx]); [now left|].
      right. exists (x - 5). rewrite elem_of_range_step_2.
      revert Hlen. Z.to_euclidean_division_equations. lia. }
  destruct ((fc =? 5) || (fc =? 6)).
  { destruct (decide _) as [Hempty|_];
      [exfalso; revert Hempty; apply non_empty_singleton_L|].
    rewrite elem_of_singleton. tauto. }
  destruct (fc =? 15).
  { destruct (decide _) as [Hempty|_]; [now apply Hloop in Hempty|].
    rewrite elem_of_candidates_loop, elem_of_singleton.
    split.
    - intros [[->|(bc & Hbc%elem_of_range & -> & Hmax)] Hx]; split; auto; lia.
    - intros [Hx [->|Hlen]]; (split; [|exact Hx]); [now left|].
      right. exists (x - 9). rewrite elem_of_range. lia. }
  destruct (fc =? 16).
  { destruct (decide _) as [Hempty|_]; [now apply Hloop in Hempty|].
    rewrite elem_of_candidates_loop, elem_of_singleton.
    split.
    - intros [[->|(bc & Hbc%elem_of_range_step_2 & -> & Hmax)] Hx]; split; auto.
      right. revert Hbc. Z.to_euclidean_division_equations. lia.
    - intros [Hx [->|Hlen]]; (split; [|exact Hx]); [now left|].
      right. exists (x - 9). rewrite elem_of_range_step_2.
      revert Hlen. Z.to_euclidean_division_equations. lia. }
  destruct exception.
  { destruct (decide _) as [Hempty|_];
      [exfalso; revert Hempty; apply non_empty_singleton_L|].
    rewrite elem_of_singleton. tauto. }
  destruct (decide _) as [_|Hne]; [|contradiction].
  rewrite elem_of_union, elem_of_list_to_set, elem_of_range.
  split.
  - intros [_ Hx]. auto.
  - intros [Hx _]. split; [right; lia | exact Hx].
Qed.

(** X20. The candidate lengths, for a function byte and a bound [max_len],
    are the lengths between 4 and [max_len] that the function code allows:
    8 or 6..256 for FC1/2, 8 or an odd length in 7..255 for FC3/4, 8 for
    FC5/6, 8 or 10..255 for FC15, 8 or an odd length in 11..255 for FC16,
    5 for another code with bit 7 set, any length otherwise. The parser
    looks the code up with bit 7 cleared, udp_web_server.py as it is. *)
Theorem candidate_lengths_allowed (func max_len length : Z) :
  (length ∈ parser._candidate_frame_lengths (Some func) max_len
   <-> 4 <= length <= max_len /\
       allowed_length (Z.land func 0x7F) (negb (Z.land func 0x80 =? 0)) length) /\
  (length ∈ udp_web_server._candidate_frame_lengths (Some func) max_len
   <-> 4 <= length <= max_len /\
       allowed_length func (negb (Z.land func 0x80 =? 0)) length).
Proof.
  split.
  - exact (candidate_lengths_chain (Z.land func 0x7F)
             (negb (Z.land func 0x80 =? 0)) max_len length).
  - exact (candidate_lengths_chain func (negb (Z.land func 0x80 =? 0))
             max_len length).
Qed.

(** ** Reconstructing again what was cut off *)

Lemma ascending_ext (l k : list Z) :
  StronglySorted Z.lt l -> StronglySorted Z.lt k ->
  (forall x, x ∈ l <-> x ∈ k) -> l = k.
Proof.
  intros Hl. revert k. induction Hl as [|x l Hl IH Hx]; intros k Hk Hsame.
  - destruct k as [|y k]; [reflexivity|].
    exfalso. apply (elem_of_nil y), Hsame. left.
  - destruct Hk as [|y k Hk Hy].
    { exfalso. apply (elem_of_nil x), Hsame. left. }
    rewrite Forall_forall in Hx, Hy.
    assert (x = y) as ->.
    { pose proof (proj1 (Hsame x) (list_elem_of_here _ _)) as Hxk.
      pose proof (proj2 (Hsame y) (list_elem_of_here _ _)) as Hyl.
      apply elem_of_cons in Hxk as [Heq|Hxk]; [exact Heq|].
      apply elem_of_cons in Hyl as [Heq|Hyl]; [now symmetry|].
      specialize (Hx _ Hyl). specialize (Hy _ Hxk). lia. }
    f_equal. apply IH; [exact Hk|]. intros z. split; intros Hz.
    + pose proof (proj1 (Hsame z) (list_elem_of_further _ _ _ Hz)) as Hzk.
      apply elem_of_cons in Hzk as [->|Hzk]; [|exact Hzk].
      specialize (Hx _ Hz). lia.
    + pose proof (proj2 (Hsame z) (list_elem_of_further _ _ _ Hz)) as Hzl.
      apply elem_of_cons in Hzl as [->|Hzl]; [|exact Hzl].
      specialize (Hy _ Hz). lia.
Qed.

Lemma ascending_filter (P : Z -> Prop) `{!forall x, Decision (P x)} (l : list Z) :
  StronglySorted Z.lt l -> StronglySorted Z.lt (filter P l).
Proof.
  induction 1 as [|x l Hl IH Hx]; [constructor|].
  rewrite filter_cons. destruct (decide (P x)); [|exact IH].
  constructor; [exact IH|]. rewrite Forall_forall in Hx |- *.
  intros y [_ Hy]%list_elem_of_filter. auto.
Qed.

(** With a smaller bound the candidates are those of the larger bound that
    fit, in the same order. *)
Lemma web_candidates_shrink (func max_len max_len' : Z) :
  max_len' <= max_len ->
  udp_web_server._candidate_frame_lengths (Some func) max_len'
  = filter (fun length => length <= max_len')
           (udp_web_server._candidate_frame_lengths (Some func) max_len).
Proof.
  intros Hle. apply ascending_ext.
  - apply sorted_filter_ascending.
  - apply ascending_filter, sorted_filter_ascending.
  - intros x. rewrite list_elem_of_filter.
    rewrite (candidate_lengths_chain func (negb (Z.land func 0x80 =? 0)) max_len' x).
    rewrite (candidate_lengths_chain func (negb (Z.land func 0x80 =? 0)) max_len x).
    split; [intros [Hx Hok] | intros (Hx' & Hx & Hok)]; repeat split; auto; lia.
Qed.

Lemma slice_take (data : bytes) (k : nat) (lo hi : Z) :
  0 <= lo -> hi <= Z.of_nat k -> slice (take k data) lo hi = slice data lo hi.
Proof.
  intros Hlo Hhi. unfold slice.
  rewrite List.skipn_firstn_comm, take_take. f_equal. lia.
Qed.

Section Resplit.

Variable candidate_frame_lengths : option Z -> Z -> list Z.

Hypothesis candidates_shrink : forall func max_len max_len',
  max_len' <= max_len ->
  candidate_frame_lengths (Some func) max_len'
  = filter (fun length => length <= max_len')
           (candidate_frame_lengths (Some func) max_len).

(** On the bytes before position [k], the candidates that fit give the
    verdict they give on the whole of [data]. *)
Lemma first_valid_prefix (data : bytes) (k : nat) (idx max_len' : Z)
    (candidates : list Z) :
  0 <= idx -> (k <= length data)%nat -> max_len' <= Z.of_nat k - idx ->
  (forall frame length,
     first_valid data idx (len data) candidates = Some (frame, length) ->
     length <= max_len') ->
  first_valid (take k data) idx (Z.of_nat k)
    (filter (fun length => length <= max_len') candidates)
  = first_valid data idx (len data) candidates.
Proof.
  intros Hidx Hk Hmax. induction candidates as [|c rest IH]; intros Hfound;
    [reflexivity|].
  rewrite filter_cons. cbn [first_valid] in Hfound |- *.
  destruct (decide (c <= max_len')) as [Hfit|Hout].
  - cbn [first_valid].
    rewrite (slice_take data k idx (idx + c)) by lia.
    destruct (Z.ltb_spec (Z.of_nat k) (idx + c)); [lia|].
    destruct (Z.ltb_spec (len data) (idx + c)); [unfold len in *; lia|].
    destruct (len (slice data idx (idx + c)) <? 4); [now apply IH|].
    destruct (compute_crc _ =? from_bytes_little _); [reflexivity | now apply IH].
  - destruct (len data <? idx + c); [now apply IH|].
    destruct (len (slice data idx (idx + c)) <? 4); [now apply IH|].
    destruct (compute_crc _ =? from_bytes_little _); [|now apply IH].
    exfalso. apply Hout. exact (Hfound _ _ eq_refl).
Qed.

Lemma index_take (data : bytes) (k : nat) (i : Z) :
  i < Z.of_nat k -> index (take k data) i = index data i.
Proof.
  intros Hi. unfold index. destruct (Z.ltb_spec i 0); [reflexivity|].
  f_equal. apply lookup_take_lt. lia.
Qed.

Lemma index_is_Some (data : bytes) (i : Z) :
  0 <= i < len data -> is_Some (index data i).
Proof.
  unfold index, len. intros Hi. destruct (Z.ltb_spec i 0); [lia|].
  apply fmap_is_Some, lookup_lt_is_Some_2. lia.
Qed.

(** The frames found from [idx] on are found again when the leftover is cut
    off the end of [data]. *)
Lemma split_loop_prefix (fuel : nat) (data : bytes) (idx : Z)
    (frames result : list bytes) (leftover : bytes) :
  0 <= idx <= len data ->
  split_loop candidate_frame_lengths fuel data (len data) idx frames
  = Some (result, leftover) ->
  let k := (length data - length leftover)%nat in
  idx <= Z.of_nat k /\
  exists leftover',
    split_loop candidate_frame_lengths fuel (take k data) (Z.of_nat k) idx frames
    = Some (result, leftover').
Proof.
  cbv zeta. revert idx frames.
  induction fuel as [|fuel IH]; intros idx frames Hidx; cbn [split_loop];
    destruct (Z.leb_spec (idx + 4) (len data)) as [Hgo|Hstop]; try discriminate.
  - intros [= <- <-]. unfold slice_from. rewrite length_drop.
    unfold len in *. split; [lia|].
    destruct (Z.leb_spec (idx + 4) (Z.of_nat (length data - (length data - Z.to_nat idx))));
      [lia|]. eexists. reflexivity.
  - destruct (first_valid data idx (len data) _) as [[frame size]|] eqn:Hfound.
    + intros Hrun.
      pose proof (first_valid_sound _ _ _ _ _ _ Hfound) as (Hfits & Hfour & _).
      destruct (IH (idx + size) (frames ++ [frame]) ltac:(lia) Hrun)
        as (Hk & leftover' & Hrun').
      split; [lia|]. exists leftover'.
      set (k := (length data - length leftover)%nat) in *.
      destruct (Z.leb_spec (idx + 4) (Z.of_nat k)); [|lia].
      destruct (Z.ltb_spec (idx + 1) (len data)) as [_|]; [|lia].
      destruct (Z.ltb_spec (idx + 1) (Z.of_nat k)) as [_|]; [|lia].
      rewrite index_take by lia.
      destruct (index data (idx + 1)) as [func|] eqn:Hfunc.
      2:{ destruct (index_is_Some data (idx + 1)) as [func Hsome]; [lia|].
          rewrite Hsome in Hfunc. discriminate. }
      rewrite (candidates_shrink func (Z.min 256 (len data - idx))
                 (Z.min 256 (Z.of_nat k - idx))) by (unfold len; lia).
      rewrite first_valid_prefix, Hfound; [exact Hrun'|lia|lia|lia|].
      intros frame' size' Hsame. rewrite Hfound in Hsame.
      injection Hsame as _ <-.
      pose proof (first_valid_member _ _ _ _ _ _ Hfound) as Hmember.
      rewrite (candidates_shrink func (Z.min 256 (len data - idx))
                 (Z.min 256 (len data - idx))) in Hmember by lia.
      apply list_elem_of_filter in Hmember as [Hsmall _]. lia.
    + intros Hrun.
      destruct (IH (idx + 1) frames ltac:(lia) Hrun) as (Hk & leftover' & Hrun').
      set (k := (length data - length leftover)%nat) in *.
      destruct (Z.leb_spec (idx + 4) (Z.of_nat k)).
      * split; [lia|]. exists leftover'.
        destruct (Z.ltb_spec (idx + 1) (len data)) as [_|]; [|lia].
        destruct (Z.ltb_spec (idx + 1) (Z.of_nat k)) as [_|]; [|lia].
        rewrite index_take by lia.
        destruct (index data (idx + 1)) as [func|] eqn:Hfunc.
        2:{ destruct (index_is_Some data (idx + 1)) as [func Hsome]; [lia|].
            rewrite Hsome in Hfunc. discriminate. }
        rewrite (candidates_shrink func (Z.min 256 (len data - idx))
                   (Z.min 256 (Z.of_nat k - idx))) by (unfold len; lia).
        rewrite first_valid_prefix, Hfound; [exact Hrun'|lia|lia|lia|].
        intros frame' size' Hsame. rewrite Hfound in Hsame. discriminate.
      * split; [lia|]. eexists.
        assert (Hstill : split_loop candidate_frame_lengths fuel (take k data)
                           (Z.of_nat k) (idx + 1) frames
                         = Some (frames, slice_from (take k data) (idx + 1))).
        { destruct fuel; cbn [split_loop];
            (destruct (Z.leb_spec (idx + 1 + 4) (Z.of_nat k)); [lia | reflexivity]). }
        rewrite Hstill in Hrun'. injection Hrun' as <- _. reflexivity.
  - intros [= <- <-]. unfold slice_from. rewrite length_drop.
    unfold len in *. split; [lia|].
    destruct (Z.leb_spec (idx + 4) (Z.of_nat (length data - (length data - Z.to_nat idx))));
      [lia|]. eexists. reflexivity.
Qed.

Lemma split_frames_prefix (data : bytes) (frames : list bytes) (leftover : bytes) :
  split_frames candidate_frame_lengths data = Some (frames, leftover) ->
  exists leftover',
    split_frames candidate_frame_lengths
      (take (length data - length leftover) data)
    = Some (frames, leftover').
Proof.
  unfold split_frames. intros Hrun.
  destruct (split_loop_prefix _ _ 0 _ _ _ ltac:(unfold len; lia) Hrun)
    as (_ & leftover' & Hrun').
  exists leftover'. rewrite <- Hrun'.
  assert (Hlen : length (take (length data - length leftover) data)
                 = (length data - length leftover)%nat)
    by (rewrite length_take; lia).
  unfold len. rewrite Hlen.
  apply split_loop_fuel; lia.
Qed.

End Resplit.

(** X21. The TCP listener and [process_incoming_payload] both run the
    reconstructor: the listener on its buffer, to cut the payload off in
    front of the leftover, then [process_incoming_payload] on that payload.
    The second run finds the frames of the first, so the frames shown are
    those the listener saw; when the first run found none, the payload is
    shown as one frame. *)
Theorem tcp_payload_same_frames (fuel : nat) (buffer_size : Z) (buffer : bytes)
    (handed frames : list bytes) (leftover : bytes) :
  1 <= buffer_size -> (2 <= fuel)%nat -> (4 <= length buffer)%nat ->
  udp_web_server.split_modbus_frames buffer = Some (frames, leftover) ->
  exists payload,
    udp_web_server.drain_buffer fuel buffer_size buffer handed
    = Some (leftover, handed ++ [payload]) /\
    payload ++ leftover = buffer /\
    udp_web_server.raw_frames payload
    = Some (match frames with [] => [payload] | _ => frames end).
Proof.
  intros Hsize Hfuel Hlong Hsplit.
  destruct (drain_buffer_run fuel buffer_size buffer handed Hsize Hfuel)
    as (frames' & leftover' & Hsplit' & _ & Hcut & Hrun).
  rewrite Hsplit in Hsplit'. injection Hsplit' as <- <-.
  destruct (Nat.leb_spec (length buffer) 3) as [|_]; [lia|].
  exists (take (length buffer - length leftover) buffer).
  split; [exact Hrun|]. split; [now symmetry|].
  destruct (split_frames_prefix udp_web_server._candidate_frame_lengths
              web_candidates_shrink buffer frames leftover Hsplit)
    as (rest & Hagain).
  unfold udp_web_server.raw_frames, udp_web_server.split_modbus_frames.
  rewrite Hagain. reflexivity.
Qed.

Lemma tcp_payload_same_frames_witness :
  let buffer := [x00; x00] ++ fc06_frame 1 5 10 ++ [x01; x06] in
  1 <= 4096 /\ (2 <= 2)%nat /\ (4 <= length buffer)%nat /\
  udp_web_server.split_modbus_frames buffer
  = Some ([fc06_frame 1 5 10], [x01; x06]) /\
  exists payload,
    udp_web_server.drain_buffer 2 4096 buffer []
    = Some ([x01; x06], [] ++ [payload]) /\
    payload ++ [x01; x06] = buffer /\
    udp_web_server.raw_frames payload = Some [fc06_frame 1 5 10].
Proof.
  cbv zeta.
  assert (Hsplit : udp_web_server.split_modbus_frames
                     ([x00; x00] ++ fc06_frame 1 5 10 ++ [x01; x06])
                   = Some ([fc06_frame 1 5 10], [x01; x06]))
    by (vm_compute; reflexivity).
  split; [lia|]. split; [lia|]. split; [simpl; lia|]. split; [exact Hsplit|].
  apply (tcp_payload_same_frames 2 4096 _ [] [fc06_frame 1 5 10] [x01; x06]);
    [lia | lia | simpl; lia | exact Hsplit].
Defined.

(** ** Coils *)

Lemma extract_coils_bits_all (byte : Z) (bit_idxs : list Z) (coils : list Z) :
  udp_web_server.extract_coils_bits byte bit_idxs None coils
  = (coils ++ ((fun bit_idx => Z.land (Z.shiftr byte bit_idx) 1) <$> bit_idxs),
     false).
Proof.
  revert coils. induction bit_idxs as [|bit_idx bit_idxs IH]; intros coils;
    cbn [udp_web_server.extract_coils_bits fmap list_fmap].
  - now rewrite app_nil_r.
  - rewrite IH, <- app_assoc. reflexivity.
Qed.

(** With a quantity, the inner loop returns as soon as the list is that
    long, and not before: what it has when it stops or runs out is a prefix
    of what it would collect without a quantity. *)
Lemma extract_coils_bits_some (byte : Z) (bit_idxs : list Z) (quantity : Z)
    (coils : list Z) :
  len coils < Z.max 1 quantity ->
  let more := (fun bit_idx => Z.land (Z.shiftr byte bit_idx) 1) <$> bit_idxs in
  udp_web_server.extract_coils_bits byte bit_idxs (Some quantity) coils
  = (take (Z.to_nat (Z.max 1 quantity)) (coils ++ more),
     Z.max 1 quantity <=? len (coils ++ more)).
Proof.
  cbv zeta. revert coils.
  induction bit_idxs as [|bit_idx bit_idxs IH]; intros coils Hshort;
    cbn [udp_web_server.extract_coils_bits fmap list_fmap].
  - rewrite app_nil_r, take_ge by (unfold len in Hshort; lia).
    destruct (Z.leb_spec (Z.max 1 quantity) (len coils)); [lia | reflexivity].
  - set (bit := Z.land (Z.shiftr byte bit_idx) 1).
    assert (Hlen : len (coils ++ [bit]) = len coils + 1)
      by (unfold len; rewrite length_app; simpl; lia).
    replace (coils ++ bit :: ((fun bit_idx => Z.land (Z.shiftr byte bit_idx) 1)
                                <$> bit_idxs))
      with ((coils ++ [bit]) ++ ((fun bit_idx => Z.land (Z.shiftr byte bit_idx) 1)
                                   <$> bit_idxs))
      by now rewrite <- app_assoc.
    destruct (Z.leb_spec quantity (len (coils ++ [bit]))) as [Hfull|Hmore].
    + assert (Hexact : Z.to_nat (Z.max 1 quantity) = length (coils ++ [bit]))
        by (unfold len in *; lia).
      rewrite Hexact, take_app_length. f_equal. symmetry. apply Z.leb_le.
      unfold len in *. rewrite length_app. lia.
    + apply IH. lia.
Qed.

Lemma extract_coils_bytes_all (data : bytes) (coils : list Z) :
  udp_web_server.extract_coils_bytes data None coils = coils ++ bits_of data.
Proof.
  revert coils. induction data as [|byte data IH]; intros coils;
    cbn [udp_web_server.extract_coils_bytes].
  - unfold bits_of. cbn. now rewrite app_nil_r.
  - rewrite extract_coils_bits_all, IH, <- app_assoc. reflexivity.
Qed.

Lemma extract_coils_bytes_some (data : bytes) (quantity : Z) (coils : list Z) :
  len coils < Z.max 1 quantity ->
  udp_web_server.extract_coils_bytes data (Some quantity) coils
  = take (Z.to_nat (Z.max 1 quantity)) (coils ++ bits_of data).
Proof.
  revert coils. induction data as [|byte data IH]; intros coils Hshort;
    cbn [udp_web_server.extract_coils_bytes].
  - unfold bits_of. cbn. rewrite app_nil_r, take_ge; [reflexivity|].
    unfold len in Hshort. lia.
  - rewrite extract_coils_bits_some by exact Hshort. cbv zeta.
    change (bits_of (byte :: data))
      with (((fun bit_idx => Z.land (Z.shiftr (b2z byte) bit_idx) 1) <$> range 0 8)
            ++ bits_of data).
    set (more := (fun bit_idx => Z.land (Z.shiftr (b2z byte) bit_idx) 1) <$> range 0 8).
    destruct (Z.leb_spec (Z.max 1 quantity) (len (coils ++ more))) as [Hfull|Hmore].
    + rewrite app_assoc, (take_app_le (coils ++ more) (bits_of data));
        [reflexivity|]. unfold len in Hfull. lia.
    + rewrite take_ge by (unfold len in Hmore; lia).
      rewrite IH by exact Hmore. now rewrite app_assoc.
Qed.

Lemma pack_bits_byte (byte : byte) (rest : list Z) :
  pack_bits (((fun bit_idx => Z.land (Z.shiftr (b2z byte) bit_idx) 1) <$> range 0 8)
             ++ rest)
  = b2z byte + 256 * pack_bits rest.
Proof.
  change (range 0 8) with [0; 1; 2; 3; 4; 5; 6; 7].
  cbn [fmap list_fmap app pack_bits].
  generalize (pack_bits rest). intros packed.
  destruct byte; cbv - [Z.add Z.mul]; lia.
Qed.

(** X22. [extract_coils] without a quantity returns 8 bits per byte, least
    significant bit first, so that packing them again gives the bytes read
    as a little-endian number. With a quantity it returns the first
    [quantity] of those bits, all of them when there are fewer, and one bit
    (not none) when the quantity is 0 or negative and there is data. *)
Theorem extract_coils_bits_of (data : bytes) (quantity : option Z) :
  udp_web_server.extract_coils data quantity
  = match quantity with
    | None => bits_of data
    | Some quantity => take (Z.to_nat (Z.max 1 quantity)) (bits_of data)
    end /\
  len (bits_of data) = 8 * len data /\
  pack_bits (bits_of data) = from_bytes_little data.
Proof.
  split; [|split].
  - unfold udp_web_server.extract_coils. destruct quantity as [quantity|].
    + rewrite extract_coils_bytes_some by (unfold len; simpl; lia). reflexivity.
    + now rewrite extract_coils_bytes_all.
  - induction data as [|byte data IH]; [reflexivity|].
    change (bits_of (byte :: data))
      with (((fun bit_idx => Z.land (Z.shiftr (b2z byte) bit_idx) 1) <$> range 0 8)
            ++ bits_of data).
    unfold len in *. rewrite length_app. simpl length. lia.
  - induction data as [|byte data IH]; [reflexivity|].
    change (bits_of (byte :: data))
      with (((fun bit_idx => Z.land (Z.shiftr (b2z byte) bit_idx) 1) <$> range 0 8)
            ++ bits_of data).
    rewrite pack_bits_byte, IH. reflexivity.
Qed.

(** ** The write history of the web server *)

Lemma web_write_single_candidates (func max_len : Z) :
  func = 5 \/ func = 6 -> 8 <= max_len ->
  udp_web_server._candidate_frame_lengths (Some func) max_len = [8].
Proof.
  intros Hfc Hmax. unfold udp_web_server._candidate_frame_lengths.
  destruct Hfc as [-> | ->]; simpl;
    (destruct (decide (({[8]} : gset Z) = ∅)) as [Hempty|_];
     [exfalso; revert Hempty; apply non_empty_singleton_L|]);
    unfold sorted_filter; rewrite elements_singleton; simpl;
    (destruct (Z.leb_spec 8 max_len); [reflexivity | lia]).
Qed.

Lemma web_split_write_stream (writes : list RegisterUpdate) :
  udp_web_server.split_modbus_frames (concat (write_frame <$> writes))
  = Some (write_frame <$> writes, []).
Proof.
  induction writes as [|w writes IH]; [reflexivity|].
  rewrite fmap_cons. cbn [concat].
  unfold udp_web_server.split_modbus_frames in *.
  rewrite (split_frames_head udp_web_server._candidate_frame_lengths
             (write_frame w) _ 6 []).
  - now rewrite IH.
  - apply framed_valid. simpl. lia.
  - reflexivity.
  - replace (len (write_frame w)) with 8 by reflexivity.
    apply web_write_single_candidates; [now right|].
    unfold len. rewrite length_app. simpl. lia.
Qed.

(** What one well-formed write frame adds to the rows. *)
Lemma fc06_write_of_write_frame (timestamp : string) (update : RegisterUpdate)
    (pending : option (Z * Z)) (rows : list udp_web_server.WriteRow) :
  in_range update ->
  udp_web_server.fc06_write_of_frame timestamp (pending, rows) (write_frame update)
  = if decide (pending = Some (update.1.2, update.2))
    then (None, rows ++ [write_row timestamp "response" update])
    else (Some (update.1.2, update.2),
          rows ++ [write_row timestamp "request" update]).
Proof.
  destruct update as [[unit register] value]. intros (Hunit & Hregister & Hvalue).
  cbn [fst snd] in *.
  destruct (fc06_frame_parsed unit register value Hunit Hregister Hvalue)
    as [Hparse _].
  assert (Hinner : inner (write_frame (unit, register, value))
                   = be16 register ++ be16 value).
  { unfold write_frame, fc06_frame. cbn [fst snd].
    now rewrite inner_framed by (simpl; lia). }
  unfold udp_web_server.fc06_write_of_frame.
  replace (len (write_frame (unit, register, value))) with 8 by reflexivity.
  replace (index (write_frame (unit, register, value)) 1) with (Some 6)
    by reflexivity.
  cbn [Z.ltb Z.leb Z.compare Z.land Z.eqb negb orb Pos.land Pos.eqb
       Pos.compare Pos.compare_cont].
  rewrite Hinner.
  replace (len (be16 register ++ be16 value)) with 4 by reflexivity.
  cbn [Z.ltb Z.compare Pos.compare Pos.compare_cont].
  replace (slice (be16 register ++ be16 value) 0 2) with (be16 register)
    by reflexivity.
  replace (slice (be16 register ++ be16 value) 2 4) with (be16 value)
    by reflexivity.
  rewrite !from_bytes_big_be16 by assumption.
  unfold write_row. cbn [fst snd].
  destruct pending as [seen|].
  - destruct (decide (seen = (register, value))) as [->|Hne].
    + destruct (decide (Some (register, value) = Some (register, value)));
        [reflexivity | contradiction].
    + destruct (decide (Some seen = Some (register, value))) as [[= ->]|_];
        [contradiction | reflexivity].
  - destruct (decide (None = Some (register, value))); [discriminate | reflexivity].
Qed.

(** X23. In the write history, the echo of a write is told from the write
    by its place in the datagram only. When every log entry holds one
    Write Single Register frame, every row is a request, also the row of
    an echo that follows its request in the next entry. When a frame is
    followed in the same entry by a frame with the same register and
    value, the second row is a response, whatever the two units. *)
Theorem fc06_history_directions :
  (forall entries : list (string * RegisterUpdate),
     Forall (fun entry => in_range entry.2) entries ->
     udp_web_server.extract_fc06_writes
       ((fun entry => (entry.1, write_frame entry.2)) <$> entries)
     = Some ((fun entry => write_row entry.1 "request" entry.2) <$> entries)) /\
  (forall (timestamp : string) (unit1 unit2 register value : Z),
     0 <= unit1 < 256 -> 0 <= unit2 < 256 ->
     0 <= register < 65536 -> 0 <= value < 65536 ->
     udp_web_server.extract_fc06_writes
       [(timestamp,
         fc06_frame unit1 register value ++ fc06_frame unit2 register value)]
     = Some [write_row timestamp "request" (unit1, register, value);
             write_row timestamp "response" (unit2, register, value)]).
Proof.
  split.
  - intros entries Hentries. unfold udp_web_server.extract_fc06_writes.
    assert (Hfrom : forall rows,
              udp_web_server.extract_fc06_writes_from
                ((fun entry => (entry.1, write_frame entry.2)) <$> entries) rows
              = Some (rows ++ ((fun entry => write_row entry.1 "request" entry.2)
                                 <$> entries))).
    { induction Hentries as [|[timestamp update] entries Hupdate _ IH];
        intros rows; cbn [fmap list_fmap udp_web_server.extract_fc06_writes_from].
      - now rewrite app_nil_r.
      - cbn [fst snd] in *.
        pose proof (web_split_write_stream [update]) as Hsplit.
        cbn [fmap list_fmap concat] in Hsplit. rewrite app_nil_r in Hsplit.
        destruct (write_frame update) as [|b frame] eqn:Hframe; [discriminate|].
        rewrite Hsplit. cbn [mbind option_bind foldl]. rewrite <- Hframe.
        rewrite fc06_write_of_write_frame by exact Hupdate.
        destruct (decide (None = Some (update.1.2, update.2))); [discriminate|].
        rewrite IH, <- app_assoc. reflexivity. }
    apply (Hfrom []).
  - intros timestamp unit1 unit2 register value Hunit1 Hunit2 Hregister Hvalue.
    unfold udp_web_server.extract_fc06_writes.
    cbn [udp_web_server.extract_fc06_writes_from].
    pose proof (web_split_write_stream
                  [(unit1, register, value); (unit2, register, value)]) as Hsplit.
    cbn [fmap list_fmap concat] in Hsplit. rewrite app_nil_r in Hsplit.
    change (write_frame (unit1, register, value))
      with (fc06_frame unit1 register value) in Hsplit.
    change (write_frame (unit2, register, value))
      with (fc06_frame unit2 register value) in Hsplit.
    destruct (fc06_frame unit1 register value ++ fc06_frame unit2 register value)
      as [|b data] eqn:Hdata; [discriminate|].
    rewrite Hsplit. cbn [mbind option_bind foldl].
    change (fc06_frame unit1 register value)
      with (write_frame (unit1, register, value)).
    change (fc06_frame unit2 register value)
      with (write_frame (unit2, register, value)).
    rewrite fc06_write_of_write_frame by (repeat split; simpl; lia).
    destruct (decide (None = Some ((unit1, register, value).1.2,
                                   (unit1, register, value).2)));
      [discriminate|].
    rewrite fc06_write_of_write_frame by (repeat split; simpl; lia).
    cbn [fst snd].
    destruct (decide (Some (register, value) = Some (register, value)));
      [reflexivity | contradiction].
Qed.

Lemma fc06_history_directions_witness :
  udp_web_server.extract_fc06_writes
    [("10:00:00", write_frame (1, 5, 10)); ("10:00:01", write_frame (1, 5, 10))]
  = Some [write_row "10:00:00" "request" (1, 5, 10);
          write_row "10:00:01" "request" (1, 5, 10)] /\
  udp_web_server.extract_fc06_writes
    [("10:00:00", fc06_frame 1 5 10 ++ fc06_frame 2 5 10)]
  = Some [write_row "10:00:00" "request" (1, 5, 10);
          write_row "10:00:00" "response" (2, 5, 10)].
Proof.
  split.
  - apply (proj1 fc06_history_directions
             [("10:00:00", (1, 5, 10)); ("10:00:01", (1, 5, 10))]).
    repeat constructor; simpl; lia.
  - apply (proj2 fc06_history_directions "10:00:00" 1 2 5 10); lia.
Defined.

(** ** The decoder of the web server and the parser of the hub *)

Lemma register_fields_fold (first : Z) (data : bytes) (offsets : list Z)
    (acc : list udp_web_server.Field) :
  omap word_of_field
    (foldl (fun fields idx =>
              let chunk := slice data idx (idx + 2) in
              if len chunk =? 2 then
                fields ++ [udp_web_server.make_field
                             ("Registro " +:+ pretty (idx `div` 2 + first))
                             (from_bytes_big chunk) 2]
              else
                fields ++ udp_web_server.raw_if_any
                            ("Dato incompleto " +:+ pretty (idx `div` 2 + first))
                            chunk)
           acc offsets)
  = omap word_of_field acc ++ omap (chunk_value data) offsets.
Proof.
  revert acc. induction offsets as [|idx offsets IH]; intros acc; cbn [foldl].
  - cbn. now rewrite app_nil_r.
  - rewrite IH. cbv zeta. unfold chunk_value. cbn [omap list_omap].
    destruct (len (slice data idx (idx + 2)) =? 2).
    + rewrite omap_app. cbn. now rewrite <- app_assoc.
    + rewrite omap_app.
      destruct (slice data idx (idx + 2)); cbn; now rewrite app_nil_r.
Qed.

(** The register fields of the decoder carry the complete big-endian words
    of the data, in order. *)
Lemma register_fields_words (first : Z) (data : bytes) :
  omap word_of_field (udp_web_server.register_fields first data) = be16_words data.
Proof.
  unfold udp_web_server.register_fields. rewrite register_fields_fold.
  rewrite <- register_values_words. unfold parser.register_values.
  now rewrite register_values_fold.
Qed.

(** X24. A frame that the hub handles as an FC03 response is shown by the
    web decoder as a response, not an exception, whose first field is the
    byte count and whose register fields carry, in order, exactly the
    values that the hub's parser returns. *)
Theorem decoder_shows_parsed_values (frame : bytes) (unit : Z) (values : list Z) :
  parser.parse_fc03_request frame = None ->
  parser.parse_fc03_response frame = Some (unit, values) ->
  let decoded := udp_web_server.decode_frame frame in
  udp_web_server.frame_type decoded = "response" /\
  udp_web_server.is_exception decoded = false /\
  exists byte_count rest,
    index (inner frame) 0 = Some byte_count /\
    udp_web_server.fields decoded
    = udp_web_server.make_field "Byte Count" byte_count 1 :: rest /\
    omap word_of_field rest = values.
Proof.
  intros Hrequest Hresponse. cbv zeta.
  revert Hrequest Hresponse.
  unfold parser.parse_fc03_request, parser.parse_fc03_response,
    udp_web_server.decode_frame.
  destruct (Z.ltb_spec (len frame) 5) as [|Hfive]; [discriminate|].
  destruct (index frame 0) as [u|]; [|discriminate].
  destruct (index frame 1) as [func|]; [|discriminate]. cbn [mbind option_bind].
  destruct (Z.eqb_spec (Z.land func 127) 3) as [Hfc|]; [|discriminate].
  destruct (Z.eqb_spec (Z.land func 128) 0) as [Hplain|]; [|discriminate].
  cbn [negb orb].
  assert (Hlen : len (inner frame) = len frame - 4).
  { unfold inner, len in *. rewrite length_take, length_drop. lia. }
  intros Hrequest.
  assert (Hfour : len (inner frame) <> 4).
  { destruct (Z.ltb_spec (len frame) 8) as [|_]; [lia|].
    destruct (Z.eqb_spec (len (inner frame)) 4); [discriminate | assumption]. }
  clear Hrequest.
  destruct (index (inner frame) 0) as [byte_count|] eqn:Hcount; [|discriminate].
  rewrite register_values_words.
  destruct (be16_words (slice (inner frame) 1 (1 + byte_count))) as [|v vs] eqn:Hwords;
    [discriminate|].
  intros [= <- <-].
  unfold udp_web_server.decode_modbus_payload.
  rewrite Hplain, Hfc, Hcount. cbn [Z.eqb Pos.eqb orb].
  destruct (Z.eqb_spec (len (inner frame)) 4); [contradiction|].
  destruct (Z.leb_spec 1 (len (inner frame))); [|lia].
  cbn [negb andb udp_web_server.frame_type udp_web_server.is_exception
       udp_web_server.fields default].
  split; [reflexivity|]. split; [reflexivity|].
  eexists _, _. split; [reflexivity|]. split; [reflexivity|].
  rewrite register_fields_words, <- Hwords. f_equal.
  pose proof (index_range _ _ _ Hcount) as Hrange.
  unfold slice, slice_from, len, id. change (Z.to_nat 0) with 0%nat. rewrite drop_0.
  change (Z.to_nat 1) with 1%nat.
  generalize (drop 1 (inner frame)). intros data.
  destruct (Z.ltb_spec (Z.of_nat (length data)) byte_count) as [Hshort|Hlong].
  - rewrite (take_ge data (Z.to_nat (Z.of_nat (length data) - 0))) by lia.
    rewrite (take_ge data (Z.to_nat (1 + byte_count - 1))) by lia. reflexivity.
  - f_equal. lia.
Qed.

Lemma decoder_shows_parsed_values_witness :
  let frame := fc03_response_frame 1 [10; 20] in
  let decoded := udp_web_server.decode_frame frame in
  parser.parse_fc03_request frame = None /\
  parser.parse_fc03_response frame = Some (1, [10; 20]) /\
  udp_web_server.frame_type decoded = "response" /\
  udp_web_server.is_exception decoded = false /\
  exists byte_count rest,
    index (inner frame) 0 = Some byte_count /\
    udp_web_server.fields decoded
    = udp_web_server.make_field "Byte Count" byte_count 1 :: rest /\
    omap word_of_field rest = [10; 20].
Proof.
  cbv zeta.
  assert (Hrequest : parser.parse_fc03_request (fc03_response_frame 1 [10; 20]) = None)
    by (vm_compute; reflexivity).
  assert (Hresponse : parser.parse_fc03_response (fc03_response_frame 1 [10; 20])
                      = Some (1, [10; 20]))
    by (vm_compute; reflexivity).
  split; [exact Hrequest|]. split; [exact Hresponse|].
  exact (decoder_shows_parsed_values _ 1 [10; 20] Hrequest Hresponse).
Defined.

(** ** The hubs and their sensors *)

Ltac hub_sets :=
  rewrite ?elem_of_union, ?elem_of_difference, ?elem_of_singleton, ?elem_of_empty in *;
  intuition congruence.

Lemma running_snoc (hub_key : sensor.HubKey) (calls : list sensor.HubCall)
    (call : sensor.HubCall) :
  running hub_key (calls ++ [call]) = running hub_key calls + running hub_key [call].
Proof.
  induction calls as [|first calls IH].
  - cbn [app]. change (running hub_key []) with 0. lia.
  - change ((first :: calls) ++ [call]) with (first :: (calls ++ [call])).
    destruct first; cbn [running]; rewrite IH; cbn [running]; lia.
Qed.

Lemma live_setup (key target : sensor.HubKey) (valid : nat)
    (entities : list sensor.HubKey) :
  live key (replicate valid target ++ entities)
  = if decide (key = target) then (valid + live key entities)%nat
    else live key entities.
Proof.
  unfold live. rewrite filter_app, length_app.
  induction valid as [|valid IH]; cbn [replicate].
  - now destruct (decide (key = target)).
  - rewrite filter_cons. destruct (decide (target = key)) as [->|Hne].
    + destruct (decide (key = key)); [|contradiction]. simpl. lia.
    + destruct (decide (key = target)); [congruence|]. exact IH.
Qed.

Lemma live_remove (key target : sensor.HubKey) (before after : list sensor.HubKey) :
  live key (before ++ target :: after)
  = if decide (key = target) then S (live key (before ++ after))
    else live key (before ++ after).
Proof.
  unfold live. rewrite !filter_app, !length_app, filter_cons.
  destruct (decide (target = key)) as [->|Hne].
  - destruct (decide (key = key)); [|contradiction]. simpl. lia.
  - destruct (decide (key = target)); [congruence|]. reflexivity.
Qed.

(** What the platform keeps true of every hub key. *)
Lemma platform_run_counts (data : sensor.ComponentData)
    (entities : list sensor.HubKey) (key : sensor.HubKey) :
  platform_run data entities ->
  (key ∈ sensor.hubs data <-> is_Some (sensor.listeners data !! key)) /\
  (forall count, sensor.listeners data !! key = Some count ->
                 count = Z.of_nat (live key entities)) /\
  ((0 < live key entities)%nat -> key ∈ sensor.hubs data) /\
  running key (sensor.hub_calls data)
  = (if decide (key ∈ sensor.hubs data) then 1 else 0).
Proof.
  intros Hrun. revert key.
  induction Hrun as [|data entities start_ok target valid data' _ IH Hsetup
                      |data before target after _ IH]; intros key.
  - cbn [sensor.hubs sensor.listeners sensor.hub_calls running live].
    rewrite lookup_empty.
    destruct (decide (key ∈ (∅ : gset sensor.HubKey))) as [Hin|_]; [hub_sets|].
    split; [|split; [|split]].
    + split; [hub_sets | intros [? [=]]].
    + intros ? [=].
    + unfold live. simpl. lia.
    + reflexivity.
  - rewrite live_setup.
    revert Hsetup. unfold sensor._async_setup_sensors.
    destruct (decide (target ∈ sensor.hubs data)) as [Hthere|Hnew].
    + (* the hub is there *)
      cbn [mbind option_bind].
      destruct (IH key) as (Hreg & Hcount & Hlive & Hrunning).
      destruct valid as [|valid]; intros [= <-];
        cbn [sensor.hubs sensor.listeners sensor.hub_calls].
      * destruct (decide (key = target)) as [->|_]; auto.
      * split; [|split; [|split; [|exact Hrunning]]].
        -- destruct (decide (key = target)) as [->|Hother].
           ++ rewrite lookup_insert_eq. split; eauto.
           ++ now rewrite lookup_insert_ne by congruence.
        -- destruct (decide (key = target)) as [->|Hother].
           ++ rewrite lookup_insert_eq. intros count [= <-].
              destruct (proj1 Hreg Hthere) as [known Hknown].
              rewrite Hknown. unfold default. cbn [from_option id].
              rewrite (Hcount _ Hknown). lia.
           ++ now rewrite lookup_insert_ne by congruence.
        -- destruct (decide (key = target)) as [->|Hother]; auto.
    + (* the hub is made and started *)
      destruct start_ok; [|discriminate]. cbn [mbind option_bind].
      destruct (IH key) as (Hreg & Hcount & Hlive & Hrunning).
      destruct (IH target) as (_ & _ & Htarget & _).
      assert (Hnone : live target entities = 0%nat).
      { destruct (live target entities) eqn:Hzero; [reflexivity|].
        exfalso. apply Hnew, Htarget. lia. }
      assert (Hcalls : running key (sensor.hub_calls data ++ [sensor.async_start_call target])
                       = if decide (key ∈ {[target]} ∪ sensor.hubs data) then 1 else 0).
      { rewrite running_snoc, Hrunning. cbn [running].
        destruct (decide (target = key)) as [->|Hother].
        - destruct (decide (key ∈ sensor.hubs data)); [contradiction|].
          destruct (decide (key ∈ {[key]} ∪ sensor.hubs data)); [lia | hub_sets].
        - destruct (decide (key ∈ sensor.hubs data)),
            (decide (key ∈ {[target]} ∪ sensor.hubs data)); try lia; hub_sets. }
      destruct valid as [|valid]; intros [= <-];
        cbn [sensor.hubs sensor.listeners sensor.hub_calls];
        (split; [|split; [|split; [|exact Hcalls]]]).
      * destruct (decide (key = target)) as [->|Hother].
        -- rewrite lookup_insert_eq. split; [eauto | hub_sets].
        -- rewrite lookup_insert_ne by congruence. rewrite <- Hreg. hub_sets.
      * destruct (decide (key = target)) as [->|Hother].
        -- rewrite lookup_insert_eq. intros count [= <-]. lia.
        -- now rewrite lookup_insert_ne by congruence.
      * destruct (decide (key = target)) as [->|Hother]; [hub_sets|].
        intros Hpos. specialize (Hlive Hpos). hub_sets.
      * destruct (decide (key = target)) as [->|Hother].
        -- rewrite lookup_insert_eq. split; [eauto | hub_sets].
        -- rewrite !lookup_insert_ne by congruence. rewrite <- Hreg. hub_sets.
      * destruct (decide (key = target)) as [->|Hother].
        -- rewrite !lookup_insert_eq. unfold default. cbn [from_option id].
           intros count [= <-]. lia.
        -- now rewrite !lookup_insert_ne by congruence.
      * destruct (decide (key = target)) as [->|Hother]; [hub_sets|].
        intros Hpos. specialize (Hlive Hpos). hub_sets.
  - destruct (IH target) as (Hreg & Hcount & Hlive & Hrunning).
    rewrite live_remove in Hcount, Hlive.
    destruct (decide (target = target)) as [_|]; [|contradiction].
    specialize (Hlive ltac:(lia)).
    destruct (proj1 Hreg Hlive) as [known Hknown].
    pose proof (Hcount _ Hknown) as ->.
    destruct (IH key) as (Hkreg & Hkcount & Hklive & Hkrunning).
    rewrite live_remove in Hkcount, Hklive.
    unfold sensor.async_will_remove_from_hass. rewrite Hknown.
    destruct (Z.leb_spec (Z.of_nat (S (live target (before ++ after))) - 1) 0)
      as [Hlast|Hmore]; cbn [sensor.hubs sensor.listeners sensor.hub_calls].
    + destruct (decide (target ∈ sensor.hubs data)) as [_|]; [|contradiction].
      split; [|split; [|split]].
      * destruct (decide (key = target)) as [->|Hother].
        -- rewrite lookup_delete_eq. split; [hub_sets | intros [? [=]]].
        -- rewrite lookup_delete_ne by congruence. rewrite <- Hkreg. hub_sets.
      * destruct (decide (key = target)) as [->|Hother].
        -- rewrite lookup_delete_eq. intros ? [=].
        -- now rewrite lookup_delete_ne by congruence.
      * destruct (decide (key = target)) as [->|Hother]; [lia|].
        intros Hpos. specialize (Hklive Hpos). hub_sets.
      * rewrite running_snoc, Hkrunning. cbn [running].
        destruct (decide (target = key)) as [->|Hother].
        -- destruct (decide (key ∈ sensor.hubs data)); [|contradiction].
           destruct (decide (key ∈ sensor.hubs data ∖ {[key]})); [hub_sets | lia].
        -- destruct (decide (key ∈ sensor.hubs data)),
             (decide (key ∈ sensor.hubs data ∖ {[target]})); try lia; hub_sets.
    + split; [|split; [|split; [|exact Hkrunning]]].
      * destruct (decide (key = target)) as [->|Hother].
        -- rewrite lookup_insert_eq. split; eauto.
        -- now rewrite lookup_insert_ne by congruence.
      * destruct (decide (key = target)) as [->|Hother].
        -- rewrite lookup_insert_eq. intros count [= <-]. lia.
        -- now rewrite lookup_insert_ne by congruence.
      * destruct (decide (key = target)) as [->|Hother]; auto.
Qed.

(** X25. However sensors are set up and entities removed, a hub key is
    registered exactly when it has a listeners counter, the counter is the
    number of entities added and not yet removed, and the hub of a
    registered key has been started once more than stopped. A hub
    therefore runs as long as one of its entities is there, and the
    removal of the last one stops and forgets it. A set-up without any
    valid sensor leaves a started hub with no entity, which no removal
    can stop. *)
Theorem hub_stopped_with_last_entity (data : sensor.ComponentData)
    (entities : list sensor.HubKey) (hub_key : sensor.HubKey) :
  platform_run data entities ->
  (hub_key ∈ sensor.hubs data <-> is_Some (sensor.listeners data !! hub_key)) /\
  (forall count, sensor.listeners data !! hub_key = Some count ->
                 count = Z.of_nat (live hub_key entities)) /\
  ((0 < live hub_key entities)%nat -> hub_key ∈ sensor.hubs data) /\
  running hub_key (sensor.hub_calls data)
  = (if decide (hub_key ∈ sensor.hubs data) then 1 else 0) /\
  (live hub_key entities = 1%nat ->
   (hub_key ∉ sensor.hubs (sensor.async_will_remove_from_hass hub_key data)) /\
   sensor.hub_calls (sensor.async_will_remove_from_hass hub_key data)
   = sensor.hub_calls data ++ [sensor.async_stop_call hub_key]) /\
  exists idle,
    platform_run idle [] /\ hub_key ∈ sensor.hubs idle /\
    running hub_key (sensor.hub_calls idle) = 1.
Proof.
  intros Hrun.
  destruct (platform_run_counts data entities hub_key Hrun)
    as (Hreg & Hcount & Hlive & Hrunning).
  split; [exact Hreg|]. split; [exact Hcount|]. split; [exact Hlive|].
  split; [exact Hrunning|]. split.
  - intros Hone.
    destruct (proj1 Hreg (Hlive ltac:(lia))) as [known Hknown].
    pose proof (Hcount _ Hknown) as ->.
    unfold sensor.async_will_remove_from_hass. rewrite Hknown, Hone.
    change (Z.of_nat 1 - 1 <=? 0) with true.
    cbn [sensor.hubs sensor.hub_calls].
    destruct (decide (hub_key ∈ sensor.hubs data)) as [_|Hout];
      [|exfalso; apply Hout, Hlive; lia].
    split; [hub_sets | reflexivity].
  - pose (fresh := {| sensor.hubs := (∅ : gset sensor.HubKey);
                      sensor.listeners := ∅; sensor.hub_calls := [] |}).
    assert (Hidle : sensor._async_setup_sensors true hub_key 0 fresh
                    = Some {| sensor.hubs := {[hub_key]} ∪ ∅;
                              sensor.listeners := <[hub_key := 0]> ∅;
                              sensor.hub_calls := [sensor.async_start_call hub_key] |}).
    { unfold sensor._async_setup_sensors, fresh. cbn [sensor.hubs].
      destruct (decide (hub_key ∈ (∅ : gset sensor.HubKey))); [hub_sets|].
      reflexivity. }
    eexists. split; [|split].
    + exact (platform_setup fresh [] true hub_key 0 _ platform_new Hidle).
    + cbn [sensor.hubs]. hub_sets.
    + cbn [sensor.hub_calls running].
      destruct (decide (hub_key = hub_key)); [reflexivity | contradiction].
Qed.

Lemma hub_stopped_with_last_entity_witness :
  let key : sensor.HubKey := ("udp", "0.0.0.0", 7777) in
  let fresh := {| sensor.hubs := ∅; sensor.listeners := ∅; sensor.hub_calls := [] |} in
  let data := {| sensor.hubs := {[key]} ∪ ∅;
                 sensor.listeners := <[key := 0 + 1]> (<[key := 0]> ∅);
                 sensor.hub_calls := [sensor.async_start_call key] |} in
  platform_run data [key] /\
  live key [key] = 1%nat /\
  (key ∉ sensor.hubs (sensor.async_will_remove_from_hass key data)) /\
  sensor.hub_calls (sensor.async_will_remove_from_hass key data)
  = [sensor.async_start_call key; sensor.async_stop_call key].
Proof.
  cbv zeta.
  set (key := ("udp", "0.0.0.0", 7777) : sensor.HubKey).
  set (data := {| sensor.hubs := {[key]} ∪ ∅;
                  sensor.listeners := <[key := 0 + 1]> (<[key := 0]> ∅);
                  sensor.hub_calls := [sensor.async_start_call key] |}).
  assert (Hrun : platform_run data [key]).
  { apply (platform_setup {| sensor.hubs := ∅; sensor.listeners := ∅;
                             sensor.hub_calls := [] |} [] true key 1 data platform_new).
    unfold sensor._async_setup_sensors. cbn [sensor.hubs].
    destruct (decide (key ∈ (∅ : gset sensor.HubKey))) as [Hin|_]; [hub_sets|].
    cbn [mbind option_bind sensor.hubs sensor.listeners sensor.hub_calls app].
    rewrite lookup_insert_eq. reflexivity. }
  assert (Hone : live key [key] = 1%nat) by reflexivity.
  split; [exact Hrun|]. split; [exact Hone|].
  exact (proj1 (proj2 (proj2 (proj2 (proj2
           (hub_stopped_with_last_entity data [key] key Hrun))))) Hone).
Defined.

(** ** The packet log of the web server *)

Lemma encode_append (a b : string) :
  encode_ascii_ignore (a +:+ b) = encode_ascii_ignore a +:+ encode_ascii_ignore b.
Proof.
  induction a as [|c a IH]; [reflexivity|]. simpl.
  destruct (ord c <? 128); simpl; now rewrite IH.
Qed.

Lemma split_comma_append (a b : string) :
  has_comma a = false -> split_comma (a +:+ "," +:+ b) = Some (a, b).
Proof.
  induction a as [|c a IH]; simpl; [reflexivity|].
  destruct (Ascii.eqb c ","); [discriminate|]. simpl. intros Ha.
  rewrite (IH Ha). reflexivity.
Qed.

Lemma has_comma_encode (a : string) :
  has_comma a = false -> has_comma (encode_ascii_ignore a) = false.
Proof.
  induction a as [|c a IH]; [reflexivity|]. simpl.
  destruct (Ascii.eqb c ",") eqn:Hc; [discriminate|]. simpl. intros Ha.
  destruct (ord c <? 128); [|auto]. simpl. rewrite Hc. auto.
Qed.


Lemma upper_append (a b : string) : upper (a +:+ b) = upper a +:+ upper b.
Proof. induction a as [|c a IH]; [reflexivity|]. simpl. now rewrite IH. Qed.

Lemma remove_spaces_append (a b : string) :
  remove_spaces (a +:+ b) = remove_spaces a +:+ remove_spaces b.
Proof.
  induction a as [|c a IH]; [reflexivity|]. simpl.
  destruct (isspace c); simpl; now rewrite IH.
Qed.

(** The two digits written for a byte survive the upper-casing, the
    encoding and the removal of white space, and [fromhex] reads the byte
    back from them. *)
Lemma byte_hex_round_trip (b : byte) (tail : string) :
  exists hi lo,
    remove_spaces
      (encode_ascii_ignore
         (upper (String (hex_digit (b2z b / 16))
                        (String (hex_digit (b2z b mod 16)) tail))))
    = String hi (String lo (remove_spaces (encode_ascii_ignore (upper tail)))) /\
    forall rest,
      fromhex (String hi (String lo rest)) = (fun data => b :: data) <$> fromhex rest.
Proof.
  destruct b; eexists _, _; (split; [reflexivity|]);
    intros rest; cbn [fromhex]; destruct (fromhex rest); reflexivity.
Qed.

Lemma bytes_hex_round_trip (data : bytes) :
  let clean := remove_spaces (encode_ascii_ignore (upper (bytes_hex " " data))) in
  fromhex clean = Some data /\ (clean = "" -> data = []).
Proof.
  cbv zeta. induction data as [|b data [IH _]]; [split; reflexivity|].
  cbn [bytes_hex].
  destruct (byte_hex_round_trip b
              match data with
              | [] => ""
              | _ :: _ => " " +:+ bytes_hex " " data
              end) as (hi & lo & -> & Hread).
  split; [|discriminate].
  rewrite Hread.
  replace (remove_spaces (encode_ascii_ignore (upper
             match data with
             | [] => ""
             | _ :: _ => " " +:+ bytes_hex " " data
             end)))
    with (remove_spaces (encode_ascii_ignore (upper (bytes_hex " " data))))
    by (destruct data; reflexivity).
  now rewrite IH.
Qed.

Lemma read_packet_line_written (entries : list (string * bytes))
    (timestamp : string) (data : bytes) :
  has_comma timestamp = false ->
  udp_web_server.read_packet_line entries (log_line (timestamp, data))
  = entries ++ [(encode_ascii_ignore timestamp, data)].
Proof.
  intros Hcomma. unfold log_line. cbn [fst snd].
  rewrite !encode_append.
  change (encode_ascii_ignore ",") with ",".
  pose proof (split_comma_append (encode_ascii_ignore timestamp)
                (encode_ascii_ignore (udp_web_server.format_bytes data))
                (has_comma_encode _ Hcomma)) as Hsplit.
  unfold udp_web_server.read_packet_line.
  destruct (encode_ascii_ignore timestamp +:+ "," +:+ encode_ascii_ignore (udp_web_server.format_bytes data))
    as [|c line] eqn:Hline; [discriminate|].
  rewrite Hsplit. cbv zeta.
  destruct data as [|b data]; [reflexivity|].
  unfold udp_web_server.format_bytes.
  destruct (bytes_hex_round_trip (b :: data)) as [Hread Hempty]. cbv zeta in *.
  destruct (remove_spaces _) as [|c1 clean]; [now specialize (Hempty eq_refl)|].
  now rewrite Hread.
Qed.

Lemma string_append_assoc (a b c : string) : (a +:+ b) +:+ c = a +:+ (b +:+ c).
Proof.
  induction a as [|x a IH]; [reflexivity|].
  change (String x ((a +:+ b) +:+ c) = String x (a +:+ (b +:+ c))).
  now rewrite IH.
Qed.

Lemma string_append_empty (a : string) : a +:+ "" = a.
Proof.
  induction a as [|x a IH]; [reflexivity|].
  change (String x (a +:+ "") = String x a). now rewrite IH.
Qed.

Lemma encode_idempotent (a : string) :
  encode_ascii_ignore (encode_ascii_ignore a) = encode_ascii_ignore a.
Proof.
  induction a as [|c a IH]; [reflexivity|]. simpl.
  destruct (ord c <? 128) eqn:Hc; [|exact IH]. simpl. now rewrite Hc, IH.
Qed.

Lemma has_linebreak_append (a b : string) :
  has_linebreak (a +:+ b) = has_linebreak a || has_linebreak b.
Proof.
  induction a as [|c a IH]; [reflexivity|]. simpl. now rewrite IH, orb_assoc.
Qed.

Lemma has_linebreak_encode (a : string) :
  has_linebreak a = false -> has_linebreak (encode_ascii_ignore a) = false.
Proof.
  induction a as [|c a IH]; [reflexivity|]. simpl.
  intros [Hc Ha]%orb_false_elim.
  destruct (ord c <? 128); [|auto]. simpl. rewrite Hc. auto.
Qed.

(** The hexadecimal text of a payload holds digits and spaces only. *)
Lemma has_linebreak_hex (data : bytes) :
  has_linebreak (upper (bytes_hex " " data)) = false.
Proof.
  induction data as [|b data IH]; [reflexivity|].
  cbn [bytes_hex].
  assert (Hrest : has_linebreak
                    (upper match data with
                           | [] => ""
                           | _ :: _ => " " +:+ bytes_hex " " data
                           end) = false).
  { destruct data as [|b' data]; [reflexivity|].
    rewrite upper_append, has_linebreak_append, IH. reflexivity. }
  revert Hrest. generalize (match data with
                            | [] => ""
                            | _ :: _ => " " +:+ bytes_hex " " data
                            end).
  intros tail Htail. cbn [upper has_linebreak]. rewrite Htail.
  destruct b; reflexivity.
Qed.

Lemma has_linebreak_log_line (entry : string * bytes) :
  has_linebreak entry.1 = false -> has_linebreak (log_line entry) = false.
Proof.
  intros Hbreak. unfold log_line.
  rewrite !encode_append, !has_linebreak_append, (has_linebreak_encode _ Hbreak).
  change (has_linebreak (encode_ascii_ignore ",")) with false.
  apply has_linebreak_encode.
  unfold udp_web_server.format_bytes.
  destruct entry.2; [reflexivity | apply has_linebreak_hex].
Qed.

(** A line break is not a carriage return unless counted as one. *)
Lemma not_linebreak_not_return (c : Ascii.ascii) :
  is_linebreak c = false -> Ascii.eqb c "013"%char = false.
Proof.
  destruct (Ascii.eqb_spec c "013"%char) as [->|]; [discriminate | reflexivity].
Qed.

Lemma universal_newlines_line (line rest : string) :
  has_linebreak line = false ->
  universal_newlines (line +:+ String "010"%char rest)
  = line +:+ String "010"%char (universal_newlines rest).
Proof.
  induction line as [|c line IH]; [reflexivity|].
  cbn [has_linebreak]. intros [Hc Hline]%orb_false_elim.
  change (String c line +:+ ?t) with (String c (line +:+ t)).
  cbn [universal_newlines].
  rewrite (not_linebreak_not_return _ Hc), (IH Hline). reflexivity.
Qed.

Lemma splitlines_from_line (read line rest : string) :
  has_linebreak line = false ->
  splitlines_from read (line +:+ String "010"%char rest)
  = (read +:+ line) :: splitlines_from "" rest.
Proof.
  revert read. induction line as [|c line IH]; intros read.
  - intros _. rewrite string_append_empty. reflexivity.
  - cbn [has_linebreak]. intros [Hc Hline]%orb_false_elim.
    change (String c line +:+ ?t) with (String c (line +:+ t)).
    cbn [splitlines_from].
    rewrite (not_linebreak_not_return _ Hc), Hc, (IH _ Hline).
    f_equal. apply string_append_assoc.
Qed.

(** The text written for entries without line breaks in their timestamps
    is read back as it is, one line for each entry. *)
Lemma log_text_lines (entries : list (string * bytes)) :
  Forall (fun entry => has_linebreak entry.1 = false) entries ->
  splitlines (universal_newlines (decode_ascii_ignore (log_text entries)))
  = log_line <$> entries.
Proof.
  unfold splitlines, decode_ascii_ignore.
  induction 1 as [|entry entries Hbreak _ IH]; [reflexivity|].
  cbn [log_text foldr fmap list_fmap].
  rewrite encode_append.
  change (encode_ascii_ignore (String "010"%char ?text))
    with (String "010"%char (encode_ascii_ignore text)).
  unfold log_line at 1. rewrite encode_idempotent. fold (log_line entry).
  rewrite universal_newlines_line by now apply has_linebreak_log_line.
  rewrite splitlines_from_line by now apply has_linebreak_log_line.
  fold (log_text entries). rewrite IH. reflexivity.
Qed.

Lemma logged_text (entries : list (string * bytes)) (content : string) :
  logged entries (Some content) = Some (content +:+ log_text entries).
Proof.
  revert content. induction entries as [|entry entries IH]; intros content.
  - cbn [logged foldl log_text foldr]. now rewrite string_append_empty.
  - change (logged (entry :: entries) (Some content))
      with (logged entries
              (udp_web_server.append_packet_log entry.1 entry.2 (Some content))).
    unfold udp_web_server.append_packet_log. cbv zeta.
    unfold default. cbn [from_option id]. rewrite IH. f_equal.
    rewrite string_append_assoc. f_equal.
    cbn [log_text foldr]. unfold log_line.
    rewrite <- !string_append_assoc, (encode_append _ (String "010"%char "")).
    rewrite string_append_assoc. reflexivity.
Qed.

Lemma logged_new (entry : string * bytes) (entries : list (string * bytes)) :
  logged (entry :: entries) None = Some (log_text (entry :: entries)).
Proof.
  change (logged (entry :: entries) None)
    with (logged entries (udp_web_server.append_packet_log entry.1 entry.2 None)).
  unfold udp_web_server.append_packet_log. cbv zeta.
  unfold default. cbn [from_option id]. rewrite logged_text.
  change ("" +:+ ?text) with text. f_equal.
  cbn [log_text foldr]. unfold log_line.
  rewrite <- !string_append_assoc, (encode_append _ (String "010"%char "")).
  rewrite string_append_assoc. reflexivity.
Qed.

Lemma read_packet_lines_written (entries read : list (string * bytes)) :
  Forall (fun entry => has_comma entry.1 = false) entries ->
  foldl udp_web_server.read_packet_line read (log_line <$> entries)
  = read ++ ((fun entry => (encode_ascii_ignore entry.1, entry.2)) <$> entries).
Proof.
  intros Hentries. revert read.
  induction Hentries as [|[timestamp data] entries Hcomma _ IH]; intros read;
    cbn [fmap list_fmap foldl fst snd].
  - now rewrite app_nil_r.
  - rewrite read_packet_line_written by exact Hcomma.
    rewrite IH, <- app_assoc. reflexivity.
Qed.

(** X26. What [append_packet_log] writes to a new log file,
    [read_packet_log] reads back from it: for timestamps that hold no
    comma and none of the characters at which [str.splitlines] ends a
    line, the entries read are the timestamps (less their non-ASCII
    characters) with the bytes logged, in order; with [max_lines] the last
    [max_lines] of them, and none when [max_lines] is 0 or negative. Both
    conditions are needed: the entry logged for the timestamp [a], file
    separator (0x1C), [b] is read back with the timestamp [b], and the one
    logged for the timestamp [a,b] is not read back at all. *)
Theorem packet_log_round_trip (entries : list (string * bytes)) (max_lines : option Z) :
  Forall (fun entry => has_comma entry.1 = false /\ has_linebreak entry.1 = false)
         entries ->
  udp_web_server.read_packet_log max_lines (logged entries None)
  = match max_lines with
    | None => (fun entry => (encode_ascii_ignore entry.1, entry.2)) <$> entries
    | Some max_lines =>
        if max_lines <=? 0 then []
        else drop (length entries - Z.to_nat max_lines)
               ((fun entry => (encode_ascii_ignore entry.1, entry.2)) <$> entries)
    end /\
  udp_web_server.read_packet_log None
    (logged [(String "a" (String "028" "b"), [x01])] None) = [("b", [x01])] /\
  udp_web_server.read_packet_log None (logged [("a,b", [x01])] None) = [].
Proof.
  intros Hentries. split; [|split; vm_compute; reflexivity].
  assert (Hcomma : Forall (fun entry : string * bytes => has_comma entry.1 = false) entries)
    by (eapply Forall_impl; [exact Hentries | now intros entry [? _]]).
  assert (Hbreak : Forall (fun entry : string * bytes => has_linebreak entry.1 = false)
                          entries)
    by (eapply Forall_impl; [exact Hentries | now intros entry [_ ?]]).
  destruct entries as [|entry entries].
  { destruct max_lines as [max_lines|]; [|reflexivity].
    cbn. now destruct (max_lines <=? 0). }
  rewrite logged_new. unfold udp_web_server.read_packet_log. cbv zeta.
  rewrite (log_text_lines _ Hbreak).
  destruct max_lines as [max_lines|].
  - destruct (max_lines <=? 0); [reflexivity|].
    rewrite length_fmap, <- fmap_drop, read_packet_lines_written;
      [now rewrite fmap_drop|].
    now apply Forall_drop.
  - now rewrite read_packet_lines_written.
Qed.

Lemma packet_log_round_trip_witness :
  let entries := [("2025-01-01 10:00:00", [x01; x06; x00; xff]);
                  ("2025-01-01 10:00:01", [])] in
  Forall (fun entry : string * bytes =>
            has_comma entry.1 = false /\ has_linebreak entry.1 = false) entries /\
  logged entries None
  = Some ("2025-01-01 10:00:00,01 06 00 FF" +:+ String "010" ""
          +:+ "2025-01-01 10:00:01," +:+ String "010" "") /\
  udp_web_server.read_packet_log (Some 1) (logged entries None)
  = [("2025-01-01 10:00:01", [])] /\
  udp_web_server.read_packet_log None (logged entries None) = entries.
Proof.
  cbv zeta.
  assert (Hentries : Forall (fun entry : string * bytes =>
                               has_comma entry.1 = false /\ has_linebreak entry.1 = false)
                       [("2025-01-01 10:00:00", [x01; x06; x00; xff]);
                        ("2025-01-01 10:00:01", [])])
    by (repeat constructor).
  split; [exact Hentries|]. split; [vm_compute; reflexivity|]. split.
  - exact (proj1 (packet_log_round_trip _ (Some 1) Hentries)).
  - exact (proj1 (packet_log_round_trip _ None Hentries)).
Defined.

(** ** The read history of the web server *)

Lemma fc03_reads_of_request (timestamp : string) (frame : bytes)
    (unit start_addr quantity : Z) (pending_request : option (Z * Z))
    (rows : list udp_web_server.ReadRow) :
  parser.parse_fc03_request frame = Some (unit, start_addr, quantity) ->
  udp_web_server.fc03_reads_of_frame timestamp (pending_request, rows) frame
  = (Some (start_addr, quantity), rows).
Proof.
  unfold parser.parse_fc03_request, udp_web_server.fc03_reads_of_frame.
  destruct (Z.ltb_spec (len frame) 8) as [|Hlong]; [discriminate|].
  destruct (index frame 0) as [u|]; [|discriminate].
  destruct (index frame 1) as [func|]; [|discriminate]. cbn [mbind option_bind].
  destruct (Z.eqb_spec (Z.land func 127) 3) as [Hfc|]; [|discriminate].
  destruct (Z.eqb_spec (Z.land func 128) 0) as [Hplain|]; [|discriminate].
  cbn [negb orb].
  destruct (Z.eqb_spec (len (inner frame)) 4) as [Hfour|]; [|discriminate].
  cbn [negb]. intros [= <- <- <-].
  destruct (Z.ltb_spec (len frame) 3); [lia|].
  rewrite Hplain. cbn [Z.eqb negb orb].
  destruct (Z.leb_spec 4 (len frame)); [|lia].
  rewrite Hfour. reflexivity.
Qed.

Lemma fc03_reads_of_response (timestamp : string) (frame : bytes)
    (unit : Z) (values : list Z) (pending_request : option (Z * Z))
    (rows : list udp_web_server.ReadRow) :
  parser.parse_fc03_request frame = None ->
  parser.parse_fc03_response frame = Some (unit, values) ->
  udp_web_server.fc03_reads_of_frame timestamp (pending_request, rows) frame
  = (None,
     rows ++
     match pending_request with
     | Some (start_addr, _) =>
         (fun ov : Z * Z =>
            {| udp_web_server.read_timestamp := timestamp;
               udp_web_server.address_dec := start_addr + ov.1;
               udp_web_server.address_hex := udp_web_server.address_0x (start_addr + ov.1);
               udp_web_server.read_value_dec := ov.2 |})
           <$> zip (seqZ 0 (len values)) values
     | None =>
         (fun ov : Z * Z =>
            {| udp_web_server.read_timestamp := timestamp;
               udp_web_server.address_dec := ov.1;
               udp_web_server.address_hex := udp_web_server.address_Reg ov.1;
               udp_web_server.read_value_dec := ov.2 |})
           <$> zip (seqZ 0 (len values)) values
     end).
Proof.
  unfold parser.parse_fc03_request, parser.parse_fc03_response,
    udp_web_server.fc03_reads_of_frame.
  destruct (Z.ltb_spec (len frame) 5) as [|Hfive]; [discriminate|].
  destruct (index frame 0) as [u|]; [|discriminate].
  destruct (index frame 1) as [func|]; [|discriminate]. cbn [mbind option_bind].
  destruct (Z.eqb_spec (Z.land func 127) 3) as [Hfc|]; [|discriminate].
  destruct (Z.eqb_spec (Z.land func 128) 0) as [Hplain|]; [|discriminate].
  cbn [negb orb]. intros Hrequest.
  assert (Hfour : len (inner frame) <> 4).
  { assert (Hlen : len (inner frame) = len frame - 4).
    { unfold inner, len in *. rewrite length_take, length_drop. lia. }
    destruct (Z.ltb_spec (len frame) 8) as [|_]; [lia|].
    destruct (Z.eqb_spec (len (inner frame)) 4); [discriminate | assumption]. }
  clear Hrequest.
  destruct (index (inner frame) 0) as [byte_count|] eqn:Hcount; [|discriminate].
  destruct (parser.register_values (slice (inner frame) 1 (1 + byte_count)))
    as [|v vs] eqn:Hvalues; [discriminate|].
  intros [= <- <-].
  destruct (Z.ltb_spec (len frame) 3); [lia|].
  rewrite Hplain. cbn [Z.eqb negb orb].
  destruct (Z.leb_spec 4 (len frame)); [|lia].
  destruct (Z.eqb_spec (len (inner frame)) 4); [contradiction|].
  rewrite Hcount, Hvalues.
  destruct pending_request as [[start_addr quantity]|]; reflexivity.
Qed.

Lemma enumerate_register_updates (unit base first : Z) (values : list Z) :
  (fun ov : Z * Z => (base + ov.1, ov.2)) <$> zip (seqZ first (len values)) values
  = (fun update : RegisterUpdate => (update.1.2, update.2))
      <$> register_updates unit (base + first) values.
Proof.
  revert first. induction values as [|value values IH]; intros first; [reflexivity|].
  replace (len (value :: values)) with (Z.succ (len values))
    by (unfold len; simpl; lia).
  rewrite seqZ_cons by (pose proof (len_nonneg values); lia).
  rewrite Z.pred_succ. cbn [zip zip_with fmap list_fmap register_updates fst snd].
  f_equal. rewrite IH. f_equal. f_equal. lia.
Qed.

(** The rows found so far are kept as they are by each frame. *)
Lemma fc03_reads_of_frame_rows (timestamp : string) (frame : bytes)
    (pending_request : option (Z * Z)) (rows : list udp_web_server.ReadRow) :
  udp_web_server.fc03_reads_of_frame timestamp (pending_request, rows) frame
  = let found := udp_web_server.fc03_reads_of_frame timestamp (pending_request, []) frame in
    (found.1, rows ++ found.2).
Proof.
  cbv zeta. unfold udp_web_server.fc03_reads_of_frame.
  destruct (len frame <? 3); [now rewrite app_nil_r|].
  destruct (index frame 1) as [func|]; [|now rewrite app_nil_r].
  destruct (negb _ || _); [now rewrite app_nil_r|].
  destruct (len _ =? 4); [now rewrite app_nil_r|].
  destruct (index _ 0) as [byte_count|]; [|now rewrite app_nil_r].
  destruct (parser.register_values _) as [|v vs]; [now rewrite app_nil_r|].
  reflexivity.
Qed.

Lemma fc03_reads_of_frames_rows (timestamp : string) (frames : list bytes)
    (pending_request : option (Z * Z)) (rows : list udp_web_server.ReadRow) :
  foldl (udp_web_server.fc03_reads_of_frame timestamp) (pending_request, rows) frames
  = let found :=
      foldl (udp_web_server.fc03_reads_of_frame timestamp) (pending_request, []) frames in
    (found.1, rows ++ found.2).
Proof.
  cbv zeta. revert pending_request rows.
  induction frames as [|frame frames IH]; intros pending_request rows;
    cbn [foldl]; [now rewrite app_nil_r|].
  pose proof (fc03_reads_of_frame_rows timestamp frame pending_request rows) as Hstep.
  cbv zeta in Hstep. rewrite Hstep.
  destruct (udp_web_server.fc03_reads_of_frame timestamp (pending_request, []) frame)
    as [pending found].
  cbn [fst snd]. rewrite (IH pending (rows ++ found)), (IH pending found).
  cbn [fst snd]. rewrite <- app_assoc. reflexivity.
Qed.

(** Every log has its rows, and rows found earlier stay in front. *)
Lemma extract_fc03_reads_from_rows (entries : list (string * bytes))
    (rows : list udp_web_server.ReadRow) :
  exists found,
    udp_web_server.extract_fc03_reads_from entries [] = Some found /\
    udp_web_server.extract_fc03_reads_from entries rows = Some (rows ++ found).
Proof.
  revert rows. induction entries as [|[timestamp data] entries IH]; intros rows;
    cbn [udp_web_server.extract_fc03_reads_from].
  - exists []. now rewrite app_nil_r.
  - destruct data as [|b data]; [apply IH|].
    destruct (split_frames_layout udp_web_server._candidate_frame_lengths (b :: data))
      as (frames & leftover & _ & Hsplit & _).
    change (split_frames udp_web_server._candidate_frame_lengths)
      with udp_web_server.split_modbus_frames in Hsplit.
    rewrite Hsplit. cbn [mbind option_bind].
    rewrite (fc03_reads_of_frames_rows _ _ _ rows). cbv zeta.
    destruct (foldl (udp_web_server.fc03_reads_of_frame timestamp) (None, []) _)
      as [pending found] eqn:Hfound.
    cbn [fst snd].
    destruct (IH found) as (later & Hlater & ->).
    destruct (IH (rows ++ found)) as (later' & Hlater' & ->).
    exists (found ++ later). split; [reflexivity|].
    rewrite Hlater in Hlater'. injection Hlater' as <-. now rewrite app_assoc.
Qed.

Lemma extract_fc03_reads_from_app (before after : list (string * bytes))
    (rows : list udp_web_server.ReadRow) :
  udp_web_server.extract_fc03_reads_from (before ++ after) rows
  = udp_web_server.extract_fc03_reads_from before rows
      ≫= udp_web_server.extract_fc03_reads_from after.
Proof.
  revert rows. induction before as [|[timestamp data] before IH]; intros rows;
    cbn [app udp_web_server.extract_fc03_reads_from]; [reflexivity|].
  destruct data as [|b data]; [apply IH|].
  destruct (udp_web_server.split_modbus_frames (b :: data)) as [[frames leftover]|];
    [|reflexivity].
  cbn [mbind option_bind].
  destruct (foldl _ _ _) as [pending found]. apply IH.
Qed.

(** The rows of a log are those of its entries, one entry after the
    other. *)
Lemma extract_fc03_reads_app (before after : list (string * bytes)) :
  exists rows_before rows_after,
    udp_web_server.extract_fc03_reads before = Some rows_before /\
    udp_web_server.extract_fc03_reads after = Some rows_after /\
    udp_web_server.extract_fc03_reads (before ++ after)
    = Some (rows_before ++ rows_after).
Proof.
  unfold udp_web_server.extract_fc03_reads.
  destruct (extract_fc03_reads_from_rows before []) as (rows_before & Hbefore & _).
  destruct (extract_fc03_reads_from_rows after rows_before)
    as (rows_after & Hafter & Hboth).
  exists rows_before, rows_after. split; [exact Hbefore|]. split; [exact Hafter|].
  rewrite extract_fc03_reads_from_app, Hbefore. exact Hboth.
Qed.

(** X27. The read history pairs a response with a request only inside one
    log entry, and whatever the two unit ids. The rows of a log are the
    rows of its entries, each entry read on its own. When the
    reconstructor finds in an entry an FC03 request followed by an FC03
    response, the rows carry the registers and values that the hub
    dispatches for the response after that request: start address
    onwards. When it finds the response alone, the rows are numbered from
    0, the address being the position of the value in the response. So
    when, anywhere in a log, the request is alone in an entry and the
    response alone in the next one, the request gives no row and the rows
    of the response are numbered from 0. *)
Theorem fc03_history_addresses (timestamp : string) (data request response leftover : bytes)
    (unit start_addr quantity unit' : Z) (values : list Z) :
  parser.parse_fc03_request request = Some (unit, start_addr, quantity) ->
  parser.parse_fc03_request response = None ->
  parser.parse_fc03_response response = Some (unit', values) ->
  let shown (rows : list udp_web_server.ReadRow) :=
    (fun row => (udp_web_server.address_dec row, udp_web_server.read_value_dec row))
      <$> rows in
  let dispatched_from (base : Z) :=
    (fun update : RegisterUpdate => (update.1.2, update.2))
      <$> register_updates unit' base values in
  (udp_web_server.split_modbus_frames data = Some ([request; response], leftover) ->
   exists rows,
     udp_web_server.extract_fc03_reads [(timestamp, data)] = Some rows /\
     shown rows = dispatched_from start_addr /\
     Forall (fun row => udp_web_server.address_hex row
                        = udp_web_server.address_0x (udp_web_server.address_dec row))
            rows) /\
  (udp_web_server.split_modbus_frames data = Some ([response], leftover) ->
   exists rows,
     udp_web_server.extract_fc03_reads [(timestamp, data)] = Some rows /\
     shown rows = dispatched_from 0 /\
     Forall (fun row => udp_web_server.address_hex row
                        = udp_web_server.address_Reg (udp_web_server.address_dec row))
            rows) /\
  (forall before after : list (string * bytes),
   exists rows_before rows_after,
     udp_web_server.extract_fc03_reads before = Some rows_before /\
     udp_web_server.extract_fc03_reads after = Some rows_after /\
     udp_web_server.extract_fc03_reads (before ++ after)
     = Some (rows_before ++ rows_after)) /\
  (forall (before after : list (string * bytes)) (timestamp' : string)
          (data' leftover' : bytes),
     udp_web_server.split_modbus_frames data = Some ([request], leftover) ->
     udp_web_server.split_modbus_frames data' = Some ([response], leftover') ->
     udp_web_server.extract_fc03_reads [(timestamp, data)] = Some [] /\
     exists rows_before rows rows_after,
       udp_web_server.extract_fc03_reads before = Some rows_before /\
       udp_web_server.extract_fc03_reads after = Some rows_after /\
       udp_web_server.extract_fc03_reads
         (before ++ (timestamp, data) :: (timestamp', data') :: after)
       = Some (rows_before ++ rows ++ rows_after) /\
       shown rows = dispatched_from 0 /\
       Forall (fun row => udp_web_server.address_hex row
                          = udp_web_server.address_Reg (udp_web_server.address_dec row))
              rows).
Proof.
  intros Hrequest Hnot Hresponse. cbv zeta.
  assert (Halone : forall (stamp : string) (bytes_in bytes_left : bytes),
            udp_web_server.split_modbus_frames bytes_in = Some ([response], bytes_left) ->
            exists rows,
              udp_web_server.extract_fc03_reads [(stamp, bytes_in)] = Some rows /\
              (fun row => (udp_web_server.address_dec row,
                           udp_web_server.read_value_dec row)) <$> rows
              = (fun update : RegisterUpdate => (update.1.2, update.2))
                  <$> register_updates unit' 0 values /\
              Forall (fun row => udp_web_server.address_hex row
                                 = udp_web_server.address_Reg
                                     (udp_web_server.address_dec row))
                     rows).
  { intros stamp bytes_in bytes_left Hsplit.
    unfold udp_web_server.extract_fc03_reads.
    cbn [udp_web_server.extract_fc03_reads_from].
    destruct bytes_in as [|b bytes_in]; [discriminate|].
    rewrite Hsplit. cbn [mbind option_bind foldl].
    rewrite (fc03_reads_of_response _ _ _ _ _ _ Hnot Hresponse).
    cbn [app]. eexists. split; [reflexivity|]. split.
    + pose proof (enumerate_register_updates unit' 0 0 values) as Hsame.
      change (0 + 0) with 0 in Hsame. rewrite <- Hsame, <- list_fmap_compose.
      apply list_fmap_ext. intros i ov _. reflexivity.
    + apply Forall_fmap, Forall_forall. intros ov _. reflexivity. }
  assert (Hsilent : forall (stamp : string) (bytes_in bytes_left : bytes),
            udp_web_server.split_modbus_frames bytes_in = Some ([request], bytes_left) ->
            udp_web_server.extract_fc03_reads [(stamp, bytes_in)] = Some []).
  { intros stamp bytes_in bytes_left Hsplit.
    unfold udp_web_server.extract_fc03_reads.
    cbn [udp_web_server.extract_fc03_reads_from].
    destruct bytes_in as [|b bytes_in]; [discriminate|].
    rewrite Hsplit. cbn [mbind option_bind foldl].
    rewrite (fc03_reads_of_request _ _ _ _ _ _ _ Hrequest). reflexivity. }
  split; [|split; [|split]].
  - intros Hsplit. unfold udp_web_server.extract_fc03_reads.
    cbn [udp_web_server.extract_fc03_reads_from].
    destruct data as [|b data]; [discriminate|].
    rewrite Hsplit. cbn [mbind option_bind foldl].
    rewrite (fc03_reads_of_request _ _ _ _ _ _ _ Hrequest).
    rewrite (fc03_reads_of_response _ _ _ _ _ _ Hnot Hresponse).
    cbn [app]. eexists. split; [reflexivity|]. split.
    + pose proof (enumerate_register_updates unit' start_addr 0 values) as Hsame.
      rewrite Z.add_0_r in Hsame. rewrite <- Hsame, <- list_fmap_compose.
      apply list_fmap_ext. intros i ov _. reflexivity.
    + apply Forall_fmap, Forall_forall. intros ov _. reflexivity.
  - apply Halone.
  - apply extract_fc03_reads_app.
  - intros before after timestamp' data' leftover' Hfirst Hsecond.
    split; [exact (Hsilent _ _ _ Hfirst)|].
    destruct (Halone timestamp' _ _ Hsecond) as (rows & Hrows & Hshown & Hlabels).
    destruct (extract_fc03_reads_app before
                ((timestamp, data) :: (timestamp', data') :: after))
      as (rows_before & rows_rest & Hbefore & Hrest & Hall).
    destruct (extract_fc03_reads_app [(timestamp, data)] ((timestamp', data') :: after))
      as (rows_first & rows_later & Hone & Hlater & Hrest').
    destruct (extract_fc03_reads_app [(timestamp', data')] after)
      as (rows_second & rows_after & Htwo & Hafter & Hlater').
    cbn [app] in Hrest', Hlater'.
    rewrite (Hsilent _ _ _ Hfirst) in Hone. injection Hone as <-.
    rewrite Hrows in Htwo. injection Htwo as <-.
    rewrite Hlater in Hlater'. injection Hlater' as ->.
    rewrite Hrest in Hrest'. injection Hrest' as ->.
    exists rows_before, rows, rows_after.
    split; [exact Hbefore|]. split; [exact Hafter|]. split; [exact Hall|].
    split; [exact Hshown | exact Hlabels].
Qed.

Lemma fc03_history_addresses_witness :
  let request := fc03_request_frame 1 16 2 in
  let response := fc03_response_frame 1 [10; 20] in
  parser.parse_fc03_request request = Some (1, 16, 2) /\
  parser.parse_fc03_request response = None /\
  parser.parse_fc03_response response = Some (1, [10; 20]) /\
  udp_web_server.split_modbus_frames (request ++ response)
  = Some ([request; response], []) /\
  udp_web_server.split_modbus_frames request = Some ([request], []) /\
  udp_web_server.split_modbus_frames response = Some ([response], []) /\
  (exists rows,
     udp_web_server.extract_fc03_reads [("10:00:00", request ++ response)] = Some rows /\
     (fun row => (udp_web_server.address_dec row, udp_web_server.read_value_dec row))
       <$> rows
     = [(16, 10); (17, 20)] /\
     Forall (fun row => udp_web_server.address_hex row
                        = udp_web_server.address_0x (udp_web_server.address_dec row))
            rows) /\
  udp_web_server.extract_fc03_reads [("10:00:00", request)] = Some [] /\
  exists rows_before rows rows_after,
    udp_web_server.extract_fc03_reads [] = Some rows_before /\
    udp_web_server.extract_fc03_reads [] = Some rows_after /\
    udp_web_server.extract_fc03_reads
      ([] ++ [("10:00:00", request); ("10:00:01", response)])
    = Some (rows_before ++ rows ++ rows_after) /\
    (fun row => (udp_web_server.address_dec row, udp_web_server.read_value_dec row))
      <$> rows
    = [(0, 10); (1, 20)] /\
    Forall (fun row => udp_web_server.address_hex row
                       = udp_web_server.address_Reg (udp_web_server.address_dec row))
           rows.
Proof.
  cbv zeta.
  assert (Hrequest : parser.parse_fc03_request (fc03_request_frame 1 16 2)
                     = Some (1, 16, 2)) by (vm_compute; reflexivity).
  assert (Hnot : parser.parse_fc03_request (fc03_response_frame 1 [10; 20]) = None)
    by (vm_compute; reflexivity).
  assert (Hresponse : parser.parse_fc03_response (fc03_response_frame 1 [10; 20])
                      = Some (1, [10; 20])) by (vm_compute; reflexivity).
  assert (Hsplit : udp_web_server.split_modbus_frames
                     (fc03_request_frame 1 16 2 ++ fc03_response_frame 1 [10; 20])
                   = Some ([fc03_request_frame 1 16 2; fc03_response_frame 1 [10; 20]],
                           []))
    by (vm_compute; reflexivity).
  assert (Hfirst : udp_web_server.split_modbus_frames (fc03_request_frame 1 16 2)
                   = Some ([fc03_request_frame 1 16 2], []))
    by (vm_compute; reflexivity).
  assert (Hsecond : udp_web_server.split_modbus_frames (fc03_response_frame 1 [10; 20])
                    = Some ([fc03_response_frame 1 [10; 20]], []))
    by (vm_compute; reflexivity).
  split; [exact Hrequest|]. split; [exact Hnot|]. split; [exact Hresponse|].
  split; [exact Hsplit|]. split; [exact Hfirst|]. split; [exact Hsecond|].
  split.
  - exact (proj1 (fc03_history_addresses "10:00:00" _ _ _ [] 1 16 2 1 [10; 20]
                    Hrequest Hnot Hresponse) Hsplit).
  - exact (proj2 (proj2 (proj2
             (fc03_history_addresses "10:00:00" _ _ _ [] 1 16 2 1 [10; 20]
                Hrequest Hnot Hresponse)))
             [] [] "10:00:01" _ [] Hfirst Hsecond).
Defined.
